(** * pgvictoria: wire protocol engine, symmetric crypto and configuration store

    A shallow embedding of the parts of
      - src/libpgvictoria/message.c        (protocol messages, query executor)
      - src/libpgvictoria/aes.c            (buffer and file encryption)
      - src/libpgvictoria/configuration.c  (users file, configuration reload)
    that the properties below talk about, followed by the properties.

    Conventions.
      - A byte is a [Z] in [0, 256).  Buffers are [list byte].
      - A C string is a [string]; [strlen] is [String.length] and the
        terminating NUL is not part of the value.
      - Fixed-width integers are [Z] with the wrap-around written out.
      - A C function that returns a status and fills an out-parameter returns
        a pair or an [option].
      - Memory allocation does not fail. *)

From Stdlib Require Import ZArith List String Ascii Bool Lia Arith.
Import ListNotations.
Open Scope Z_scope.

(** A byte: a [Z] in [0, 256). *)
Abbreviation byte := Z (only parsing).

(* ================================================================== *)
(** * Byte codec (utils.c)                                             *)
(* ================================================================== *)

Module Codec.

(** Bytes of a C string, without the terminator. *)
Definition bytes_of_string (s : string) : list byte :=
  map (fun c => Z.of_N (N_of_ascii c)) (list_ascii_of_string s).

Definition ascii_of_byte (b : byte) : ascii := ascii_of_N (Z.to_N (b mod 256)).

Definition string_of_bytes (bs : list byte) : string :=
  string_of_list_ascii (map ascii_of_byte bs).

(** Two's complement views of a [Z]. *)
Definition wrap (bits : Z) (v : Z) : Z := v mod 2 ^ bits.

Definition signed (bits : Z) (v : Z) : Z :=
  let u := wrap bits v in
  if u <? 2 ^ (bits - 1) then u else u - 2 ^ bits.

(** [data + offset]: the bytes seen through a pointer into a buffer. *)
Definition at_offset (data : list byte) (offset : nat) : list byte :=
  skipn offset data.

(** Modelled from the spec: [pgvictoria_read_byte] of utils.c is not part of
    the sources at hand; section 4.1 of the specification gives it as the read
    of one byte at the cursor.  A read past the end of the modelled buffer
    yields 0. *)
Definition pgvictoria_read_byte (data : list byte) : byte :=
  nth 0 data 0.

(** Modelled from the spec: [pgvictoria_read_int16] of utils.c; big-endian,
    signed (section 4.1). *)
Definition pgvictoria_read_int16 (data : list byte) : Z :=
  signed 16 (nth 0 data 0 * 256 + nth 1 data 0).

(** Modelled from the spec: [pgvictoria_read_int32] of utils.c; big-endian,
    signed (section 4.1). *)
Definition pgvictoria_read_int32 (data : list byte) : Z :=
  signed 32 (nth 0 data 0 * 16777216 + nth 1 data 0 * 65536
             + nth 2 data 0 * 256 + nth 3 data 0).

(** Modelled from the spec: [pgvictoria_read_string] of utils.c; the bytes up
    to, and without, the first NUL at the cursor (section 4.1). *)
Fixpoint pgvictoria_read_string (data : list byte) : list byte :=
  match data with
  | [] => []
  | b :: rest => if b =? 0 then [] else b :: pgvictoria_read_string rest
  end.

(** The four bytes of an [int32_t], most significant first. *)
Definition int32_bytes (v : Z) : list byte :=
  let u := wrap 32 v in
  [u / 16777216; (u / 65536) mod 256; (u / 256) mod 256; u mod 256].

(** A store of [bs] at [data + offset].  The buffer keeps its size: the part
    of a store that falls behind the last modelled byte is dropped. *)
Definition store (data : list byte) (offset : nat) (bs : list byte) : list byte :=
  firstn (List.length data)
         (firstn offset data ++ bs ++ skipn (offset + List.length bs) data).

(** Modelled from the spec: [pgvictoria_write_byte] of utils.c. *)
Definition pgvictoria_write_byte (data : list byte) (offset : nat) (b : byte)
  : list byte :=
  store data offset [b].

(** Modelled from the spec: [pgvictoria_write_int32] of utils.c; big-endian
    (section 4.1). *)
Definition pgvictoria_write_int32 (data : list byte) (offset : nat) (v : Z)
  : list byte :=
  store data offset (int32_bytes v).

(** The eight bytes of an [int64_t], most significant first. *)
Definition int64_bytes (v : Z) : list byte :=
  let u := wrap 64 v in
  [u / 72057594037927936; (u / 281474976710656) mod 256;
   (u / 1099511627776) mod 256; (u / 4294967296) mod 256;
   (u / 16777216) mod 256; (u / 65536) mod 256; (u / 256) mod 256; u mod 256].

(** Modelled from the spec: [pgvictoria_write_int64] of utils.c; big-endian
    (section 4.1). *)
Definition pgvictoria_write_int64 (data : list byte) (offset : nat) (v : Z)
  : list byte :=
  store data offset (int64_bytes v).

(** Modelled from the spec: [pgvictoria_read_int64] of utils.c; big-endian,
    signed (section 4.1). *)
Definition pgvictoria_read_int64 (data : list byte) : Z :=
  signed 64 (nth 0 data 0 * 72057594037927936 + nth 1 data 0 * 281474976710656
             + nth 2 data 0 * 1099511627776 + nth 3 data 0 * 4294967296
             + nth 4 data 0 * 16777216 + nth 5 data 0 * 65536
             + nth 6 data 0 * 256 + nth 7 data 0).

(** [memcpy(data + offset, src, n)] *)
Definition memcpy (data : list byte) (offset : nat) (src : list byte) (n : nat)
  : list byte :=
  store data offset (firstn n src).

(** The decimal digits of a number that is not negative, as [printf] prints
    them with [%d] and [%u]; [fuel] bounds the number of digits. *)
Fixpoint decimal_digits (fuel : nat) (n : Z) : list ascii :=
  match fuel with
  | O => []
  | S fuel' =>
      if n <? 10 then [ascii_of_N (Z.to_N (48 + n))]
      else decimal_digits fuel' (n / 10) ++ [ascii_of_N (Z.to_N (48 + n mod 10))]
  end.

(** [%d] *)
Definition decimal (n : Z) : string :=
  if n <? 0
  then String "-" (string_of_list_ascii (decimal_digits (S (Z.to_nat (Z.log2 (- n)))) (- n)))
  else string_of_list_ascii (decimal_digits (S (Z.to_nat (Z.log2 n))) n).

(** [snprintf(buffer, size, ...)] of an already formatted text: at most
    [size - 1] characters are stored. *)
Definition snprintf (size : nat) (text : string) : string :=
  string_of_list_ascii (firstn (size - 1) (list_ascii_of_string text)).

(** Modelled from the spec: [pgvictoria_write_string] of utils.c; "writes the
    bytes of the string including a trailing NUL" (section 4.1). *)
Definition pgvictoria_write_string (data : list byte) (offset : nat) (s : string)
  : list byte :=
  store data offset (bytes_of_string s ++ [0]).

End Codec.

(* ================================================================== *)
(** * Protocol messages (message.c)                                    *)
(* ================================================================== *)

Module Message.
Import Codec.

(** [struct message] of message.h, with the fields that message.c uses.
    [data] holds the [length] bytes that go on the wire; the alignment
    padding that [aligned_alloc] adds behind them is never sent and is not
    modelled. *)
Record message : Type := mkMessage {
  kind : byte;
  length : Z;
  data : list byte
}.

(** Modelled from the spec: the status macros of message.h, which is not
    among the sources; section 4.3 has the three results of a read and the
    two of a write. *)
Inductive message_status : Type :=
| MESSAGE_STATUS_ZERO
| MESSAGE_STATUS_OK
| MESSAGE_STATUS_ERROR.

(** The code of a character constant such as ['p']. *)
Definition chr (c : ascii) : byte := Z.of_N (N_of_ascii c).

(** [allocate_message]: kind 0, [length = size], zero-filled payload. *)
Definition allocate_message (size : nat) : message :=
  mkMessage 0 (Z.of_nat size) (repeat 0 size).

Definition set_kind (m : message) (k : byte) : message :=
  mkMessage k (length m) (data m).

Definition set_data (m : message) (d : list byte) : message :=
  mkMessage (kind m) (length m) d.

(** [pgvictoria_create_auth_scram256_response] *)
Definition pgvictoria_create_auth_scram256_response (nounce : string)
  : message_status * message :=
  let size := (1 + 4 + 13 + 4 + 9 + String.length nounce)%nat in
  let m := allocate_message size in
  let m := set_kind m (chr "p") in
  let d := data m in
  let d := pgvictoria_write_byte d 0 (chr "p") in
  let d := pgvictoria_write_int32 d 1 (Z.of_nat size - 1) in
  let d := pgvictoria_write_string d 5 "SCRAM-SHA-256" in
  let d := pgvictoria_write_string d 22 " n,,n=,r=" in
  let d := pgvictoria_write_string d 31 nounce in
  (MESSAGE_STATUS_OK, set_data m d).

(** [pgvictoria_create_startup_message] *)
Definition pgvictoria_create_startup_message
    (username database : string) (replication : bool) : message_status * message :=
  let us := String.length username in
  let ds := String.length database in
  let size := (4 + 4 + 4 + 1 + us + 1 + 8 + 1 + ds + 1 + 17 + 9 + 1)%nat in
  let size := if replication then (size + 14)%nat else size in
  let m := allocate_message size in
  let m := set_kind m 0 in
  let d := data m in
  let d := pgvictoria_write_int32 d 0 (Z.of_nat size) in
  let d := pgvictoria_write_int32 d 4 196608 in
  let d := pgvictoria_write_string d 8 "user" in
  let d := pgvictoria_write_string d 13 username in
  let d := pgvictoria_write_string d (13 + us + 1) "database" in
  let d := pgvictoria_write_string d (13 + us + 1 + 9) database in
  let d := pgvictoria_write_string d (13 + us + 1 + 9 + ds + 1) "application_name" in
  let d := pgvictoria_write_string d (13 + us + 1 + 9 + ds + 1 + 17) "pgvictoria" in
  let d := if replication
           then
             let d := pgvictoria_write_string d (13 + us + 1 + 9 + ds + 1 + 17 + 9) "replication" in
             pgvictoria_write_string d (13 + us + 1 + 9 + ds + 1 + 17 + 9 + 12) "1"
           else d in
  (MESSAGE_STATUS_OK, set_data m d).

(** [pgvictoria_copy_message] *)
Definition pgvictoria_copy_message (msg : message) : message :=
  let copy := allocate_message (Z.to_nat (length msg)) in
  let copy := set_kind copy (kind msg) in
  set_data copy (memcpy (data copy) 0 (data msg) (Z.to_nat (length msg))).

(** [pgvictoria_create_auth_password_response] *)
Definition pgvictoria_create_auth_password_response (password : string)
  : message_status * message :=
  let size := (6 + String.length password)%nat in
  let m := allocate_message size in
  let m := set_kind m (chr "p") in
  let d := data m in
  let d := pgvictoria_write_byte d 0 (chr "p") in
  let d := pgvictoria_write_int32 d 1 (Z.of_nat size - 1) in
  let d := pgvictoria_write_string d 5 password in
  (MESSAGE_STATUS_OK, set_data m d).

(** [pgvictoria_create_auth_md5_response] *)
Definition pgvictoria_create_auth_md5_response (md5 : string)
  : message_status * message :=
  let size := (1 + 4 + String.length md5 + 1)%nat in
  let m := allocate_message size in
  let m := set_kind m (chr "p") in
  let d := data m in
  let d := pgvictoria_write_byte d 0 (chr "p") in
  let d := pgvictoria_write_int32 d 1 (Z.of_nat size - 1) in
  let d := pgvictoria_write_string d 5 md5 in
  (MESSAGE_STATUS_OK, set_data m d).

(** [pgvictoria_create_auth_scram256_continue] *)
Definition pgvictoria_create_auth_scram256_continue (cn sn salt : string)
  : message_status * message :=
  let size := (1 + 4 + 4 + 2 + String.length cn + String.length sn + 3
               + String.length salt + 7)%nat in
  let m := allocate_message size in
  let m := set_kind m (chr "R") in
  let d := data m in
  let d := pgvictoria_write_byte d 0 (chr "R") in
  let d := pgvictoria_write_int32 d 1 (Z.of_nat size - 1) in
  let d := pgvictoria_write_int32 d 5 11 in
  let d := pgvictoria_write_string d 9 "r=" in
  let d := pgvictoria_write_string d 11 cn in
  let d := pgvictoria_write_string d (11 + String.length cn) sn in
  let d := pgvictoria_write_string d (11 + String.length cn + String.length sn) ",s=" in
  let d := pgvictoria_write_string d (11 + String.length cn + String.length sn + 3) salt in
  let d := pgvictoria_write_string d
             (11 + String.length cn + String.length sn + 3 + String.length salt)
             ",i=4096" in
  (MESSAGE_STATUS_OK, set_data m d).

(** [pgvictoria_create_auth_scram256_continue_response] *)
Definition pgvictoria_create_auth_scram256_continue_response (wp p : string)
  : message_status * message :=
  let size := (1 + 4 + String.length wp + 3 + String.length p)%nat in
  let m := allocate_message size in
  let m := set_kind m (chr "p") in
  let d := data m in
  let d := pgvictoria_write_byte d 0 (chr "p") in
  let d := pgvictoria_write_int32 d 1 (Z.of_nat size - 1) in
  let d := pgvictoria_write_string d 5 wp in
  let d := pgvictoria_write_string d (5 + String.length wp) ",p=" in
  let d := pgvictoria_write_string d (5 + String.length wp + 3) p in
  (MESSAGE_STATUS_OK, set_data m d).

(** [pgvictoria_create_auth_scram256_final] *)
Definition pgvictoria_create_auth_scram256_final (ss : string)
  : message_status * message :=
  let size := (1 + 4 + 4 + 2 + String.length ss)%nat in
  let m := allocate_message size in
  let m := set_kind m (chr "R") in
  let d := data m in
  let d := pgvictoria_write_byte d 0 (chr "R") in
  let d := pgvictoria_write_int32 d 1 (Z.of_nat size - 1) in
  let d := pgvictoria_write_int32 d 5 12 in
  let d := pgvictoria_write_string d 9 "v=" in
  let d := pgvictoria_write_string d 11 ss in
  (MESSAGE_STATUS_OK, set_data m d).

(** [pgvictoria_create_ssl_message] *)
Definition pgvictoria_create_ssl_message : message_status * message :=
  let size := 8%nat in
  let m := allocate_message size in
  let m := set_kind m 0 in
  let d := data m in
  let d := pgvictoria_write_int32 d 0 (Z.of_nat size) in
  let d := pgvictoria_write_int32 d 4 80877103 in
  (MESSAGE_STATUS_OK, set_data m d).

(** [pgvictoria_create_identify_system_message] *)
Definition pgvictoria_create_identify_system_message : message_status * message :=
  let size := (1 + 4 + 17)%nat in
  let m := allocate_message size in
  let m := set_kind m (chr "Q") in
  let d := data m in
  let d := pgvictoria_write_byte d 0 (chr "Q") in
  let d := pgvictoria_write_int32 d 1 (Z.of_nat size - 1) in
  let d := pgvictoria_write_string d 5 "IDENTIFY_SYSTEM;" in
  (MESSAGE_STATUS_OK, set_data m d).

(** [pgvictoria_create_timeline_history_message] *)
Definition pgvictoria_create_timeline_history_message (timeline : Z)
  : message_status * message :=
  let tl := snprintf 8 (decimal timeline) in
  let size := (1 + 4 + 17 + String.length tl + 1 + 1)%nat in
  let m := allocate_message size in
  let m := set_kind m (chr "Q") in
  let d := data m in
  let d := pgvictoria_write_byte d 0 (chr "Q") in
  let d := pgvictoria_write_int32 d 1 (Z.of_nat size - 1) in
  let d := pgvictoria_write_string d 5 "TIMELINE_HISTORY " in
  let d := memcpy d (5 + 17) (bytes_of_string tl) (String.length tl) in
  let d := pgvictoria_write_string d (5 + 17 + String.length tl) ";" in
  (MESSAGE_STATUS_OK, set_data m d).

(** [pgvictoria_create_read_replication_slot_message] *)
Definition pgvictoria_create_read_replication_slot_message (slot : string)
  : message_status * message :=
  let size := (1 + 4 + 22 + String.length slot + 1 + 1)%nat in
  let m := allocate_message size in
  let m := set_kind m (chr "Q") in
  let d := data m in
  let d := pgvictoria_write_byte d 0 (chr "Q") in
  let d := pgvictoria_write_int32 d 1 (Z.of_nat size - 1) in
  let d := pgvictoria_write_string d 5 "READ_REPLICATION_SLOT " in
  let d := pgvictoria_write_string d (5 + 22) slot in
  let d := pgvictoria_write_string d (5 + 22 + String.length slot) ";" in
  (MESSAGE_STATUS_OK, set_data m d).

(** Whether a [char*] is neither null nor empty. *)
Definition given (s : option string) : bool :=
  match s with
  | Some s => (0 <? String.length s)%nat
  | None => false
  end.

Definition text_of (s : option string) : string :=
  match s with Some s => s | None => ""%string end.

(** [pgvictoria_create_start_replication_message]; [None] is a null
    pointer. *)
Definition pgvictoria_create_start_replication_message
    (xlogpos : option string) (timeline : Z) (slot : option string)
  : message_status * message :=
  let cmd :=
    if given slot then
      if given xlogpos then
        snprintf 1024 ("START_REPLICATION SLOT " ++ text_of slot ++ " PHYSICAL "
                       ++ text_of xlogpos ++ " TIMELINE " ++ decimal timeline ++ ";")
      else
        snprintf 1024 ("START_REPLICATION SLOT " ++ text_of slot
                       ++ " PHYSICAL 0/0 TIMELINE " ++ decimal timeline ++ ";")
    else
      if given xlogpos then
        snprintf 1024 ("START_REPLICATION PHYSICAL " ++ text_of xlogpos
                       ++ " TIMELINE " ++ decimal timeline ++ ";")
      else
        snprintf 1024 ("START_REPLICATION PHYSICAL 0/0 TIMELINE "
                       ++ decimal timeline ++ ";") in
  let size := (1 + 4 + String.length cmd + 1)%nat in
  let m := allocate_message size in
  let m := set_kind m (chr "Q") in
  let d := data m in
  let d := pgvictoria_write_byte d 0 (chr "Q") in
  let d := pgvictoria_write_int32 d 1 (Z.of_nat size - 1) in
  let d := memcpy d 5 (bytes_of_string cmd) (String.length cmd) in
  (MESSAGE_STATUS_OK, set_data m d).

(** [pgvictoria_create_standby_status_update_message]; the two timestamps
    are the results of [pgvictoria_get_current_timestamp] and
    [pgvictoria_get_y2000_timestamp], whose difference is taken in
    [int64_t]. *)
Definition pgvictoria_create_standby_status_update_message
    (received flushed applied : Z) (current_timestamp y2000_timestamp : Z)
  : message_status * message :=
  let size := (1 + 4 + 1 + 8 + 8 + 8 + 8 + 1)%nat in
  let m := allocate_message size in
  let m := set_kind m (chr "d") in
  let d := data m in
  let d := pgvictoria_write_byte d 0 (chr "d") in
  let d := pgvictoria_write_int32 d 1 (Z.of_nat size - 1) in
  let d := pgvictoria_write_byte d (1 + 4) (chr "r") in
  let d := pgvictoria_write_int64 d (1 + 4 + 1) received in
  let d := pgvictoria_write_int64 d (1 + 4 + 1 + 8) flushed in
  let d := pgvictoria_write_int64 d (1 + 4 + 1 + 8 + 8) applied in
  let d := pgvictoria_write_int64 d (1 + 4 + 1 + 8 + 8 + 8)
             (signed 64 (current_timestamp - y2000_timestamp)) in
  let d := pgvictoria_write_byte d (1 + 4 + 1 + 8 + 8 + 8 + 8) 0 in
  (MESSAGE_STATUS_OK, set_data m d).

(** [pgvictoria_create_query_message]; [None] when [strcpy] runs over the
    1024 bytes of [cmd]. *)
Definition pgvictoria_create_query_message (query : string)
  : option (message_status * message) :=
  if (String.length query <? 1024)%nat then
    let cmd := query in
    let size := (1 + 4 + String.length cmd + 1)%nat in
    let m := allocate_message size in
    let m := set_kind m (chr "Q") in
    let d := data m in
    let d := pgvictoria_write_byte d 0 (chr "Q") in
    let d := pgvictoria_write_int32 d 1 (Z.of_nat size - 1) in
    let d := memcpy d 5 (bytes_of_string cmd) (String.length cmd) in
    Some (MESSAGE_STATUS_OK, set_data m d)
  else None.

(** [pgvictoria_send_copy_data]: the status, and the message that is handed
    to [pgvictoria_write_message], whose status is [write_status]. *)
Definition pgvictoria_send_copy_data (write_status : message_status)
    (buffer : list byte) (nbytes : nat) : Z * message :=
  let size := (1 + 4 + nbytes)%nat in
  let msg := allocate_message size in
  let msg := set_kind msg (chr "d") in
  let d := data msg in
  let d := pgvictoria_write_byte d 0 (chr "d") in
  let d := pgvictoria_write_int32 d 1 (Z.of_nat size - 1) in
  let d := memcpy d 5 buffer nbytes in
  let msg := set_data msg d in
  match write_status with
  | MESSAGE_STATUS_OK => (0, msg)
  | _ => (1, msg)
  end.

(** ** Frames in the accumulator *)

(** [size_t] arithmetic: an [int32_t] added to an offset is converted to
    [size_t] first, so the sum wraps at 64 bits. *)
Definition size_t_add (a b : Z) : Z := wrap 64 (a + b).

(** [data + offset] for a [size_t] offset. *)
Definition ptr (data : list byte) (offset : Z) : list byte :=
  at_offset data (Z.to_nat offset).

(** Offsets [offset], ..., [offset + n - 1]. *)
Definition span (offset : Z) (n : nat) : list Z :=
  map (fun k => offset + Z.of_nat k) (seq 0 n).

(** Modelled from the spec: [pgvictoria_extract_message_offset] of utils.c
    (declared in utils.h: "Extract a message based on an offset ... return
    the next offset").  The frame at [offset] is the tag byte, the big-endian
    length at [offset + 1] and the [1 + length] bytes of the whole frame; the
    next offset is [offset + 1 + length] (section 4.5). *)
Definition pgvictoria_extract_message_offset (offset : Z) (data : list byte)
  : Z * message :=
  let type := pgvictoria_read_byte (ptr data offset) in
  let m_length := pgvictoria_read_int32 (ptr data (offset + 1)) in
  (size_t_add offset (1 + m_length),
   mkMessage type (1 + m_length)
             (firstn (Z.to_nat (1 + m_length)) (ptr data offset))).

(** Offsets of [data] that [pgvictoria_extract_message_offset] reads. *)
Definition extract_message_offset_reads (offset : Z) (data : list byte) : list Z :=
  let m_length := pgvictoria_read_int32 (ptr data (offset + 1)) in
  offset :: span (offset + 1) 4 ++ span offset (Z.to_nat (1 + m_length)).

(** [pgvictoria_has_message], with the offsets of [data] it reads.  The
    first component is [None] when the loop is still running after [fuel]
    frames.  [pgvictoria_log_error_response_message] reads the extracted copy
    only and leaves no trace here. *)
Fixpoint has_message_scan (fuel : nat) (type : byte) (data : list byte)
    (data_size offset : Z) : option bool * list Z :=
  match fuel with
  | O => (None, [])
  | S fuel' =>
      if offset <? data_size then
        let t := pgvictoria_read_byte (ptr data offset) in
        if type =? t then
          if type =? chr "E" then
            (Some true, offset :: extract_message_offset_reads offset data)
          else
            (Some true, [offset])
        else
          let offset1 := size_t_add offset 1 in
          let offset2 := size_t_add offset1 (pgvictoria_read_int32 (ptr data offset1)) in
          let '(r, reads) := has_message_scan fuel' type data data_size offset2 in
          (r, offset :: span offset1 4 ++ reads)
      else
        (Some false, [])
  end.

(** A run of the loop that ends visits pairwise different offsets below
    [data_size], so [data_size + 1] rounds are enough for every run that
    ends. *)
Definition has_message_traced (type : byte) (data : list byte) (data_size : Z)
  : option bool * list Z :=
  has_message_scan (S (Z.to_nat data_size)) type data data_size 0.

Definition pgvictoria_has_message (type : byte) (data : list byte) (data_size : Z)
  : option bool :=
  fst (has_message_traced type data data_size).

(** Modelled from the spec: [pgvictoria_extract_message_from_data] of utils.c
    (declared in utils.h: "Extract a message based on a type ... return 0
    upon success, otherwise 1").  It walks the frames as
    [pgvictoria_has_message] does and copies the first frame of the given
    type.  [Some None] is status 1; [None] is a walk that does not end. *)
Fixpoint extract_message_from_data_scan (fuel : nat) (type : byte)
    (data : list byte) (data_size offset : Z) : option (option message) :=
  match fuel with
  | O => None
  | S fuel' =>
      if offset <? data_size then
        let t := pgvictoria_read_byte (ptr data offset) in
        if type =? t then
          Some (Some (snd (pgvictoria_extract_message_offset offset data)))
        else
          let offset1 := size_t_add offset 1 in
          let offset2 := size_t_add offset1 (pgvictoria_read_int32 (ptr data offset1)) in
          extract_message_from_data_scan fuel' type data data_size offset2
      else
        Some None
  end.

Definition pgvictoria_extract_message_from_data (type : byte) (data : list byte)
    (data_size : Z) : option (option message) :=
  extract_message_from_data_scan (S (Z.to_nat data_size)) type data data_size 0.

(** ** Query responses *)

(** [struct tuple] of message.h: one cell per column; a cell is [NULL]
    ([None]) or a buffer holding the copied value bytes (and a terminating
    NUL behind them).  The [next] link is the tail of the list of tuples. *)
Record tuple : Type := mkTuple {
  tuple_data : list (option (list byte))
}.

(** Limits of pgvictoria.h. *)
Definition MAX_NUMBER_OF_COLUMNS : nat := 8.
Definition MISC_LENGTH : nat := 128.

(** [struct query_response] of message.h.  Its names table has
    [MAX_NUMBER_OF_COLUMNS] rows of [MISC_LENGTH] characters, zeroed by the
    [memset] of [pgvictoria_query_execute]; [names] lists the rows that a
    column name was copied to, in column order (section 3: "ordered list of
    column name strings"). *)
Record query_response : Type := mkQueryResponse {
  names : list string;
  number_of_columns : Z;
  tuples : list tuple;
  is_command_complete : bool
}.

(** The body of the [for] loop of [create_D_tuple], for the columns that are
    left; [offset] is the loop's [int offset]. *)
Fixpoint D_columns (columns : nat) (data : list byte) (offset : Z)
  : list (option (list byte)) :=
  match columns with
  | O => []
  | S columns' =>
      let length := pgvictoria_read_int32 (ptr data offset) in
      let offset := offset + 4 in
      if length >? 0 then
        Some (firstn (Z.to_nat length) (ptr data offset))
          :: D_columns columns' data (offset + length)
      else
        None :: D_columns columns' data offset
  end.

(** [create_D_tuple] *)
Definition create_D_tuple (number_of_columns : Z) (msg : message) : tuple :=
  mkTuple (D_columns (Z.to_nat number_of_columns) (data msg) 7).

(** [create_C_tuple] *)
Definition create_C_tuple (msg : message) : tuple :=
  let length := pgvictoria_read_int32 (ptr (data msg) 1) in
  let length := length - 5 in
  if length >? 0 then
    mkTuple [Some (firstn (Z.to_nat length) (ptr (data msg) 5))]
  else
    mkTuple [None].

(** [get_number_of_columns] *)
Definition get_number_of_columns (msg : message) : Z :=
  if kind msg =? chr "T" then pgvictoria_read_int16 (ptr (data msg) 5) else 0.

(** The [while (current < index)] loop of [get_column_name]: the offset of
    the name that is [skip] columns further. *)
Fixpoint column_offset (skip : nat) (data : list byte) (offset : Z) : Z :=
  match skip with
  | O => offset
  | S skip' =>
      let tmp := pgvictoria_read_string (ptr data offset) in
      column_offset skip' data
        (offset + (Z.of_nat (List.length tmp) + 1) + 4 + 2 + 4 + 2 + 4 + 2)
  end.

(** [get_column_name]; [None] is status 1. *)
Definition get_column_name (msg : message) (index : Z) : option (list byte) :=
  if kind msg =? chr "T" then
    let cols := pgvictoria_read_int16 (ptr (data msg) 5) in
    if index <? cols then
      let offset := column_offset (Z.to_nat index) (data msg) 7 in
      Some (pgvictoria_read_string (ptr (data msg) offset))
    else None
  else None.

(** What the [for] loop over the columns of the RowDescription in
    [pgvictoria_query_execute] comes to: the rows of the names table, the
    [goto error] behind a failing [get_column_name], or a [memcpy] that does
    not stay in its row. *)
Inductive names_result : Type :=
| Names (rows : list string)
| NamesError
| NamesOverrun.

(** The loop itself.  [memcpy(&r->names[i][0], name, strlen(name))] copies
    the name without its terminator.  For [i] below [MAX_NUMBER_OF_COLUMNS]
    and a name of less than [MISC_LENGTH] bytes the zeroed row [i] then holds
    the name.  A [memcpy] of no bytes changes nothing.  Every other [memcpy]
    is [NamesOverrun]: a name of [MISC_LENGTH] bytes leaves its row without a
    terminator, a longer name runs into what follows the row, and a row from
    [MAX_NUMBER_OF_COLUMNS] on lies behind the table, in the other fields of
    the response and behind the response. *)
Fixpoint column_names (rmsg : message) (todo : nat) (i : Z) : names_result :=
  match todo with
  | O => Names []
  | S todo' =>
      match get_column_name rmsg i with
      | None => NamesError
      | Some name =>
          if (i <? Z.of_nat MAX_NUMBER_OF_COLUMNS)
             && (List.length name <? MISC_LENGTH)%nat
          then
            match column_names rmsg todo' (i + 1) with
            | Names rest => Names (string_of_bytes name :: rest)
            | r => r
            end
          else if (List.length name =? 0)%nat then
            column_names rmsg todo' (i + 1)
          else NamesOverrun
      end
  end.

(** The [while (offset < data_size)] loop over the frames in
    [pgvictoria_query_execute]: every DataRow frame becomes a tuple that is
    linked behind the last one.  [None]: still running after [fuel] frames. *)
Fixpoint collect_tuples (fuel : nat) (cols : Z) (data : list byte)
    (data_size offset : Z) (acc : list tuple) : option (list tuple) :=
  match fuel with
  | O => None
  | S fuel' =>
      if offset <? data_size then
        let '(offset', msg) := pgvictoria_extract_message_offset offset data in
        if kind msg =? chr "D" then
          collect_tuples fuel' cols data data_size offset'
                         (acc ++ [create_D_tuple cols msg])
        else
          collect_tuples fuel' cols data data_size offset' acc
      else
        Some acc
  end.

(** What a call of a C function comes to: it returns, it does not end, or
    it writes to memory that is not its own. *)
Inductive outcome (A : Type) : Type :=
| Returns (status : Z) (result : option A)
| Diverges
| Overruns.
Arguments Returns {A} status result.
Arguments Diverges {A}.
Arguments Overruns {A}.

(** The part of [pgvictoria_query_execute] behind the read loop: the
    classification of the accumulated [data]. *)
Definition classify_response (data : list byte) (data_size : Z)
  : outcome query_response :=
  match pgvictoria_has_message (chr "E") data data_size with
  | None => Diverges
  | Some true => Returns 1 None
  | Some false =>
      match pgvictoria_has_message (chr "T") data data_size with
      | None => Diverges
      | Some true =>
          match pgvictoria_extract_message_from_data (chr "T") data data_size with
          | None => Diverges
          | Some None => Returns 1 None
          | Some (Some rmsg) =>
              let cols := get_number_of_columns rmsg in
              match column_names rmsg (Z.to_nat cols) 0 with
              | NamesError => Returns 1 None
              | NamesOverrun => Overruns
              | Names ns =>
                  match collect_tuples (S (Z.to_nat data_size)) cols data data_size 0 [] with
                  | None => Diverges
                  | Some ts => Returns 0 (Some (mkQueryResponse ns cols ts false))
                  end
              end
          end
      | Some false =>
          match pgvictoria_has_message (chr "C") data data_size with
          | None => Diverges
          | Some true =>
              match pgvictoria_extract_message_from_data (chr "C") data data_size with
              | None => Diverges
              | Some None => Returns 1 None
              | Some (Some rmsg) =>
                  Returns 0 (Some (mkQueryResponse [] 1 [create_C_tuple rmsg] true))
              end
          | Some false => Returns 1 None
          end
      end
  end.

(** What one call of [pgvictoria_read_block_message] comes to. *)
Inductive read_result : Type :=
| ReadOk (reply : list byte)
| ReadZero
| ReadError.

(** The read loop of [pgvictoria_query_execute] over the successive results
    of [pgvictoria_read_block_message]; the accumulator grows by every reply
    ([pgvictoria_memory_dynamic_append]).  When the peer sends nothing more
    the call blocks for good. *)
Fixpoint read_loop (replies : list read_result) (data : list byte)
  : outcome (list byte) :=
  match replies with
  | [] => Diverges
  | ReadOk reply :: rest =>
      let data := data ++ reply in
      match pgvictoria_has_message (chr "Z") data (Z.of_nat (List.length data)) with
      | None => Diverges
      | Some true => Returns 0 (Some data)
      | Some false => read_loop rest data
      end
  | ReadZero :: rest => read_loop rest data
  | ReadError :: rest => Returns 1 None
  end.

(** [pgvictoria_query_execute]: [write_status] is the status of
    [pgvictoria_write_message] for the request, [replies] the results of the
    reads that follow. *)
Definition pgvictoria_query_execute (write_status : message_status)
    (replies : list read_result) : outcome query_response :=
  match write_status with
  | MESSAGE_STATUS_OK =>
      match read_loop replies [] with
      | Diverges => Diverges
      | Overruns => Overruns
      | Returns _ None => Returns 1 None
      | Returns _ (Some data) => classify_response data (Z.of_nat (List.length data))
      end
  | _ => Returns 1 None
  end.

(** [pgvictoria_query_response_get_data] hands out a pointer: [NULL]
    ([Fetched None]) or a cell of the first tuple, which may be [NULL]
    itself.  [OutOfBounds]: the read leaves the first tuple's table or there
    is no first tuple. *)
Inductive fetched : Type :=
| Fetched (value : option (list byte))
| OutOfBounds.

Definition pgvictoria_query_response_get_data (response : option query_response)
    (column : Z) : fetched :=
  match response with
  | None => Fetched None
  | Some response =>
      if column >? number_of_columns response then
        Fetched None
      else
        match tuples response with
        | [] => OutOfBounds
        | t :: _ =>
            if (0 <=? column) && (column <? Z.of_nat (List.length (tuple_data t))) then
              Fetched (nth (Z.to_nat column) (tuple_data t) None)
            else
              OutOfBounds
        end
  end.

(** ** Transport *)

Definition DEFAULT_BUFFER_SIZE : Z := 131072.

(** What one call of [write] comes to: the number of bytes the socket took,
    or -1 with [errno] being [EAGAIN] or something else. *)
Inductive write_result : Type :=
| Wrote (numbytes : nat)
| WriteAgain
| WriteFailed.

(** What a transfer comes to: its status and the bytes that went over the
    wire, or [Pending] when the socket answers no more. *)
Inductive transfer : Type :=
| Done (status : message_status) (wire : list byte)
| Pending (wire : list byte).

(** The [do ... while (keep_write)] loop of [write_message] over the
    successive results of [write]. *)
Fixpoint write_loop (script : list write_result) (msg : message)
    (offset totalbytes remaining : Z) (wire : list byte) : transfer :=
  match script with
  | [] => Pending wire
  | result :: script' =>
      let write_size := Z.min remaining DEFAULT_BUFFER_SIZE in
      let offered := firstn (Z.to_nat write_size) (ptr (data msg) offset) in
      match result with
      | Wrote n =>
          let numbytes := Z.of_nat n in
          let wire := wire ++ firstn n offered in
          let totalbytes := totalbytes + numbytes in
          if totalbytes =? length msg then
            Done MESSAGE_STATUS_OK wire
          else
            write_loop script' msg (signed 32 (offset + numbytes)) totalbytes
                       (remaining - numbytes) wire
      | WriteAgain =>
          if totalbytes =? length msg then
            Done MESSAGE_STATUS_OK wire
          else
            write_loop script' msg offset totalbytes remaining wire
      | WriteFailed =>
          if totalbytes =? length msg then
            Done MESSAGE_STATUS_OK wire
          else
            Done MESSAGE_STATUS_ERROR wire
      end
  end.

(** [write_message] *)
Definition write_message (script : list write_result) (msg : message) : transfer :=
  write_loop script msg 0 0 (length msg) [].

(** What [SSL_get_error] tells about a result of [SSL_write] that is not
    positive: one of the conditions that the [switch] retries on, one of
    [SSL_ERROR_SYSCALL] and [SSL_ERROR_SSL], or a code that the [switch]
    does not list. *)
Inductive ssl_error : Type :=
| SSL_RETRY
| SSL_FATAL
| SSL_UNLISTED.

Record ssl_write_result : Type := mkSslWrite {
  ssl_numbytes : Z;
  ssl_err : ssl_error
}.

(** The [do ... while (keep_write)] loop of [ssl_write_message].  The part of
    the message that [SSL_write] took is the first [numbytes] bytes of the
    [remaining] ones that were offered. *)
Fixpoint ssl_write_loop (script : list ssl_write_result) (msg : message)
    (keep_write : bool) (offset totalbytes remaining : Z) (wire : list byte)
  : transfer :=
  match script with
  | [] => Pending wire
  | result :: script' =>
      let numbytes := ssl_numbytes result in
      let offered := firstn (Z.to_nat remaining) (ptr (data msg) offset) in
      if numbytes =? length msg then
        Done MESSAGE_STATUS_OK (wire ++ firstn (Z.to_nat numbytes) offered)
      else if numbytes >? 0 then
        let wire := wire ++ firstn (Z.to_nat numbytes) offered in
        let totalbytes := totalbytes + numbytes in
        if totalbytes =? length msg then
          Done MESSAGE_STATUS_OK wire
        else
          ssl_write_loop script' msg true (signed 32 (offset + numbytes))
                         totalbytes (remaining - numbytes) wire
      else
        let keep_write :=
          match ssl_err result with
          | SSL_RETRY => true
          | SSL_FATAL => false
          | SSL_UNLISTED => keep_write
          end in
        if keep_write then
          ssl_write_loop script' msg keep_write offset totalbytes remaining wire
        else
          Done MESSAGE_STATUS_ERROR wire
  end.

(** [ssl_write_message] *)
Definition ssl_write_message (script : list ssl_write_result) (msg : message)
  : transfer :=
  ssl_write_loop script msg false 0 0 (length msg) [].

(** The two ways to the peer: the socket, or TLS over it. *)
Inductive transport : Type :=
| Plain (script : list write_result)
| Tls (script : list ssl_write_result).

(** [pgvictoria_write_message]; the transport is TLS when [ssl] is not
    null. *)
Definition pgvictoria_write_message (t : transport) (msg : message) : transfer :=
  match t with
  | Plain script => write_message script msg
  | Tls script => ssl_write_message script msg
  end.

(** [pgvictoria_write_empty] *)
Definition pgvictoria_write_empty (t : transport) : transfer :=
  let zero := repeat 0 1%nat in
  let msg := mkMessage 0 1 zero in
  match t with
  | Plain script => write_message script msg
  | Tls script => ssl_write_message script msg
  end.

(** [pgvictoria_write_notice] *)
Definition pgvictoria_write_notice (t : transport) : transfer :=
  let notice := repeat 0 1%nat in
  let notice := store notice 0 [chr "N"] in
  let msg := mkMessage (chr "N") 1 notice in
  match t with
  | Plain script => write_message script msg
  | Tls script => ssl_write_message script msg
  end.

(** [pgvictoria_write_tls] *)
Definition pgvictoria_write_tls (t : transport) : transfer :=
  let tls := repeat 0 1%nat in
  let tls := store tls 0 [chr "S"] in
  let msg := mkMessage (chr "S") 1 tls in
  match t with
  | Plain script => write_message script msg
  | Tls script => ssl_write_message script msg
  end.

(** [pgvictoria_write_terminate] *)
Definition pgvictoria_write_terminate (t : transport) : transfer :=
  let terminate := repeat 0 5%nat in
  let terminate := pgvictoria_write_byte terminate 0 (chr "X") in
  let terminate := pgvictoria_write_int32 terminate 1 4 in
  let msg := mkMessage (chr "X") 5 terminate in
  match t with
  | Plain script => write_message script msg
  | Tls script => ssl_write_message script msg
  end.

(** [pgvictoria_write_connection_refused] *)
Definition pgvictoria_write_connection_refused (t : transport) : transfer :=
  let size := 46 in
  let connection_refused := repeat 0 (Z.to_nat size) in
  let connection_refused := pgvictoria_write_byte connection_refused 0 (chr "E") in
  let connection_refused := pgvictoria_write_int32 connection_refused 1 (size - 1) in
  let connection_refused := pgvictoria_write_string connection_refused 5 "SFATAL" in
  let connection_refused := pgvictoria_write_string connection_refused 12 "VFATAL" in
  let connection_refused := pgvictoria_write_string connection_refused 19 "C53300" in
  let connection_refused :=
    pgvictoria_write_string connection_refused 26 "Mconnection refused" in
  let msg := mkMessage (chr "E") size connection_refused in
  match t with
  | Plain script => write_message script msg
  | Tls script => ssl_write_message script msg
  end.

(** [pgvictoria_write_connection_refused_old] *)
Definition pgvictoria_write_connection_refused_old (t : transport) : transfer :=
  let size := 20 in
  let connection_refused := repeat 0 (Z.to_nat size) in
  let connection_refused := pgvictoria_write_byte connection_refused 0 (chr "E") in
  let connection_refused :=
    pgvictoria_write_string connection_refused 1 "connection refused" in
  let msg := mkMessage (chr "E") size connection_refused in
  match t with
  | Plain script => write_message script msg
  | Tls script => ssl_write_message script msg
  end.

(** [pgvictoria_write_auth_scram256] *)
Definition pgvictoria_write_auth_scram256 (t : transport) : transfer :=
  let scram := repeat 0 24%nat in
  let scram := store scram 0 [chr "R"] in
  let scram := pgvictoria_write_int32 scram 1 23 in
  let scram := pgvictoria_write_int32 scram 5 10 in
  let scram := pgvictoria_write_string scram 9 "SCRAM-SHA-256" in
  let msg := mkMessage (chr "R") 24 scram in
  match t with
  | Plain script => write_message script msg
  | Tls script => ssl_write_message script msg
  end.

(** [pgvictoria_write_auth_success] *)
Definition pgvictoria_write_auth_success (t : transport) : transfer :=
  let success := repeat 0 9%nat in
  let success := store success 0 [chr "R"] in
  let success := pgvictoria_write_int32 success 1 8 in
  let success := pgvictoria_write_int32 success 5 0 in
  let msg := mkMessage (chr "R") 9 success in
  match t with
  | Plain script => write_message script msg
  | Tls script => ssl_write_message script msg
  end.

(** What one call of [read] comes to: the bytes that arrived, none at the
    end of the stream, or -1 with [errno], of which the loop asks whether it
    is [EAGAIN] or [EWOULDBLOCK]. *)
Inductive read_call : Type :=
| Got (bytes : list byte)
| ReadFailed (again : bool).

(** The [do ... while (keep_read)] loop of [read_message] over the
    successive results of [read]; [errno_again] tells whether [errno] is
    [EAGAIN] or [EWOULDBLOCK].  The result is the status and [*msg], or
    [None] when the socket answers no more.  The kind of the message is the
    first byte as a [signed char].  The timeout is a matter of the socket
    options only. *)
Fixpoint read_message (script : list read_call) (block : bool) (errno_again : bool)
  : option (message_status * option message) :=
  match script with
  | [] => None
  | Got bytes :: script' =>
      let numbytes := Z.of_nat (List.length bytes) in
      if numbytes >? 0 then
        Some (MESSAGE_STATUS_OK,
              Some (mkMessage (signed 8 (pgvictoria_read_byte bytes)) numbytes bytes))
      else
        if errno_again && block then read_message script' block false
        else Some (MESSAGE_STATUS_ZERO, None)
  | ReadFailed again :: script' =>
      if again && block then read_message script' block false
      else Some (MESSAGE_STATUS_ERROR, None)
  end.

(** [pgvictoria_read_block_message] without TLS. *)
Definition pgvictoria_read_block_message (script : list read_call)
    (errno_again : bool) : option (message_status * option message) :=
  read_message script true errno_again.

End Message.

(* ================================================================== *)
(** * Symmetric crypto (aes.c)                                         *)
(* ================================================================== *)

Module Aes.
Import Codec.

Definition ENC_BUF_SIZE : Z := 1024 * 1024.

Definition ENCRYPTION_NONE : Z := 0.
Definition ENCRYPTION_AES_256_CBC : Z := 1.
Definition ENCRYPTION_AES_192_CBC : Z := 2.
Definition ENCRYPTION_AES_128_CBC : Z := 3.
Definition ENCRYPTION_AES_256_CTR : Z := 4.
Definition ENCRYPTION_AES_192_CTR : Z := 5.
Definition ENCRYPTION_AES_128_CTR : Z := 6.

(** OpenSSL's constants for the key and IV arrays. *)
Definition EVP_MAX_KEY_LENGTH : nat := 64.
Definition EVP_MAX_IV_LENGTH : nat := 16.

(** The part of OpenSSL's EVP interface that aes.c calls.  A cipher context
    is a value; a call that returns 0 is [None].  [EVP_BytesToKey] stands for
    the call with [EVP_sha1], no salt and one round. *)
Class OpenSSL : Type := {
  EVP_CIPHER : Type;
  EVP_aes_256_cbc : EVP_CIPHER;
  EVP_aes_192_cbc : EVP_CIPHER;
  EVP_aes_128_cbc : EVP_CIPHER;
  EVP_aes_256_ctr : EVP_CIPHER;
  EVP_aes_192_ctr : EVP_CIPHER;
  EVP_aes_128_ctr : EVP_CIPHER;
  EVP_CIPHER_block_size : EVP_CIPHER -> Z;
  EVP_CIPHER_CTX : Type;
  EVP_CIPHER_CTX_new : option EVP_CIPHER_CTX;
  EVP_BytesToKey : EVP_CIPHER -> string -> option (list byte * list byte);
  EVP_CipherInit_ex :
    EVP_CIPHER_CTX -> EVP_CIPHER -> list byte -> list byte -> Z -> option EVP_CIPHER_CTX;
  EVP_CipherUpdate :
    EVP_CIPHER_CTX -> list byte -> option (EVP_CIPHER_CTX * list byte);
  EVP_CipherFinal_ex : EVP_CIPHER_CTX -> option (list byte)
}.

(** What the process finds around it: the master key of security.c
    ([pgvictoria_get_master_key]; [None] is a non-zero status), whether a path
    can be opened for writing, and what a fresh [malloc] block holds. *)
Class Host : Type := {
  master_key : option string;
  can_write : string -> bool;
  uninitialised : nat -> byte
}.

Section WithOpenSSL.
Context {ssl : OpenSSL} {host : Host}.

(** [EVP_DecryptInit_ex] is [EVP_CipherInit_ex] with [enc = 0]. *)
Definition EVP_DecryptInit_ex (ctx : EVP_CIPHER_CTX) (c : EVP_CIPHER)
    (key iv : list byte) : option EVP_CIPHER_CTX :=
  EVP_CipherInit_ex ctx c key iv 0.

(** [get_cipher] *)
Definition get_cipher (mode : Z) : EVP_CIPHER :=
  if mode =? ENCRYPTION_AES_256_CBC then EVP_aes_256_cbc
  else if mode =? ENCRYPTION_AES_192_CBC then EVP_aes_192_cbc
  else if mode =? ENCRYPTION_AES_128_CBC then EVP_aes_128_cbc
  else if mode =? ENCRYPTION_AES_256_CTR then EVP_aes_256_ctr
  else if mode =? ENCRYPTION_AES_192_CTR then EVP_aes_192_ctr
  else if mode =? ENCRYPTION_AES_128_CTR then EVP_aes_128_ctr
  else EVP_aes_256_cbc.

(** [get_cipher_buffer] *)
Definition get_cipher_buffer (mode : Z) : EVP_CIPHER :=
  if mode =? ENCRYPTION_AES_256_CBC then EVP_aes_256_cbc
  else if mode =? ENCRYPTION_AES_192_CBC then EVP_aes_192_cbc
  else if mode =? ENCRYPTION_AES_128_CBC then EVP_aes_128_cbc
  else EVP_aes_256_cbc.

(** [derive_key_iv], on the zeroed [key] and [iv] arrays of its callers;
    [None] is status 1. *)
Definition derive_key_iv (password : string) (mode : Z)
  : option (list byte * list byte) :=
  match EVP_BytesToKey (get_cipher mode) password with
  | None => None
  | Some (k, v) =>
      Some (store (repeat 0 EVP_MAX_KEY_LENGTH) 0 k,
            store (repeat 0 EVP_MAX_IV_LENGTH) 0 v)
  end.

(** A conversion of a size to [int]. *)
Definition to_int (v : Z) : Z := signed 32 v.

(** [aes_decrypt]; the result is the zeroed [pt] buffer with the plain text
    in front.  [None] is status 1. *)
Definition aes_decrypt (ciphertext : list byte) (ciphertext_length : Z)
    (key iv : list byte) (mode : Z) : option (list byte) :=
  let cipher_fp := get_cipher mode in
  match EVP_CIPHER_CTX_new with
  | None => None
  | Some ctx =>
      match EVP_DecryptInit_ex ctx cipher_fp key iv with
      | None => None
      | Some ctx =>
          let size := ciphertext_length + EVP_CIPHER_block_size cipher_fp in
          let pt := repeat 0 (Z.to_nat size) in
          match EVP_CipherUpdate ctx (firstn (Z.to_nat ciphertext_length) ciphertext) with
          | None => None
          | Some (ctx, out) =>
              let length := List.length out in
              let pt := store pt 0 out in
              match EVP_CipherFinal_ex ctx with
              | None => None
              | Some fin =>
                  let pt := store pt length fin in
                  let plaintext_length := (length + List.length fin)%nat in
                  Some (store pt plaintext_length [0])
              end
          end
      end
  end.

(** [pgvictoria_decrypt] *)
Definition pgvictoria_decrypt (ciphertext : list byte) (ciphertext_length : Z)
    (password : string) (mode : Z) : option (list byte) :=
  match derive_key_iv password mode with
  | None => None
  | Some (key, iv) => aes_decrypt ciphertext ciphertext_length key iv mode
  end.

(** [EVP_EncryptInit_ex] is [EVP_CipherInit_ex] with [enc = 1]. *)
Definition EVP_EncryptInit_ex (ctx : EVP_CIPHER_CTX) (c : EVP_CIPHER)
    (key iv : list byte) : option EVP_CIPHER_CTX :=
  EVP_CipherInit_ex ctx c key iv 1.

(** [aes_encrypt]; the result is the zeroed [ct] buffer with the cipher text
    in front, and [ct_length].  [None] is status 1. *)
Definition aes_encrypt (plaintext : string) (key iv : list byte) (mode : Z)
  : option (list byte * Z) :=
  let cipher_fp := get_cipher mode in
  match EVP_CIPHER_CTX_new with
  | None => None
  | Some ctx =>
      match EVP_EncryptInit_ex ctx cipher_fp key iv with
      | None => None
      | Some ctx =>
          let size := Z.of_nat (String.length plaintext)
                      + EVP_CIPHER_block_size cipher_fp in
          let ct := repeat 0 (Z.to_nat size) in
          match EVP_CipherUpdate ctx (bytes_of_string plaintext) with
          | None => None
          | Some (ctx, out) =>
              let length := List.length out in
              let ct := store ct 0 out in
              match EVP_CipherFinal_ex ctx with
              | None => None
              | Some fin =>
                  let ct := store ct length fin in
                  let ct_length := (length + List.length fin)%nat in
                  Some (ct, Z.of_nat ct_length)
              end
          end
      end
  end.

(** [pgvictoria_encrypt] *)
Definition pgvictoria_encrypt (plaintext password : string) (mode : Z)
  : option (list byte * Z) :=
  match derive_key_iv password mode with
  | None => None
  | Some (key, iv) => aes_encrypt plaintext key iv mode
  end.

(** A fresh [malloc] block. *)
Definition malloc (size : nat) : list byte := map uninitialised (seq 0 size).

(** [encrypt_decrypt_buffer]; [Some (res_buffer, res_size)] is status 0 and
    [None] is status 1.  [res_buffer] is the whole block of
    [outbuf_size + 1] bytes.  The two [int] results that OpenSSL stores
    through [(int* )&outl] and [(int* )&f_len] are read back as the [size_t]
    they sit in, as on a little-endian host. *)
Definition encrypt_decrypt_buffer (origin_buffer : list byte) (origin_size : Z)
    (enc : Z) (mode : Z) : option (list byte * Z) :=
  let cipher_fp := get_cipher_buffer mode in
  let cipher_block_size := EVP_CIPHER_block_size cipher_fp in
  let outbuf_size :=
    if enc =? 1 then origin_size + cipher_block_size else origin_size in
  let res_buffer := malloc (Z.to_nat (outbuf_size + 1)) in
  match master_key with
  | None => None
  | Some master_key =>
      match derive_key_iv master_key mode with
      | None => None
      | Some (key, iv) =>
          match EVP_CIPHER_CTX_new with
          | None => None
          | Some ctx =>
              match EVP_CipherInit_ex ctx cipher_fp key iv enc with
              | None => None
              | Some ctx =>
                  match EVP_CipherUpdate ctx
                          (firstn (Z.to_nat (to_int origin_size)) origin_buffer) with
                  | None => None
                  | Some (ctx, out) =>
                      let outl := Z.of_nat (List.length out) in
                      let res_buffer := store res_buffer 0 out in
                      let res_size := outl in
                      match EVP_CipherFinal_ex ctx with
                      | None => None
                      | Some fin =>
                          let f_len := Z.of_nat (List.length fin) in
                          let res_buffer := store res_buffer (Z.to_nat outl) fin in
                          let res_size := res_size + f_len in
                          let res_buffer :=
                            if enc =? 0
                            then store res_buffer (Z.to_nat res_size) [0]
                            else res_buffer in
                          Some (res_buffer, res_size)
                      end
                  end
              end
          end
      end
  end.

(** [pgvictoria_encrypt_buffer] *)
Definition pgvictoria_encrypt_buffer (origin_buffer : list byte) (origin_size : Z)
    (mode : Z) : option (list byte * Z) :=
  encrypt_decrypt_buffer origin_buffer origin_size 1 mode.

(** [pgvictoria_decrypt_buffer] *)
Definition pgvictoria_decrypt_buffer (origin_buffer : list byte) (origin_size : Z)
    (mode : Z) : option (list byte * Z) :=
  encrypt_decrypt_buffer origin_buffer origin_size 0 mode.

(** ** Files *)

(** The files by path. *)
Definition filesystem : Type := string -> option (list byte).

Definition fs_write (fs : filesystem) (path : string) (content : list byte)
  : filesystem :=
  fun p => if String.eqb p path then Some content else fs p.

Definition fs_remove (fs : filesystem) (path : string) : filesystem :=
  fun p => if String.eqb p path then None else fs p.

(** Modelled from the spec: [pgvictoria_exists] of utils.c ("File/directory
    exists"). *)
Definition pgvictoria_exists (fs : filesystem) (f : string) : bool :=
  match fs f with Some _ => true | None => false end.

(** Modelled from the spec: [pgvictoria_delete_file] of utils.c ("Delete a
    file"); section 4.6 has the source file deleted by it. *)
Definition pgvictoria_delete_file (fs : filesystem) (file : string) : filesystem :=
  fs_remove fs file.

(** The characters before the last ['.'], if there is one. *)
Fixpoint before_last_dot (l : list ascii) : option (list ascii) :=
  match l with
  | [] => None
  | c :: rest =>
      match before_last_dot rest with
      | Some p => Some (c :: p)
      | None => if Ascii.eqb c "." then Some [] else None
      end
  end.

(** Modelled from the spec: [pgvictoria_strip_extension] of utils.c ("Strip
    the extension of a file"); section 4.6: "decryption strips one trailing
    extension".  [None] would be a non-zero status. *)
Definition pgvictoria_strip_extension (s : string) : option string :=
  match before_last_dot (list_ascii_of_string s) with
  | Some p => Some (string_of_list_ascii p)
  | None => Some s
  end.

(** The first [n] elements, and the rest, for a count held in a [Z]. *)
Fixpoint take {A : Type} (n : Z) (l : list A) : list A :=
  match l with
  | [] => []
  | x :: rest => if n <=? 0 then [] else x :: take (n - 1) rest
  end.

Fixpoint drop {A : Type} (n : Z) (l : list A) : list A :=
  match l with
  | [] => []
  | x :: rest => if n <=? 0 then l else drop (n - 1) rest
  end.

(** The [fread] loop of [encrypt_file]: [input] is what is left of the source
    and [output] what was written so far.  The result is the context behind
    the last block, or [None] when [EVP_CipherUpdate] failed, and the output.
    Each round takes at least one byte, so [fuel] above the input size is
    never used up. *)
Fixpoint cipher_blocks (fuel : nat) (ctx : EVP_CIPHER_CTX)
    (input output : list byte) : option EVP_CIPHER_CTX * list byte :=
  match fuel with
  | O => (None, output)
  | S fuel' =>
      let inbuf := take ENC_BUF_SIZE input in
      match inbuf with
      | [] => (Some ctx, output)
      | _ :: _ =>
          match EVP_CipherUpdate ctx inbuf with
          | None => (None, output)
          | Some (ctx, out) =>
              cipher_blocks fuel' ctx (drop ENC_BUF_SIZE input) (output ++ out)
          end
      end
  end.

(** [encrypt_file]: the status and the files behind the call.  [fread] and
    [fwrite] themselves do not fail here.  When [to] names the source itself
    the [fopen] for writing empties the file before the first [fread]. *)
Definition encrypt_file (fs : filesystem) (from to : string) (enc : Z)
  : Z * filesystem :=
  let cipher_fp := get_cipher ENCRYPTION_AES_256_CBC in
  match master_key with
  | None => (1, fs)
  | Some master_key =>
      match derive_key_iv master_key ENCRYPTION_AES_256_CBC with
      | None => (1, fs)
      | Some (key, iv) =>
          match EVP_CIPHER_CTX_new with
          | None => (1, fs)
          | Some ctx =>
              match fs from with
              | None => (1, fs)
              | Some content =>
                  if negb (can_write to) then (1, fs)
                  else
                    let fs := fs_write fs to [] in
                    let input := if String.eqb to from then [] else content in
                    match EVP_CipherInit_ex ctx cipher_fp key iv enc with
                    | None => (1, fs)
                    | Some ctx =>
                        match cipher_blocks (S (List.length input)) ctx input [] with
                        | (None, output) => (1, fs_write fs to output)
                        | (Some ctx, output) =>
                            match EVP_CipherFinal_ex ctx with
                            | None => (1, fs_write fs to output)
                            | Some fin => (0, fs_write fs to (output ++ fin))
                            end
                        end
                    end
              end
          end
      end
  end.

(** [pgvictoria_encrypt_file]; [to] is [None] for a null pointer. *)
Definition pgvictoria_encrypt_file (fs : filesystem) (from : string)
    (to : option string) : Z * filesystem :=
  if negb (pgvictoria_exists fs from) then (1, fs)
  else
    let to := match to with
              | Some to => to
              | None => (from ++ ".aes")%string
              end in
    let fs := snd (encrypt_file fs from to 1) in
    let fs := if pgvictoria_exists fs from
              then pgvictoria_delete_file fs from
              else fs in
    (0, fs).

(** [pgvictoria_decrypt_file]; [to] is [None] for a null pointer. *)
Definition pgvictoria_decrypt_file (fs : filesystem) (from : string)
    (to : option string) : Z * filesystem :=
  if negb (pgvictoria_exists fs from) then (1, fs)
  else
    let to := match to with
              | Some to => Some to
              | None => pgvictoria_strip_extension from
              end in
    match to with
    | None => (1, fs)
    | Some to =>
        let fs := snd (encrypt_file fs from to 0) in
        let fs := if pgvictoria_exists fs from
                  then pgvictoria_delete_file fs from
                  else fs in
        (0, fs)
    end.

(** What the buffer functions ask of a cipher [c] of OpenSSL: when a buffer
    [b] was encrypted in one update and the final call, the cipher text is at
    least as long as [b] and at most one block longer, and the same two calls
    on a context set up for decryption with the same key and IV give [b]
    back. *)
Definition evp_inverts (c : EVP_CIPHER) : Prop :=
  forall (ctx ectx ectx' : EVP_CIPHER_CTX) (key iv b out fin : list byte),
    EVP_CipherInit_ex ctx c key iv 1 = Some ectx ->
    EVP_CipherUpdate ectx b = Some (ectx', out) ->
    EVP_CipherFinal_ex ectx' = Some fin ->
    Z.of_nat (List.length b) <= Z.of_nat (List.length (out ++ fin))
      <= Z.of_nat (List.length b) + EVP_CIPHER_block_size c /\
    forall ctx0 : EVP_CIPHER_CTX,
    exists (dctx dctx' : EVP_CIPHER_CTX) (out' fin' : list byte),
      EVP_CipherInit_ex ctx0 c key iv 0 = Some dctx /\
      EVP_CipherUpdate dctx (out ++ fin) = Some (dctx', out') /\
      EVP_CipherFinal_ex dctx' = Some fin' /\
      out' ++ fin' = b.

End WithOpenSSL.

(** A stand-in for OpenSSL with one cipher for all names: every byte is
    XOR-ed with the first byte of the key, the block size is 16, the key is
    the password and the IV is empty. *)
Definition xor_byte (key : list byte) (b : byte) : byte :=
  Z.lxor b (nth 0 key 0).

Definition xor_openssl : OpenSSL := {|
  EVP_CIPHER := unit;
  EVP_aes_256_cbc := tt;
  EVP_aes_192_cbc := tt;
  EVP_aes_128_cbc := tt;
  EVP_aes_256_ctr := tt;
  EVP_aes_192_ctr := tt;
  EVP_aes_128_ctr := tt;
  EVP_CIPHER_block_size := fun _ => 16;
  EVP_CIPHER_CTX := list byte;
  EVP_CIPHER_CTX_new := Some [];
  EVP_BytesToKey := fun _ password => Some (bytes_of_string password, []);
  EVP_CipherInit_ex := fun _ _ key _ _ => Some key;
  EVP_CipherUpdate := fun key input => Some (key, map (xor_byte key) input);
  EVP_CipherFinal_ex := fun _ => Some []
|}.

(** A host with the master key [topsecret] and one without a master key. *)
Definition keyed_host : Host := {|
  master_key := Some "topsecret"%string;
  can_write := fun _ => true;
  uninitialised := fun _ => 170
|}.

(** The files of a directory that holds one file. *)
Definition one_file (path : string) (content : list byte) : filesystem :=
  fun p => if String.eqb p path then Some content else None.

Definition keyless_host : Host := {|
  master_key := None;
  can_write := fun _ => true;
  uninitialised := fun _ => 170
|}.

End Aes.

(* ================================================================== *)
(** * Configuration store (configuration.c, pgvictoria.h)              *)
(* ================================================================== *)

Module Configuration.
Import Codec.

Definition LINE_LENGTH : Z := 512.
Definition MAX_USERNAME_LENGTH : Z := 128.
Definition MAX_PASSWORD_LENGTH : Z := 1024.
Definition NUMBER_OF_SERVERS : nat := 64.
Definition NUMBER_OF_USERS : nat := 64.

(** [struct server] *)
Record server : Type := mkServer {
  server_name : string;
  server_host : string;
  server_port : Z;
  server_primary : bool;
  server_username : string;
  server_version : Z;
  server_minor_version : Z
}.

(** [struct user] *)
Record user : Type := mkUser {
  user_username : string;
  user_password : string
}.

(** [struct common_configuration] *)
Record common_configuration : Type := mkCommon {
  home_dir : string;
  log_type : Z;
  log_level : Z;
  log_path : string;
  log_mode : Z;
  log_rotation_size : Z;
  log_rotation_age : Z;
  log_line_prefix : string;
  log_lock : Z;
  servers : list server;
  users : list user;
  number_of_servers : Z;
  number_of_users : Z;
  configuration_path : string;
  users_path : string
}.

(** [struct main_configuration] *)
Record main_configuration : Type := mkMain {
  common : common_configuration;
  running : bool;
  host : string;
  authentication_timeout : Z;
  pidfile : string;
  update_process_title : Z;
  libev : string;
  backlog : Z;
  hugepage : Z;
  unix_socket_dir : string
}.

(** A zeroed slot of the server and user tables. *)
Definition no_server : server := mkServer "" "" 0 false "" 0 0.
Definition no_user : user := mkUser "" "".

(** Assignments to single fields. *)
Definition with_common (c : main_configuration) (f : common_configuration -> common_configuration)
  : main_configuration :=
  mkMain (f (common c)) (running c) (host c) (authentication_timeout c) (pidfile c)
         (update_process_title c) (libev c) (backlog c) (hugepage c) (unix_socket_dir c).

Definition set_log_level (v : Z) (c : common_configuration) : common_configuration :=
  mkCommon (home_dir c) (log_type c) v (log_path c) (log_mode c)
           (log_rotation_size c) (log_rotation_age c) (log_line_prefix c) (log_lock c)
           (servers c) (users c) (number_of_servers c) (number_of_users c)
           (configuration_path c) (users_path c).

Definition set_log_routing (path : string) (mode size age : Z) (prefix : string)
    (c : common_configuration) : common_configuration :=
  mkCommon (home_dir c) (log_type c) (log_level c) path mode size age prefix (log_lock c)
           (servers c) (users c) (number_of_servers c) (number_of_users c)
           (configuration_path c) (users_path c).

Definition set_users (us : list user) (c : common_configuration) : common_configuration :=
  mkCommon (home_dir c) (log_type c) (log_level c) (log_path c) (log_mode c)
           (log_rotation_size c) (log_rotation_age c) (log_line_prefix c) (log_lock c)
           (servers c) us (number_of_servers c) (number_of_users c)
           (configuration_path c) (users_path c).

Definition set_number_of_users (n : Z) (c : common_configuration) : common_configuration :=
  mkCommon (home_dir c) (log_type c) (log_level c) (log_path c) (log_mode c)
           (log_rotation_size c) (log_rotation_age c) (log_line_prefix c) (log_lock c)
           (servers c) (users c) (number_of_servers c) n
           (configuration_path c) (users_path c).

Definition set_authentication_timeout (v : Z) (c : main_configuration) : main_configuration :=
  mkMain (common c) (running c) (host c) v (pidfile c)
         (update_process_title c) (libev c) (backlog c) (hugepage c) (unix_socket_dir c).

Definition set_backlog (v : Z) (c : main_configuration) : main_configuration :=
  mkMain (common c) (running c) (host c) (authentication_timeout c) (pidfile c)
         (update_process_title c) (libev c) v (hugepage c) (unix_socket_dir c).

(** ** Reload *)

(** What the reload leaves in the log and does to the logger. *)
Inductive event : Type :=
| RestartRequiredInt (name : string) (existing new : Z)
| RestartRequiredString (name : string) (existing new : string)
| LogRestartTriggered
| StopLogging
| StartLogging.

(** A result together with the events of the call. *)
Definition logged (A : Type) : Type := A * list event.

Definition ret {A : Type} (a : A) : logged A := (a, []).

Definition bind {A B : Type} (m : logged A) (k : A -> logged B) : logged B :=
  let '(a, l1) := m in
  let '(b, l2) := k a in
  (b, l1 ++ l2).

Notation "x <- m ;; k" := (bind m (fun x => k))
  (at level 61, m at next level, right associativity).

(** [restart_int]: [e] and [n] are the values of the fields at the call.
    The parameters are [int], and the message prints them with [%d]: an
    [unsigned int] field of 2^31 or more is logged as the negative number
    that it converts to.  The conversion keeps apart what differs in a
    field. *)
Definition restart_int (name : string) (e n : Z) : logged Z :=
  if negb (e =? n)
  then (1, [RestartRequiredInt name (signed 32 e) (signed 32 n)])
  else ret 0.

(** [restart_string] *)
Definition restart_string (name : string) (e n : string) : logged Z :=
  if negb (String.eqb e n) then (1, [RestartRequiredString name e n]) else ret 0.

(** [copy_server] *)
Definition copy_server (dst src : server) : logged Z :=
  let changed := false in
  r <- restart_string "name" (server_name dst) (server_name src) ;;
  let changed := if r =? 0 then changed else true in
  r <- restart_string "host" (server_host dst) (server_host src) ;;
  let changed := if r =? 0 then changed else true in
  r <- restart_int "port" (server_port dst) (server_port src) ;;
  let changed := if r =? 0 then changed else true in
  r <- restart_string "username" (server_username dst) (server_username src) ;;
  let changed := if r =? 0 then changed else true in
  ret (if changed then 1 else 0).

(** [copy_user]: both arrays are copied whole. *)
Definition copy_user (dst src : user) : user :=
  mkUser (user_username src) (user_password src).

(** The loop over the server slots [i], ..., [NUMBER_OF_SERVERS - 1]. *)
Fixpoint copy_servers (todo : nat) (i : nat) (config reload : list server)
    (changed : bool) : logged bool :=
  match todo with
  | O => ret changed
  | S todo' =>
      r <- copy_server (nth i config no_server) (nth i reload no_server) ;;
      copy_servers todo' (S i) config reload (if r =? 0 then changed else true)
  end.

(** The loop over the user slots. *)
Definition copy_users (config reload : list user) : list user :=
  map (fun i => copy_user (nth i config no_user) (nth i reload no_user))
      (seq 0 NUMBER_OF_USERS).

(** [transfer_configuration]: [changed] and the live configuration behind
    the call. *)
Definition transfer_configuration (config reload : main_configuration)
  : logged (bool * main_configuration) :=
  let changed := false in
  r <- restart_string "host" (host config) (host reload) ;;
  let changed := if r =? 0 then changed else true in
  r <- restart_int "log_type" (log_type (common config)) (log_type (common reload)) ;;
  let changed := if r =? 0 then changed else true in
  let config := with_common config (set_log_level (log_level (common reload))) in
  config <-
    (if negb (String.eqb (log_path (common config)) (log_path (common reload)))
        || negb (log_rotation_size (common config) =? log_rotation_size (common reload))
        || negb (log_rotation_age (common config) =? log_rotation_age (common reload))
        || negb (log_mode (common config) =? log_mode (common reload))
     then
       (with_common config
          (set_log_routing (log_path (common reload)) (log_mode (common reload))
                           (log_rotation_size (common reload))
                           (log_rotation_age (common reload))
                           (log_line_prefix (common reload))),
        [LogRestartTriggered; StopLogging; StartLogging])
     else ret config) ;;
  let config := set_authentication_timeout (authentication_timeout reload) config in
  _ <- (if negb (String.eqb "" (pidfile reload))
        then restart_string "pidfile" (pidfile config) (pidfile reload)
        else ret 0) ;;
  r <- restart_string "libev" (libev config) (libev reload) ;;
  let changed := if r =? 0 then changed else true in
  let config := set_backlog (backlog reload) config in
  r <- restart_int "hugepage" (hugepage config) (hugepage reload) ;;
  let changed := if r =? 0 then changed else true in
  r <- restart_int "update_process_title"
         (update_process_title config) (update_process_title reload) ;;
  let changed := if r =? 0 then changed else true in
  r <- restart_string "unix_socket_dir" (unix_socket_dir config) (unix_socket_dir reload) ;;
  let changed := if r =? 0 then changed else true in
  changed <- copy_servers NUMBER_OF_SERVERS 0
               (servers (common config)) (servers (common reload)) changed ;;
  r <- restart_int "number_of_servers"
         (number_of_servers (common config)) (number_of_servers (common reload)) ;;
  let changed := if r =? 0 then changed else true in
  let config :=
    with_common config
      (set_users (copy_users (users (common config)) (users (common reload)))) in
  let config :=
    with_common config (set_number_of_users (number_of_users (common reload))) in
  ret (changed, config).

(** ** Users file *)

Definition is_blank (c : ascii) : bool :=
  Ascii.eqb c " " || Ascii.eqb c "009" || Ascii.eqb c "013" || Ascii.eqb c "010".

(** [isspace] in the C locale. *)
Definition isspace (c : ascii) : bool :=
  let n := N_of_ascii c in
  (N.eqb n 32 || (N.leb 9 n && N.leb n 13))%bool.

(** [is_empty_string] on a non-null string. *)
Definition is_empty_string (s : string) : bool :=
  forallb is_blank (list_ascii_of_string s).

(** The first loop of [remove_leading_whitespace_and_comments]: the index of
    the first character that is no white space, and the characters from it. *)
Fixpoint skip_whitespace (s : list ascii) (i : Z) : Z * list ascii :=
  match s with
  | [] => (i, [])
  | c :: rest => if isspace c then skip_whitespace rest (i + 1) else (i, s)
  end.

(** Its second loop: [i] is the index into [s], [result] the characters
    appended so far. *)
Fixpoint copy_until_comment (s : list ascii) (i last_non_whitespace_index : Z)
    (result : list ascii) : Z * list ascii :=
  match s with
  | [] => (last_non_whitespace_index, result)
  | c :: rest =>
      if Ascii.eqb c ";" || Ascii.eqb c "#" then (last_non_whitespace_index, result)
      else
        let last := if negb (isspace c) then i else last_non_whitespace_index in
        copy_until_comment rest (i + 1) last (result ++ [c])
  end.

(** [remove_leading_whitespace_and_comments]: the trimmed line, [None] for a
    null pointer.  [pgvictoria_append_char] does not fail here, so the status
    is 0.  The NUL stored at [last_non_whitespace_index + 1] cuts the string
    there when that lies inside it. *)
Definition remove_leading_whitespace_and_comments (s : string) : option string :=
  let '(i, rest) := skip_whitespace (list_ascii_of_string s) 0 in
  let '(last, result) := copy_until_comment rest i (-1) [] in
  match result with
  | [] => None
  | _ :: _ =>
      if negb (last =? -1)
      then Some (string_of_list_ascii (firstn (Z.to_nat (last + 1)) result))
      else Some (string_of_list_ascii result)
  end.

(** [strtok]: the token, or [None], and the rest that the next call with a
    null pointer goes on with.  The token starts at the first character that
    is no delimiter and ends in front of the next delimiter. *)
Fixpoint skip_delimiters (delim : ascii) (s : list ascii) : list ascii :=
  match s with
  | [] => []
  | c :: rest => if Ascii.eqb c delim then skip_delimiters delim rest else s
  end.

Fixpoint token (delim : ascii) (s : list ascii) : list ascii * list ascii :=
  match s with
  | [] => ([], [])
  | c :: rest =>
      if Ascii.eqb c delim then ([], rest)
      else let '(t, r) := token delim rest in (c :: t, r)
  end.

Definition strtok (delim : ascii) (s : list ascii) : option string * list ascii :=
  match skip_delimiters delim s with
  | [] => (None, [])
  | c :: s' => let '(t, r) := token delim (c :: s') in (Some (string_of_list_ascii t), r)
  end.

(** Modelled from the spec: [pgvictoria_base64_decode] of utils.c ("BASE64
    decode a string ... return 0 if success, otherwise 1"); [None] is
    status 1. *)
Class Base64 : Type := {
  pgvictoria_base64_decode : string -> option (list byte)
}.

Section UsersFile.
Context {ssl : Aes.OpenSSL} {b64 : Base64}.

(** What one line of the users file comes to in the loop of
    [pgvictoria_read_users_configuration]. *)
Inductive line_result : Type :=
| Skipped
| Failed
| Entry (username password : string).

Definition user_line (master_key : string) (line : string) : line_result :=
  if is_empty_string line then Skipped
  else
    match remove_leading_whitespace_and_comments line with
    | None => Skipped
    | Some trimmed_line =>
        if is_empty_string trimmed_line then Skipped
        else
          let '(username, rest) := strtok ":" (list_ascii_of_string trimmed_line) in
          let '(ptr, _) := strtok ":" rest in
          match ptr with
          | None => Failed
          | Some ptr =>
              match pgvictoria_base64_decode ptr with
              | None => Failed
              | Some decoded =>
                  match Aes.pgvictoria_decrypt decoded (Z.of_nat (List.length decoded))
                          master_key Aes.ENCRYPTION_AES_256_CBC with
                  | None => Failed
                  | Some password =>
                      match username with
                      | None => Failed
                      | Some username =>
                          Entry username
                                (string_of_bytes (pgvictoria_read_string password))
                      end
                  end
              end
          end
    end.

(** [memcpy(dst, src, strlen(src))] into a character array that holds [dst]. *)
Definition overlay (dst src : string) : string :=
  (src ++ string_of_list_ascii
            (skipn (String.length src) (list_ascii_of_string dst)))%string.

(** The two [memcpy] into [users[index]] for an [index] below
    [NUMBER_OF_USERS]: the table with the slot [index] written. *)
Definition store_user (users : list user) (index : nat) (username password : string)
  : list user :=
  map (fun i =>
         let u := nth i users no_user in
         if (i =? index)%nat
         then mkUser (overlay (user_username u) username)
                     (overlay (user_password u) password)
         else u)
      (seq 0 NUMBER_OF_USERS).

(** The end of the fields of a structure that come behind the offset
    [start], each field given by its size and its alignment: a field begins
    at the next multiple of its alignment.  [int] has four bytes. *)
Definition align (alignment offset : Z) : Z :=
  (offset + alignment - 1) / alignment * alignment.

Definition fields_end (fields : list (Z * Z)) (start : Z) : Z :=
  fold_left (fun offset field => align (snd field) offset + fst field) fields start.

(** [sizeof(struct server)] and [sizeof(struct user)]; the structures of
    pgvictoria.h are aligned to 64 bytes. *)
Definition sizeof_server : Z :=
  align 64 (fields_end [(128, 1); (128, 1); (4, 4); (1, 1);
                        (MAX_USERNAME_LENGTH, 1); (4, 4); (4, 4)] 0).

Definition sizeof_user : Z :=
  align 64 (fields_end [(MAX_USERNAME_LENGTH, 1); (MAX_PASSWORD_LENGTH, 1)] 0).

(** The offset of the end of [users] in [struct common_configuration]:
    behind [home_dir], the eight fields of the logger, [servers] and [users]
    itself. *)
Definition users_end : Z :=
  fields_end [(1024, 1); (4, 4); (4, 4); (128, 1); (4, 4); (4, 4); (4, 4);
              (128, 1); (1, 1);
              (Z.of_nat NUMBER_OF_SERVERS * sizeof_server, 64);
              (Z.of_nat NUMBER_OF_USERS * sizeof_user, 64)] 0.

(** [sizeof(struct common_configuration)]: behind the users table come
    [number_of_servers], [number_of_users], [configuration_path] and
    [users_path]. *)
Definition sizeof_common_configuration : Z :=
  align 64 (fields_end [(4, 4); (4, 4); (1024, 1); (1024, 1)] users_end).

(** [sizeof(struct main_configuration)]: behind [common] come [running],
    [host], [authentication_timeout], [pidfile], [update_process_title],
    [libev], [backlog], [hugepage] and [unix_socket_dir]. *)
Definition sizeof_main_configuration : Z :=
  align 64 (fields_end [(1, 1); (128, 1); (4, 4); (1024, 1); (4, 4); (128, 1);
                        (4, 4); (1, 1); (128, 1)] sizeof_common_configuration).

(** The bytes of a [struct main_configuration] that lie behind its users
    table.  Both callers of [pgvictoria_read_users_configuration] pass a
    shared memory segment of [sizeof(struct main_configuration)] bytes. *)
Definition behind_users : Z := sizeof_main_configuration - users_end.

(** The state of the loop: the local [index], the users table, the byte
    strings that were copied behind the table, each with its offset from the
    end of the table, latest first, and the indices that were stored to,
    latest first. *)
Record users_state : Type := mkUsersState {
  index : Z;
  table : list user;
  behind : list (Z * list byte);
  stores : list Z
}.

(** The two [memcpy] into [users[index]].  The loop does not compare [index]
    with [NUMBER_OF_USERS]: from that index on [users[index]] lies behind the
    table, [sizeof(struct user)] bytes per index, where the other fields of
    the configuration are.  [segment] is the number of bytes of the memory at
    [shm] behind the users table; [None] is a [memcpy] that leaves it. *)
Definition store_entry (segment : Z) (st : users_state) (username password : string)
  : option users_state :=
  if index st <? Z.of_nat NUMBER_OF_USERS then
    Some (mkUsersState (index st)
                       (store_user (table st) (Z.to_nat (index st)) username password)
                       (behind st)
                       (index st :: stores st))
  else
    let offset := (index st - Z.of_nat NUMBER_OF_USERS) * sizeof_user in
    if (offset + Z.of_nat (String.length username) <=? segment)
       && (offset + MAX_USERNAME_LENGTH + Z.of_nat (String.length password)
           <=? segment)
    then
      Some (mkUsersState (index st) (table st)
                         ((offset + MAX_USERNAME_LENGTH, bytes_of_string password)
                            :: (offset, bytes_of_string username) :: behind st)
                         (index st :: stores st))
    else None.

(** How the [while (fgets(...))] loop ends: at the end of the file, with the
    [goto error] of a line that fails, or with a [memcpy] that leaves the
    memory at [shm]. *)
Inductive loop_end : Type :=
| EndOfFile
| LineFailed
| OutOfSegment.

(** The loop, with the state it ends in. *)
Fixpoint users_loop (segment : Z) (master_key : string) (lines : list string)
    (st : users_state) : loop_end * users_state :=
  match lines with
  | [] => (EndOfFile, st)
  | line :: rest =>
      match user_line master_key line with
      | Skipped => users_loop segment master_key rest st
      | Failed => (LineFailed, st)
      | Entry username password =>
          if (Z.of_nat (String.length username) <? MAX_USERNAME_LENGTH)
             && (Z.of_nat (String.length password) <? MAX_PASSWORD_LENGTH)
          then
            match store_entry segment st username password with
            | None => (OutOfSegment, st)
            | Some st =>
                users_loop segment master_key rest
                  (mkUsersState (index st + 1) (table st) (behind st) (stores st))
            end
          else
            users_loop segment master_key rest
              (mkUsersState (index st + 1) (table st) (behind st) (stores st))
      end
  end.

(** The memory at [shm] behind a call that returns.  As long as nothing was
    copied behind the users table it holds the configuration.  Otherwise the
    fields in front of the table are as they were, the table is [table], and
    the byte strings [written], in the order of the stores and each with its
    offset from the end of the table, lie over [number_of_servers],
    [number_of_users], the paths and the fields of [struct
    main_configuration]; [assigned] is the value that [number_of_users] is
    assigned behind the loop, over what was written there. *)
Inductive users_memory : Type :=
| Intact (config : main_configuration)
| Overwritten (table : list user) (written : list (Z * list byte))
              (assigned : option Z).

(** What a call of [pgvictoria_read_users_configuration] comes to: it
    returns, or the [memcpy] into [users[index]] leaves the memory at [shm].
    [stores] lists the indices that were stored to before, in the order of
    the stores. *)
Inductive users_result : Type :=
| UsersReturn (status : Z) (memory : users_memory) (stores : list Z)
| UsersOutOfSegment (index : Z) (stores : list Z).

Definition users_status (r : users_result) : option Z :=
  match r with
  | UsersReturn status _ _ => Some status
  | UsersOutOfSegment _ _ => None
  end.

Definition users_stores (r : users_result) : list Z :=
  match r with
  | UsersReturn _ _ stores => stores
  | UsersOutOfSegment _ stores => stores
  end.

Definition users_configuration (r : users_result) : option main_configuration :=
  match r with
  | UsersReturn _ (Intact config) _ => Some config
  | _ => None
  end.

(** [pgvictoria_read_users_configuration]: [segment] is the number of bytes
    of the memory at [shm] behind the users table of [config]; [file] is
    [None] when [fopen] fails and the lines that [fgets] yields otherwise;
    [master_key] is the result of [pgvictoria_get_master_key]. *)
Definition pgvictoria_read_users_configuration (segment : Z)
    (config : main_configuration)
    (file : option (list string)) (master_key : option string)
  : users_result :=
  match file with
  | None => UsersReturn 1 (Intact config) []
  | Some lines =>
      match master_key with
      | None => UsersReturn 2 (Intact config) []
      | Some master_key =>
          match users_loop segment master_key lines
                  (mkUsersState 0 (users (common config)) [] []) with
          | (OutOfSegment, st) => UsersOutOfSegment (index st) (rev (stores st))
          | (LineFailed, st) =>
              UsersReturn 1
                (match behind st with
                 | [] => Intact (with_common config (set_users (table st)))
                 | _ :: _ => Overwritten (table st) (rev (behind st)) None
                 end)
                (rev (stores st))
          | (EndOfFile, st) =>
              let number_of_users := index st in
              UsersReturn
                (if number_of_users >? Z.of_nat NUMBER_OF_USERS then 3 else 0)
                (match behind st with
                 | [] =>
                     Intact (with_common
                               (with_common config (set_users (table st)))
                               (set_number_of_users number_of_users))
                 | _ :: _ =>
                     Overwritten (table st) (rev (behind st)) (Some number_of_users)
                 end)
                (rev (stores st))
          end
      end
  end.

(** Whether a line comes to an entry, and the number of lines that do. *)
Definition is_entry (master_key : string) (line : string) : bool :=
  match user_line master_key line with
  | Entry _ _ => true
  | _ => false
  end.

Definition entries (master_key : string) (lines : list string) : nat :=
  List.length (filter (is_entry master_key) lines).

(** Whether a line comes to an entry that is stored into the table. *)
Definition is_stored_entry (master_key : string) (line : string) : bool :=
  match user_line master_key line with
  | Entry username password =>
      (Z.of_nat (String.length username) <? MAX_USERNAME_LENGTH)
      && (Z.of_nat (String.length password) <? MAX_PASSWORD_LENGTH)
  | _ => false
  end.

End UsersFile.

(** Whether one of the server slots [i], ..., [i + todo - 1] differs in the
    name, the host, the port or the user name. *)
Definition server_differs (dst src : server) : bool :=
  negb (String.eqb (server_name dst) (server_name src))
  || negb (String.eqb (server_host dst) (server_host src))
  || negb (server_port dst =? server_port src)
  || negb (String.eqb (server_username dst) (server_username src)).

Fixpoint servers_differ (todo : nat) (i : nat) (config reload : list server) : bool :=
  match todo with
  | O => false
  | S todo' =>
      server_differs (nth i config no_server) (nth i reload no_server)
      || servers_differ todo' (S i) config reload
  end.

(** The comparisons of [transfer_configuration] whose result goes into
    [changed]. *)
Definition restart_required (config reload : main_configuration) : bool :=
  negb (String.eqb (host config) (host reload))
  || negb (log_type (common config) =? log_type (common reload))
  || negb (String.eqb (libev config) (libev reload))
  || negb (hugepage config =? hugepage reload)
  || negb (update_process_title config =? update_process_title reload)
  || negb (String.eqb (unix_socket_dir config) (unix_socket_dir reload))
  || servers_differ NUMBER_OF_SERVERS 0 (servers (common config)) (servers (common reload))
  || negb (number_of_servers (common config) =? number_of_servers (common reload)).

(** A stand-in for the BASE64 decoder: the bytes of the text itself. *)
Definition plain_base64 : Base64 := {|
  pgvictoria_base64_decode := fun s => Some (bytes_of_string s)
|}.

(** A users file of 65 lines, each an entry for the stand-ins, and one of
    100 such lines. *)
Definition users_file_65 : list string :=
  repeat ("alice:secret" ++ String "010" "")%string 65.

Definition users_file_100 : list string :=
  repeat ("alice:secret" ++ String "010" "")%string 100.

(** A configuration with one server and one user. *)
Definition baseline : main_configuration :=
  mkMain
    (mkCommon "/home/pgvictoria" 0 3 "" 0 0 0 "" 0
              (mkServer "primary" "localhost" 5432 false "alice" 0 0
                 :: repeat no_server 63)
              (mkUser "alice" "secret" :: repeat no_user 63)
              1 1 "/etc/pgvictoria/pgvictoria.conf"
              "/etc/pgvictoria/pgvictoria_users.conf")
    true "*" 5 "/tmp/pgvictoria.pid" 3 "auto" 16 1 "/tmp/".

Definition with_pidfile (c : main_configuration) (p : string) : main_configuration :=
  mkMain (common c) (running c) (host c) (authentication_timeout c) p
         (update_process_title c) (libev c) (backlog c) (hugepage c) (unix_socket_dir c).

(** Whether the reload differs in what the logger is set up with: the path,
    the rotation size, the rotation age or the mode. *)
Definition log_routing_differs (config reload : main_configuration) : bool :=
  negb (String.eqb (log_path (common config)) (log_path (common reload)))
  || negb (log_rotation_size (common config) =? log_rotation_size (common reload))
  || negb (log_rotation_age (common config) =? log_rotation_age (common reload))
  || negb (log_mode (common config) =? log_mode (common reload)).

(** The settings of the logger. *)
Definition log_routing (c : common_configuration) : string * Z * Z * Z * string :=
  (log_path c, log_mode c, log_rotation_size c, log_rotation_age c, log_line_prefix c).

(** An event that tells of a setting that needs a restart. *)
Definition is_restart_notice (e : event) : bool :=
  match e with
  | RestartRequiredInt _ _ _ | RestartRequiredString _ _ _ => true
  | _ => false
  end.

(** ** Lines of the main configuration file *)

Definition MISC_LENGTH : nat := 128.

(** [strchr(str, c)]: the characters before the first [c] and the string
    from it on, or [None] for a null pointer. *)
Fixpoint strchr (c : ascii) (s : list ascii) : option (list ascii * list ascii) :=
  match s with
  | [] => None
  | x :: rest =>
      if Ascii.eqb x c then Some ([], s)
      else
        match strchr c rest with
        | None => None
        | Some (before, from) => Some (x :: before, from)
        end
  end.

(** The characters that [extract_key_value] skips in front of the key and
    in front of the value, and those that it cuts off behind them (the NUL
    is behind the end of the string). *)
Definition key_skipped (c : ascii) : bool :=
  Ascii.eqb c "009" || Ascii.eqb c " " || Ascii.eqb c "034" || Ascii.eqb c "'".

Definition value_skipped (c : ascii) : bool :=
  Ascii.eqb c "=" || Ascii.eqb c " " || Ascii.eqb c "009" || Ascii.eqb c "034"
  || Ascii.eqb c "'".

Definition key_trimmed (c : ascii) : bool :=
  Ascii.eqb c "009" || Ascii.eqb c " " || Ascii.eqb c "000" || Ascii.eqb c "034"
  || Ascii.eqb c "'".

Definition value_trimmed (c : ascii) : bool :=
  Ascii.eqb c "009" || Ascii.eqb c " " || Ascii.eqb c "000" || Ascii.eqb c "013"
  || Ascii.eqb c "034" || Ascii.eqb c "'".

(** The first loop of [extract_key_value] over the characters before the
    ['=']: what goes into [left]. *)
Fixpoint left_part (start_left : bool) (s : list ascii) : list ascii :=
  match s with
  | [] => []
  | c :: rest =>
      let start_left := if key_skipped c then start_left else true in
      if start_left then c :: left_part start_left rest
      else left_part start_left rest
  end.

(** Its second loop over the characters from the ['='] on: what goes into
    [right].  [newline_ends] tells that the first newline of the line, which
    [end] points to, is not in front of the ['=']. *)
Fixpoint right_part (start_right newline_ends : bool) (s : list ascii) : list ascii :=
  match s with
  | [] => []
  | c :: rest =>
      if newline_ends && Ascii.eqb c "010" then []
      else
        let start_right := if value_skipped c then start_right else true in
        if start_right then
          if Ascii.eqb c "#" then []
          else c :: right_part start_right newline_ends rest
        else right_part start_right newline_ends rest
  end.

(** The two loops that run backwards from the terminating NUL and store a
    NUL over every character of the set, up to the first other character. *)
Fixpoint trim_right (p : ascii -> bool) (s : list ascii) : list ascii :=
  match s with
  | [] => []
  | c :: rest =>
      match trim_right p rest with
      | [] => if p c then [] else [c]
      | t => c :: t
      end
  end.

(** What [extract_key_value] hands out: both pointers null, the key and the
    value, or a run of one of the first two loops over the end of [left] or
    [right], which hold [MISC_LENGTH] characters with the NUL. *)
Inductive key_value : Type :=
| NoKeyValue
| KeyValue (key value : string)
| Overrun.

(** [extract_key_value] *)
Definition extract_key_value (str : string) : key_value :=
  match strchr "=" (list_ascii_of_string str) with
  | None => NoKeyValue
  | Some (before, equal) =>
      let left := left_part false before in
      let newline_ends := negb (existsb (Ascii.eqb "010") before) in
      let right := right_part false newline_ends equal in
      if (MISC_LENGTH <=? List.length left)%nat
         || (MISC_LENGTH <=? List.length right)%nat
      then Overrun
      else KeyValue (string_of_list_ascii (trim_right key_trimmed left))
                    (string_of_list_ascii (trim_right value_trimmed right))
  end.

(** What a key and a value of a line look like: the key starts and ends
    with a character that is kept and holds no ['='] and no newline; the
    value starts and ends with a character that is kept and holds no ['#']
    and no newline. *)
Definition key_text (k : list ascii) : Prop :=
  k <> [] /\
  key_skipped (hd " "%char k) = false /\
  key_trimmed (last k " "%char) = false /\
  Forall (fun c => Ascii.eqb c "=" = false /\ Ascii.eqb c "010" = false) k.

Definition value_text (v : list ascii) : Prop :=
  v <> [] /\
  value_skipped (hd " "%char v) = false /\
  value_trimmed (last v " "%char) = false /\
  Forall (fun c => Ascii.eqb c "#" = false /\ Ascii.eqb c "010" = false) v.

(** The end of a line behind the value: nothing, a comment or the newline. *)
Definition line_end (tail : list ascii) : Prop :=
  match tail with
  | [] => True
  | c :: _ => c = "#"%char \/ c = "010"%char
  end.

(** ** Numbers and sizes *)

(** [isdigit] and [isalpha] in the C locale. *)
Definition isdigit (c : ascii) : bool :=
  let n := N_of_ascii c in (N.leb 48 n && N.leb n 57)%bool.

Definition isalpha (c : ascii) : bool :=
  let n := N_of_ascii c in
  ((N.leb 65 n && N.leb n 90) || (N.leb 97 n && N.leb n 122))%bool.

Definition LONG_MAX : Z := 2 ^ 63 - 1.
Definition LONG_MIN : Z := - 2 ^ 63.

(** The digits that [strtol] takes in base 10: the value and what is left of
    the string. *)
Fixpoint strtol_digits (acc : Z) (s : list ascii) : Z * list ascii :=
  match s with
  | [] => (acc, [])
  | c :: rest =>
      if isdigit c
      then strtol_digits (10 * acc + (Z.of_N (N_of_ascii c) - 48)) rest
      else (acc, s)
  end.

(** The value behind one more digit. *)
Definition digit_step (acc : Z) (c : ascii) : Z :=
  10 * acc + (Z.of_N (N_of_ascii c) - 48).

(** [strtol(str, &endptr, 10)] of the C library: white space, a sign, digits.
    [None] is the run without a digit, where [endptr] is [str]; otherwise
    the value, which is clamped to the range of [long], whether [errno] is
    [ERANGE], and the string at [endptr]. *)
Definition strtol (s : list ascii) : option (Z * bool * list ascii) :=
  let s := snd (skip_whitespace s 0) in
  let '(negative, s) :=
    match s with
    | c :: rest =>
        if Ascii.eqb c "-" then (true, rest)
        else if Ascii.eqb c "+" then (false, rest)
        else (false, s)
    | [] => (false, s)
    end in
  match s with
  | [] => None
  | c :: _ =>
      if isdigit c then
        let '(v, rest) := strtol_digits 0 s in
        let v := if negative then - v else v in
        if v >? LONG_MAX then Some (LONG_MAX, true, rest)
        else if v <? LONG_MIN then Some (LONG_MIN, true, rest)
        else Some (v, false, rest)
      else None
  end.

(** [as_int]; [None] is status 1.  The [long] is converted to [int]. *)
Definition as_int (str : string) : option Z :=
  match strtol (list_ascii_of_string str) with
  | None => None
  | Some (val, erange, endptr) =>
      if erange && ((val =? LONG_MAX) || (val =? LONG_MIN)) then None
      else
        match endptr with
        | [] => Some (signed 32 val)
        | _ :: _ => None
        end
  end.

(** The loop of [as_seconds] over the characters: the digits that went into
    [value] and the multiplier, or [None] for the [goto error]. *)
Fixpoint seconds_scan (s : list ascii) (value : list ascii) (multiplier : Z)
    (multiplier_set : bool) : option (list ascii * Z) :=
  match s with
  | [] => Some (value, multiplier)
  | c :: rest =>
      if isdigit c then seconds_scan rest (value ++ [c]) multiplier multiplier_set
      else if isalpha c && multiplier_set then None
      else if isalpha c && negb multiplier_set then
        if Ascii.eqb c "s" || Ascii.eqb c "S" then seconds_scan rest value 1 true
        else if Ascii.eqb c "m" || Ascii.eqb c "M" then seconds_scan rest value 60 true
        else if Ascii.eqb c "h" || Ascii.eqb c "H" then seconds_scan rest value 3600 true
        else if Ascii.eqb c "d" || Ascii.eqb c "D"
        then seconds_scan rest value (24 * 3600) true
        else if Ascii.eqb c "w" || Ascii.eqb c "W"
        then seconds_scan rest value (24 * 3600 * 7) true
        else seconds_scan rest value multiplier multiplier_set
      else None
  end.

(** [as_seconds]: the status and [*age].  The product is an [int]; the text
    has less than [MISC_LENGTH] characters, as the values that
    [extract_key_value] hands out have, so that [value] holds its digits. *)
Definition as_seconds (str : string) (default_age : Z) : Z * Z :=
  if is_empty_string str then (0, default_age)
  else
    match seconds_scan (list_ascii_of_string str) [] 1 false with
    | None => (1, default_age)
    | Some (value, multiplier) =>
        match as_int (string_of_list_ascii value) with
        | Some i_value =>
            if i_value >=? 0 then (0, signed 32 (i_value * multiplier))
            else (1, default_age)
        | None => (1, default_age)
        end
    end.

(** The loop of [as_bytes]. *)
Fixpoint bytes_scan (s : list ascii) (value : list ascii) (multiplier : Z)
    (multiplier_set : bool) : option (list ascii * Z) :=
  match s with
  | [] => Some (value, multiplier)
  | c :: rest =>
      if isdigit c then bytes_scan rest (value ++ [c]) multiplier multiplier_set
      else if isalpha c && multiplier_set then
        if (multiplier =? 1) || (negb (Ascii.eqb c "b") && negb (Ascii.eqb c "B"))
        then None
        else bytes_scan rest value multiplier multiplier_set
      else if isalpha c && negb multiplier_set then
        if Ascii.eqb c "M" || Ascii.eqb c "m"
        then bytes_scan rest value (1024 * 1024) true
        else if Ascii.eqb c "G" || Ascii.eqb c "g"
        then bytes_scan rest value (1024 * 1024 * 1024) true
        else if Ascii.eqb c "K" || Ascii.eqb c "k" then bytes_scan rest value 1024 true
        else if Ascii.eqb c "B" || Ascii.eqb c "b" then bytes_scan rest value 1 true
        else bytes_scan rest value multiplier multiplier_set
      else None
  end.

(** [as_bytes]: the status and [*bytes]. *)
Definition as_bytes (str : string) (default_bytes : Z) : Z * Z :=
  if is_empty_string str then (0, default_bytes)
  else
    match bytes_scan (list_ascii_of_string str) [] 1 false with
    | None => (1, default_bytes)
    | Some (value, multiplier) =>
        match as_int (string_of_list_ascii value) with
        | Some i_value =>
            if i_value >=? 0 then (0, signed 32 (i_value * multiplier))
            else (1, default_bytes)
        | None => (1, default_bytes)
        end
    end.

(** The suffixes of an age and of a size with their multipliers. *)
Definition age_units : list (string * Z) :=
  [(""%string, 1); ("s"%string, 1); ("S"%string, 1); ("m"%string, 60);
   ("M"%string, 60); ("h"%string, 3600); ("H"%string, 3600);
   ("d"%string, 86400); ("D"%string, 86400); ("w"%string, 604800);
   ("W"%string, 604800)].

Definition size_units : list (string * Z) :=
  [(""%string, 1); ("b"%string, 1); ("B"%string, 1);
   ("k"%string, 1024); ("K"%string, 1024); ("kb"%string, 1024);
   ("KB"%string, 1024);
   ("m"%string, 1048576); ("M"%string, 1048576); ("mb"%string, 1048576);
   ("MB"%string, 1048576);
   ("g"%string, 1073741824); ("G"%string, 1073741824); ("gb"%string, 1073741824);
   ("GB"%string, 1073741824)].

(** ** Validation *)

(** The loop over the servers of [pgvictoria_validate_main_configuration],
    for the slots [i], ..., [i + todo - 1]; the result is the status. *)
Fixpoint validate_servers (todo : nat) (i : nat) (servers : list server) : Z :=
  match todo with
  | O => 0
  | S todo' =>
      let s := nth i servers no_server in
      if String.eqb (server_name s) "pgvictoria" then 1
      else if String.eqb (server_name s) "all" then 1
      else if (String.length (server_host s) =? 0)%nat then 1
      else if server_port s =? 0 then 1
      else if (String.length (server_username s) =? 0)%nat then 1
      else validate_servers todo' (S i) servers
  end.

(** [pgvictoria_validate_main_configuration]: the status and the
    configuration behind the call.  [is_directory path] is
    [stat(path, &st) == 0 && S_ISDIR(st.st_mode)]. *)
Definition pgvictoria_validate_main_configuration (is_directory : string -> bool)
    (config : main_configuration) : Z * main_configuration :=
  if (String.length (host config) =? 0)%nat then (1, config)
  else if (String.length (unix_socket_dir config) =? 0)%nat then (1, config)
  else if negb (is_directory (unix_socket_dir config)) then (1, config)
  else
    let config := if backlog config <? 16 then set_backlog 16 config else config in
    if number_of_servers (common config) <=? 0 then (1, config)
    else
      (validate_servers (Z.to_nat (number_of_servers (common config))) 0
                        (servers (common config)),
       config).

(** The inner loop of [pgvictoria_validate_users_configuration] over the
    users [j], ..., [j + todo - 1]: the value of [found] behind it. *)
Fixpoint user_found (todo : nat) (j : nat) (users : list user) (username : string)
  : bool :=
  match todo with
  | O => false
  | S todo' =>
      if String.eqb username (user_username (nth j users no_user)) then true
      else user_found todo' (S j) users username
  end.

(** Its outer loop over the servers [i], ..., [i + todo - 1]. *)
Fixpoint validate_server_users (todo : nat) (i : nat) (c : common_configuration) : Z :=
  match todo with
  | O => 0
  | S todo' =>
      if user_found (Z.to_nat (number_of_users c)) 0 (users c)
                    (server_username (nth i (servers c) no_server))
      then validate_server_users todo' (S i) c
      else 1
  end.

(** [pgvictoria_validate_users_configuration] *)
Definition pgvictoria_validate_users_configuration (config : main_configuration) : Z :=
  if number_of_users (common config) <=? 0 then 1
  else validate_server_users (Z.to_nat (number_of_servers (common config))) 0
                             (common config).

Section Reloading.
Context {ssl : Aes.OpenSSL} {b64 : Base64}.

(** [pgvictoria_reload_configuration]: the status, [*restart] and the live
    configuration behind the call, with the events of the transfer.
    [reload] is the reload area behind [pgvictoria_init_main_configuration]
    and [pgvictoria_read_main_configuration], [None] when the area cannot be
    created or the main file cannot be read; [users_file] and [master_key]
    are what [pgvictoria_read_users_configuration] finds.  The reload area is
    a segment of [sizeof(struct main_configuration)] bytes.  The result is
    [None] when the read of the users file leaves it.  A read that returns 0
    has stored nothing behind the users table. *)
Definition pgvictoria_reload_configuration (is_directory : string -> bool)
    (config : main_configuration) (reload : option main_configuration)
    (users_file : option (list string)) (master_key : option string)
  : option (logged (Z * bool * main_configuration)) :=
  match reload with
  | None => Some (ret (1, true, config))
  | Some reload =>
      match pgvictoria_read_users_configuration behind_users reload
              users_file master_key with
      | UsersOutOfSegment _ _ => None
      | UsersReturn status memory _ =>
          if negb (status =? 0) then Some (ret (1, true, config))
          else
            match memory with
            | Overwritten _ _ _ => None
            | Intact reload =>
                let '(status, reload) :=
                  pgvictoria_validate_main_configuration is_directory reload in
                if negb (status =? 0) then Some (ret (1, true, config))
                else if negb (pgvictoria_validate_users_configuration reload =? 0)
                then Some (ret (1, true, config))
                else
                  Some (r <- transfer_configuration config reload ;;
                        ret (0, fst r, snd r))
            end
      end
  end.

End Reloading.

(** The end of a line for [remove_leading_whitespace_and_comments]: nothing
    or a comment. *)
Definition comment_end (tail : list ascii) : Prop :=
  match tail with
  | [] => True
  | c :: _ => c = ";"%char \/ c = "#"%char
  end.

(** A text that starts and ends with a character that is no white space and
    holds no [';'] and no ['#']. *)
Definition line_text (body : list ascii) : Prop :=
  body <> [] /\
  isspace (hd " "%char body) = false /\
  isspace (last body " "%char) = false /\
  Forall (fun c => Ascii.eqb c ";" || Ascii.eqb c "#" = false) body.

Section UsersTable.
Context {ssl : Aes.OpenSSL} {b64 : Base64}.

(** A user name or a BASE64 text as a line of the users file holds it: not
    empty, without white space, [':'], [';'] and ['#']. *)
Definition field_text (s : string) : Prop :=
  s <> ""%string /\
  Forall (fun c => isspace c = false /\ c <> ":"%char /\
                   c <> ";"%char /\ c <> "#"%char)
         (list_ascii_of_string s).

(** [stands_for master_key line u]: the line is the name of the user [u], a
    colon, a BASE64 text and white space up to the end of the line; the text
    decodes into a ciphertext that decrypts, under the master key, into the
    password of [u]; name and password fit their fields. *)
Definition stands_for (master_key : string) (line : string) (u : user) : Prop :=
  exists (text trail : string) (decoded plaintext : list byte),
    line = (user_username u ++ ":" ++ text ++ trail)%string /\
    field_text (user_username u) /\
    field_text text /\
    Forall (fun c => isspace c = true) (list_ascii_of_string trail) /\
    pgvictoria_base64_decode text = Some decoded /\
    Aes.pgvictoria_decrypt decoded (Z.of_nat (List.length decoded)) master_key
                           Aes.ENCRYPTION_AES_256_CBC = Some plaintext /\
    user_password u = string_of_bytes (pgvictoria_read_string plaintext) /\
    Z.of_nat (String.length (user_username u)) < MAX_USERNAME_LENGTH /\
    Z.of_nat (String.length (user_password u)) < MAX_PASSWORD_LENGTH.

(** A line that holds a comment only: white space, [';'] or ['#'] and any
    text. *)
Definition comment_line (line : string) : Prop :=
  exists (lead text : string) (c : ascii),
    line = (lead ++ String c text)%string /\
    Forall (fun c => isspace c = true) (list_ascii_of_string lead) /\
    (c = ";"%char \/ c = "#"%char).

(** [holds master_key lines us]: the lines of a users file are blank lines,
    comments, and the entries of the users [us] in their order. *)
Inductive holds (master_key : string) : list string -> list user -> Prop :=
| holds_end : holds master_key [] []
| holds_blank (line : string) (lines : list string) (us : list user) :
    is_empty_string line = true ->
    holds master_key lines us ->
    holds master_key (line :: lines) us
| holds_comment (line : string) (lines : list string) (us : list user) :
    comment_line line ->
    holds master_key lines us ->
    holds master_key (line :: lines) us
| holds_entry (line : string) (u : user) (lines : list string) (us : list user) :
    stands_for master_key line u ->
    holds master_key lines us ->
    holds master_key (line :: lines) (u :: us).

End UsersTable.

(** ** The PID file (main.c) *)

Definition MAX_PATH : nat := 1024.

(** Modelled from the spec: [pgvictoria_ends_with] of utils.c ("Does a
    string end with another string"). *)
Definition pgvictoria_ends_with (str suffix : string) : bool :=
  (String.length suffix <=? String.length str)%nat
  && String.eqb (substring (String.length str - String.length suffix)
                           (String.length suffix) str)
                suffix.

(** The first part of [create_pidfile]: a configuration without a PID file
    gets the default one in the socket directory. *)
Definition default_pidfile (config : main_configuration) : main_configuration :=
  if (String.length (pidfile config) =? 0)%nat then
    let host := if String.eqb (host config) "*" then "all"%string else host config in
    if negb (pgvictoria_ends_with (unix_socket_dir config) "/") then
      with_pidfile config
        (snprintf MAX_PATH (unix_socket_dir config ++ "/pgvictoria." ++ host ++ ".pid"))
    else
      with_pidfile config
        (snprintf MAX_PATH (unix_socket_dir config ++ "pgvictoria." ++ host ++ ".pid"))
  else config.

(** [access(path, F_OK) == 0] *)
Definition accessible (fs : Aes.filesystem) (path : string) : bool :=
  match fs path with
  | Some _ => true
  | None => false
  end.

(** [create_pidfile]: the status, the configuration and the files behind
    the call.  [can_create path] tells whether [open] with
    [O_CREAT | O_EXCL] gives a descriptor for a path that does not exist,
    [write_ok] whether the [write] succeeds, [pid] is [getpid()]. *)
Definition create_pidfile (can_create : string -> bool) (write_ok : bool) (pid : Z)
    (config : main_configuration) (fs : Aes.filesystem)
  : Z * main_configuration * Aes.filesystem :=
  let config := default_pidfile config in
  if (0 <? String.length (pidfile config))%nat then
    if accessible fs (pidfile config) then (1, config, fs)
    else if negb (can_create (pidfile config)) then (1, config, fs)
    else
      let fs := Aes.fs_write fs (pidfile config) [] in
      let buffer := snprintf 64 (decimal (wrap 32 pid) ++ String "010" "") in
      if write_ok
      then (0, config, Aes.fs_write fs (pidfile config) (bytes_of_string buffer))
      else (1, config, fs)
  else (0, config, fs).

(** [remove_pidfile] *)
Definition remove_pidfile (config : main_configuration) (fs : Aes.filesystem)
  : Aes.filesystem :=
  if (0 <? String.length (pidfile config))%nat
     && accessible fs (pidfile config)
  then Aes.fs_remove fs (pidfile config)
  else fs.

End Configuration.

(* ================================================================== *)
(** * Well-formed reply streams                                        *)
(* ================================================================== *)

(** The frames of the wire protocol as the specification describes them
    (glossary: "one protocol message: tag byte, big-endian 32-bit length,
    payload"; the length counts its own four bytes and the payload).  The
    properties of the scanning code are stated over buffers that are built
    from such frames. *)
Module Wire.
Import Codec Message.

Record frame : Type := mkFrame {
  tag : byte;
  payload : list byte
}.

(** The value of the length field. *)
Definition frame_length (f : frame) : Z := 4 + Z.of_nat (List.length (payload f)).

Definition encode_frame (f : frame) : list byte :=
  tag f :: int32_bytes (frame_length f) ++ payload f.

Definition encode_frames (fs : list frame) : list byte :=
  flat_map encode_frame fs.

(** The length fits the signed 32-bit field. *)
Definition frame_ok (f : frame) : Prop := frame_length f < 2 ^ 31.

Definition has_tag (type : byte) (f : frame) : bool := type =? tag f.

(** The copy of a frame that the extraction functions hand out. *)
Definition message_of_frame (f : frame) : message :=
  mkMessage (tag f) (1 + frame_length f) (encode_frame f).

(** A DataRow payload: the i16 column count and per column the i32 length
    and the value, or the length -1 for NULL. *)
Definition int16_bytes (v : Z) : list byte :=
  let u := wrap 16 v in [u / 256; u mod 256].

Definition encode_column (c : option (list byte)) : list byte :=
  match c with
  | None => int32_bytes (-1)
  | Some v => int32_bytes (Z.of_nat (List.length v)) ++ v
  end.

Definition data_row (columns : list (option (list byte))) : frame :=
  mkFrame (chr "D")
          (int16_bytes (Z.of_nat (List.length columns))
           ++ flat_map encode_column columns).

(** A RowDescription payload: the i16 column count and per column the
    NUL-terminated name and the 18 bytes of table OID, attribute number, type
    OID, type size, type modifier and format code. *)
Definition encode_field (c : string * list byte) : list byte :=
  bytes_of_string (fst c) ++ [0] ++ snd c.

Definition row_description (columns : list (string * list byte)) : frame :=
  mkFrame (chr "T")
          (int16_bytes (Z.of_nat (List.length columns))
           ++ flat_map encode_field columns).

Definition field_ok (c : string * list byte) : Prop :=
  ~ In 0 (bytes_of_string (fst c)) /\ List.length (snd c) = 18%nat.

(** The command of START_REPLICATION for a slot and a position that may be
    missing or empty. *)
Definition start_replication_text (xlogpos : option string) (timeline : Z)
    (slot : option string) : string :=
  ("START_REPLICATION "
   ++ (if given slot then "SLOT " ++ text_of slot ++ " " else "")
   ++ "PHYSICAL "
   ++ (if given xlogpos then text_of xlogpos else "0/0")
   ++ " TIMELINE " ++ decimal timeline ++ ";")%string.

(** What a reader of the tuple sees of a column. *)
Definition seen_column (c : option (list byte)) : option (list byte) :=
  match c with
  | Some [] => None
  | _ => c
  end.

Definition column_ok (c : option (list byte)) : Prop :=
  match c with
  | None => True
  | Some v => Z.of_nat (List.length v) < 2 ^ 31
  end.

(** A RowDescription frame whose names go into the names table of the
    response: at most [MAX_NUMBER_OF_COLUMNS] columns with names of less than
    [MISC_LENGTH] bytes. *)
Definition names_fit (columns : list (string * list byte)) : Prop :=
  Forall field_ok columns /\
  (List.length columns <= MAX_NUMBER_OF_COLUMNS)%nat /\
  Forall (fun c => (String.length (fst c) < MISC_LENGTH)%nat) columns.

(** The header of a frame and the first bytes [part] of its payload: what
    has arrived of a frame when a read ends inside it. *)
Definition frame_part (f : frame) (part : list byte) : list byte :=
  tag f :: int32_bytes (frame_length f) ++ part.

(** [open_prefix data fs]: [data] is a part of the stream of the frames [fs]
    from its start on that holds no ReadyForQuery frame.  It ends at a frame
    boundary, or inside a frame that is no ReadyForQuery, behind the five
    bytes of its header. *)
Definition open_prefix (data : list byte) (fs : list frame) : Prop :=
  exists g h : list frame,
    fs = g ++ h /\
    existsb (has_tag (chr "Z")) g = false /\
    (data = encode_frames g \/
     exists (f : frame) (h' : list frame) (part rest : list byte),
       h = f :: h' /\ tag f <> chr "Z" /\ payload f = part ++ rest /\
       data = encode_frames g ++ frame_part f part).

(** [delivers replies acc fs]: with the bytes [acc] in the accumulator, the
    reads [replies] bring the stream of the frames [fs] piece by piece, and
    the first read behind which the accumulator holds a ReadyForQuery frame
    completes the stream.  A read may end inside a frame, behind its header
    (a scan of the accumulator reads the header of every frame it comes
    to). *)
Inductive delivers : list read_result -> list byte -> list frame -> Prop :=
| delivers_zero (rest : list read_result) (acc : list byte) (fs : list frame) :
    delivers rest acc fs ->
    delivers (ReadZero :: rest) acc fs
| delivers_more (rest : list read_result) (acc reply : list byte) (fs : list frame) :
    open_prefix (acc ++ reply) fs ->
    delivers rest (acc ++ reply) fs ->
    delivers (ReadOk reply :: rest) acc fs
| delivers_last (rest : list read_result) (acc reply : list byte) (fs : list frame) :
    acc ++ reply = encode_frames fs ->
    existsb (has_tag (chr "Z")) fs = true ->
    delivers (ReadOk reply :: rest) acc fs.

(** The reply to [SELECT 1;]: a RowDescription with the one column
    [?column?] (table 0, attribute 0, type 23, size 4, modifier -1, text
    format), one DataRow with the value [1], CommandComplete and
    ReadyForQuery. *)
Definition select_1_reply : list frame :=
  [ mkFrame (chr "T")
            (int16_bytes 1 ++ bytes_of_string "?column?" ++ [0]
             ++ int32_bytes 0 ++ int16_bytes 0 ++ int32_bytes 23
             ++ int16_bytes 4 ++ int32_bytes (-1) ++ int16_bytes 0);
    data_row [Some (bytes_of_string "1")];
    mkFrame (chr "C") (bytes_of_string "SELECT 1" ++ [0]);
    mkFrame (chr "Z") [chr "I"] ].

(** A socket that takes no more than it is offered: every [write] takes at
    most the bytes that remain and at most a buffer's worth. *)
Fixpoint within_offer (script : list write_result) (remaining : Z) : Prop :=
  match script with
  | [] => True
  | Wrote n :: rest =>
      Z.of_nat n <= Z.min remaining DEFAULT_BUFFER_SIZE /\
      (Z.of_nat n < remaining -> within_offer rest (remaining - Z.of_nat n))
  | _ :: rest => within_offer rest remaining
  end.

(** The number of bytes that the responses of a socket take. *)
Fixpoint taken (script : list write_result) : Z :=
  match script with
  | [] => 0
  | Wrote n :: rest => Z.of_nat n + taken rest
  | _ :: rest => taken rest
  end.

(** The same for [SSL_write], which takes no more than the remaining bytes;
    a result that is not positive takes nothing. *)
Fixpoint ssl_within_offer (script : list ssl_write_result) (remaining : Z) : Prop :=
  match script with
  | [] => True
  | result :: rest =>
      ssl_numbytes result <= remaining /\
      (ssl_numbytes result < remaining ->
       ssl_within_offer rest (remaining - Z.max 0 (ssl_numbytes result)))
  end.

(** A field of an ErrorResponse: the type character, the text and a NUL. *)
Definition error_field (type : ascii) (text : string) : list byte :=
  chr type :: bytes_of_string text ++ [0].

(** A transport that takes no more than it is offered of [n] bytes. *)
Definition transport_within_offer (t : transport) (n : Z) : Prop :=
  match t with
  | Plain script => within_offer script n
  | Tls script => ssl_within_offer script n
  end.

(** The wire holds the bytes when the transfer is OK, and a part of them
    from the start on otherwise. *)
Definition on_the_wire (r : transfer) (bytes : list byte) : Prop :=
  match r with
  | Done MESSAGE_STATUS_OK wire => wire = bytes
  | Done _ wire => exists rest, bytes = wire ++ rest
  | Pending wire => exists rest, bytes = wire ++ rest
  end.

End Wire.

(* ================================================================== *)
(** * Properties                                                       *)
(* ================================================================== *)

(** ** Buffers *)

Section BufferFacts.
Import Codec.

Lemma firstn_repeat (x : byte) (n k : nat) :
  firstn n (repeat x k) = repeat x (Nat.min n k).
Proof.
  revert k; induction n as [|n IH]; intros [|k]; simpl; auto.
  now rewrite IH.
Qed.

Lemma skipn_repeat (x : byte) (n k : nat) :
  skipn n (repeat x k) = repeat x (k - n).
Proof.
  revert k; induction n as [|n IH]; intros [|k]; simpl; auto.
Qed.

Lemma bytes_of_string_length (s : string) :
  List.length (bytes_of_string s) = String.length s.
Proof.
  unfold bytes_of_string. rewrite length_map.
  induction s as [|c s IH]; simpl; auto.
Qed.

Lemma int32_bytes_length (v : Z) : List.length (int32_bytes v) = 4%nat.
Proof. reflexivity. Qed.

Lemma int64_bytes_length (v : Z) : List.length (int64_bytes v) = 8%nat.
Proof. reflexivity. Qed.

Lemma store_length (d : list byte) (off : nat) (bs : list byte) :
  List.length (store d off bs) = List.length d.
Proof.
  unfold store.
  rewrite length_firstn, !length_app, length_firstn, length_skipn. lia.
Qed.

(** A store into the zeroed rest of a buffer, [gap] bytes behind what was
    written so far. *)
Lemma store_zeros (w : list byte) (k : nat) (bs : list byte) (off gap : nat) :
  off = (List.length w + gap)%nat ->
  (gap + List.length bs <= k)%nat ->
  store (w ++ repeat 0 k) off bs
  = (w ++ repeat 0 gap ++ bs) ++ repeat 0 (k - gap - List.length bs).
Proof.
  intros -> Hfit. unfold store.
  rewrite firstn_app_2, firstn_repeat.
  replace (Nat.min gap k) with gap by lia.
  rewrite skipn_app, skipn_all2 by lia. simpl.
  rewrite skipn_repeat.
  replace (List.length w + gap + List.length bs - List.length w)%nat
    with (gap + List.length bs)%nat by lia.
  replace (k - (gap + List.length bs))%nat with (k - gap - List.length bs)%nat by lia.
  rewrite <- !app_assoc.
  apply firstn_all2.
  rewrite !length_app, !repeat_length. lia.
Qed.

(** The same when the store runs over the end of the buffer. *)
Lemma store_zeros_cut (w : list byte) (k : nat) (bs : list byte) (off gap : nat) :
  off = (List.length w + gap)%nat ->
  (gap <= k)%nat ->
  (k <= gap + List.length bs)%nat ->
  store (w ++ repeat 0 k) off bs = w ++ repeat 0 gap ++ firstn (k - gap) bs.
Proof.
  intros -> Hgap Hcut. unfold store.
  rewrite firstn_app_2, firstn_repeat.
  replace (Nat.min gap k) with gap by lia.
  rewrite (skipn_all2 (n := (List.length w + gap + List.length bs)%nat))
    by (rewrite length_app, repeat_length; lia).
  rewrite app_nil_r, length_app, repeat_length, <- app_assoc.
  rewrite firstn_app_2.
  f_equal.
  rewrite firstn_app, repeat_length.
  rewrite firstn_all2 by (rewrite repeat_length; lia).
  reflexivity.
Qed.

(** A string stored into the zeroed rest: its NUL falls on a zero byte or
    behind the end of the buffer. *)
Lemma store_string_zeros (w : list byte) (k : nat) (s : list byte) (off gap : nat) :
  off = (List.length w + gap)%nat ->
  (gap + List.length s <= k)%nat ->
  store (w ++ repeat 0 k) off (s ++ [0])
  = (w ++ repeat 0 gap ++ s) ++ repeat 0 (k - gap - List.length s).
Proof.
  intros Hoff Hfit.
  destruct (Nat.eq_dec (k - gap - List.length s) 0) as [Hz|Hnz].
  - rewrite (store_zeros_cut w k (s ++ [0]) off gap Hoff)
      by (rewrite ?length_app; simpl; lia).
    rewrite Hz. simpl. rewrite app_nil_r.
    replace (k - gap)%nat with (List.length s + 0)%nat by lia.
    rewrite firstn_app_2. simpl. now rewrite app_nil_r.
  - rewrite (store_zeros w k (s ++ [0]) off gap Hoff)
      by (rewrite length_app; simpl; lia).
    rewrite length_app. simpl List.length.
    replace (k - gap - List.length s)%nat
      with (S (k - gap - (List.length s + 1)))%nat by lia.
    simpl repeat. rewrite <- !app_assoc. reflexivity.
Qed.

End BufferFacts.

(** ** Protocol messages *)

Section MessageLayout.
Import Codec Message.

Ltac len :=
  repeat rewrite ?length_app, ?repeat_length, ?bytes_of_string_length,
                 ?int32_bytes_length;
  simpl List.length; simpl String.length; lia.

(** The bytes of the startup message without replication. *)
Lemma startup_message_bytes (username database : string) :
  let r := pgvictoria_create_startup_message username database false in
  let m := snd r in
  fst r = MESSAGE_STATUS_OK /\
  kind m = 0 /\
  length m = Z.of_nat (List.length (data m)) /\
  data m = int32_bytes (length m) ++ int32_bytes 196608
           ++ bytes_of_string "user" ++ [0]
           ++ bytes_of_string username ++ [0]
           ++ bytes_of_string "database" ++ [0]
           ++ bytes_of_string database ++ [0]
           ++ bytes_of_string "application_name" ++ [0]
           ++ bytes_of_string "pgvictoria".
Proof.
  cbv zeta. unfold pgvictoria_create_startup_message.
  set (us := String.length username). set (ds := String.length database).
  remember (4 + 4 + 4 + 1 + us + 1 + 8 + 1 + ds + 1 + 17 + 9 + 1)%nat as size eqn:Hsize.
  cbn [fst snd set_data set_kind allocate_message kind length data].
  unfold pgvictoria_write_int32, pgvictoria_write_string.
  assert (Hdata :
    store (store (store (store (store (store (store (store (repeat 0 size)
      0 (int32_bytes (Z.of_nat size)))
      4 (int32_bytes 196608))
      8 (bytes_of_string "user" ++ [0]))
      13 (bytes_of_string username ++ [0]))
      (13 + us + 1) (bytes_of_string "database" ++ [0]))
      (13 + us + 1 + 9) (bytes_of_string database ++ [0]))
      (13 + us + 1 + 9 + ds + 1) (bytes_of_string "application_name" ++ [0]))
      (13 + us + 1 + 9 + ds + 1 + 17) (bytes_of_string "pgvictoria" ++ [0])
    = int32_bytes (Z.of_nat size) ++ int32_bytes 196608
      ++ bytes_of_string "user" ++ [0]
      ++ bytes_of_string username ++ [0]
      ++ bytes_of_string "database" ++ [0]
      ++ bytes_of_string database ++ [0]
      ++ bytes_of_string "application_name" ++ [0]
      ++ bytes_of_string "pgvictoria").
  { change (repeat 0 size) with ([] ++ repeat 0 size).
    rewrite (store_zeros [] size _ 0 0) by len.
    rewrite (store_zeros _ _ (int32_bytes 196608) 4 0) by len.
    rewrite (store_zeros _ _ (bytes_of_string "user" ++ [0]) 8 0) by len.
    rewrite (store_zeros _ _ (bytes_of_string username ++ [0]) 13 0)
      by (fold us; len).
    rewrite (store_zeros _ _ (bytes_of_string "database" ++ [0]) _ 0)
      by (fold us; len).
    rewrite (store_zeros _ _ (bytes_of_string database ++ [0]) _ 0)
      by (fold us; fold ds; len).
    rewrite (store_zeros _ _ (bytes_of_string "application_name" ++ [0]) _ 0)
      by (fold us; fold ds; len).
    rewrite (store_zeros_cut _ _ (bytes_of_string "pgvictoria" ++ [0]) _ 0)
      by (fold us; fold ds; len).
    match goal with
    | |- context [firstn ?k (bytes_of_string "pgvictoria" ++ [0])] =>
        replace k with 10%nat by (fold us; fold ds; len)
    end.
    simpl repeat. simpl firstn.
    rewrite <- !app_assoc. reflexivity. }
  rewrite Hdata.
  repeat split.
  rewrite !length_app, !bytes_of_string_length, !int32_bytes_length.
  simpl List.length. simpl String.length. fold us. fold ds. lia.
Qed.

(** C3 (as the code has it).  For every user name and database,
    [pgvictoria_create_startup_message] without replication returns an
    untagged frame that starts with an i32 equal to the size of the whole
    frame, followed by the i32 protocol 196608, the NUL-terminated strings
    [user], the user name, [database], the database name and
    [application_name], and the bytes of [pgvictoria]. *)
Theorem startup_message_layout (username database : string) :
  let r := pgvictoria_create_startup_message username database false in
  let m := snd r in
  fst r = MESSAGE_STATUS_OK /\
  kind m = 0 /\
  length m = Z.of_nat (List.length (data m)) /\
  exists rest : list byte,
    data m = int32_bytes (length m) ++ int32_bytes 196608
             ++ bytes_of_string "user" ++ [0]
             ++ bytes_of_string username ++ [0]
             ++ bytes_of_string "database" ++ [0]
             ++ bytes_of_string database ++ [0]
             ++ bytes_of_string "application_name" ++ [0]
             ++ bytes_of_string "pgvictoria" ++ rest.
Proof.
  cbv zeta.
  destruct (startup_message_bytes username database) as (H1 & H2 & H3 & H4).
  repeat split; auto.
  exists []. rewrite H4 at 1. now rewrite !app_nil_r.
Qed.

(** C3, the claim as it stands, at [alice] and [db]: the frame is not 47
    bytes long, and it does not end in the NUL of [pgvictoria] and the NUL
    that closes the parameter list. *)
Lemma startup_message_alice_db_not_as_claimed :
  let m := snd (pgvictoria_create_startup_message "alice" "db" false) in
  length m <> 47 /\
  data m <> int32_bytes (length m) ++ int32_bytes 196608
            ++ bytes_of_string "user" ++ [0]
            ++ bytes_of_string "alice" ++ [0]
            ++ bytes_of_string "database" ++ [0]
            ++ bytes_of_string "db" ++ [0]
            ++ bytes_of_string "application_name" ++ [0]
            ++ bytes_of_string "pgvictoria" ++ [0]
            ++ [0].
Proof.
  split; vm_compute; discriminate.
Qed.

Example startup_message_alice_db :
  let m := snd (pgvictoria_create_startup_message "alice" "db" false) in
  length m = 58 /\
  pgvictoria_read_int32 (data m) = 58 /\
  pgvictoria_read_int32 (at_offset (data m) 4) = 196608 /\
  string_of_bytes (at_offset (data m) 48) = "pgvictoria"%string.
Proof. vm_compute. repeat split. Qed.

(** C4 (as the code has it).  For every client nonce,
    [pgvictoria_create_auth_scram256_response] returns a ['p'] frame of
    [31 + strlen(nonce)] bytes: the tag, the i32 frame length,
    ["SCRAM-SHA-256"] and its NUL, three zero bytes, the nine bytes
    [" n,,n=,r="] and the nonce, with no NUL behind it.  The four bytes behind
    the mechanism name, the three zero bytes and the blank, read as the i32
    32 whatever the nonce is. *)
Theorem scram256_response_layout (nounce : string) :
  let r := pgvictoria_create_auth_scram256_response nounce in
  let m := snd r in
  fst r = MESSAGE_STATUS_OK /\
  kind m = chr "p" /\
  length m = Z.of_nat (List.length (data m)) /\
  length m = 31 + Z.of_nat (String.length nounce) /\
  data m = [chr "p"] ++ int32_bytes (length m - 1)
           ++ bytes_of_string "SCRAM-SHA-256" ++ [0]
           ++ [0; 0; 0]
           ++ bytes_of_string " n,,n=,r="
           ++ bytes_of_string nounce /\
  pgvictoria_read_int32 (at_offset (data m) 19) = 32.
Proof.
  cbv zeta. unfold pgvictoria_create_auth_scram256_response.
  set (n := String.length nounce).
  remember (1 + 4 + 13 + 4 + 9 + n)%nat as size eqn:Hsize.
  cbn [fst snd set_data set_kind allocate_message kind length data].
  unfold pgvictoria_write_byte, pgvictoria_write_int32, pgvictoria_write_string.
  assert (Hdata :
    store (store (store (store (store (repeat 0 size)
      0 [chr "p"])
      1 (int32_bytes (Z.of_nat size - 1)))
      5 (bytes_of_string "SCRAM-SHA-256" ++ [0]))
      22 (bytes_of_string " n,,n=,r=" ++ [0]))
      31 (bytes_of_string nounce ++ [0])
    = [chr "p"] ++ int32_bytes (Z.of_nat size - 1)
      ++ bytes_of_string "SCRAM-SHA-256" ++ [0]
      ++ [0; 0; 0]
      ++ bytes_of_string " n,,n=,r="
      ++ bytes_of_string nounce).
  { change (repeat 0 size) with ([] ++ repeat 0 size).
    rewrite (store_zeros [] size _ 0 0) by len.
    rewrite (store_zeros _ _ (int32_bytes (Z.of_nat size - 1)) 1 0) by len.
    rewrite (store_string_zeros _ _ (bytes_of_string "SCRAM-SHA-256") 5 0) by len.
    rewrite (store_string_zeros _ _ (bytes_of_string " n,,n=,r=") 22 4) by len.
    rewrite (store_string_zeros _ _ (bytes_of_string nounce) 31 0)
      by (fold n; len).
    match goal with
    | |- context [repeat 0 (?a - ?b)%nat] =>
        replace (a - b)%nat with 0%nat by (fold n; len)
    end.
    simpl repeat.
    rewrite <- !app_assoc. simpl. rewrite app_nil_r. reflexivity. }
  rewrite Hdata.
  assert (Hlen : Z.of_nat size
                 = Z.of_nat (List.length
                     ([chr "p"] ++ int32_bytes (Z.of_nat size - 1)
                      ++ bytes_of_string "SCRAM-SHA-256" ++ [0] ++ [0; 0; 0]
                      ++ bytes_of_string " n,,n=,r=" ++ bytes_of_string nounce))).
  { rewrite !length_app, !bytes_of_string_length, !int32_bytes_length.
    simpl List.length. simpl String.length. fold n. lia. }
  repeat split; try exact Hlen; lia.
Qed.

(** C4, the claim as it stands, at the nonce of 20 bytes: the i32 behind the
    mechanism name is 32 and not [9 + 20]. *)
Lemma scram256_response_length_field_not_29 :
  let m := snd (pgvictoria_create_auth_scram256_response "rOprNGfwEbeRWgbNEkqO") in
  pgvictoria_read_int32 (at_offset (data m) 19)
  <> 9 + Z.of_nat (String.length "rOprNGfwEbeRWgbNEkqO").
Proof.
  vm_compute. discriminate.
Qed.

End MessageLayout.

(** ** Walking the frames of a buffer *)

Section FrameWalk.
Import Codec Message Wire.

Lemma wrap_small (bits v : Z) : 0 <= v < 2 ^ bits -> wrap bits v = v.
Proof. intros H. unfold wrap. now apply Z.mod_small. Qed.

Lemma read_int32_int32_bytes (v : Z) (rest : list byte) :
  - 2 ^ 31 <= v < 2 ^ 31 ->
  pgvictoria_read_int32 (int32_bytes v ++ rest) = v.
Proof.
  intros Hv. unfold pgvictoria_read_int32, int32_bytes, signed.
  cbn [app nth].
  set (u := wrap 32 v).
  assert (Hu : 0 <= u < 2 ^ 32) by (apply Z.mod_pos_bound; lia).
  assert (Huv : u = v \/ u = v + 2 ^ 32).
  { subst u. unfold wrap. change (2 ^ 32) with 4294967296 in *.
    change (2 ^ 31) with 2147483648 in *.
    Z.to_euclidean_division_equations. lia. }
  assert (Hsum : u / 16777216 * 16777216 + u / 65536 mod 256 * 65536
                 + u / 256 mod 256 * 256 + u mod 256 = u).
  { Z.to_euclidean_division_equations. lia. }
  rewrite Hsum, (wrap_small 32 u) by lia.
  change (2 ^ (32 - 1)) with (2 ^ 31).
  change (2 ^ 32) with 4294967296 in *.
  change (2 ^ 31) with 2147483648 in *.
  destruct (Z.ltb_spec u 2147483648); lia.
Qed.

Lemma encode_frame_length (f : frame) :
  Z.of_nat (List.length (encode_frame f)) = 1 + frame_length f.
Proof.
  unfold encode_frame, frame_length. cbn [List.length].
  rewrite length_app, int32_bytes_length. lia.
Qed.

Lemma frame_length_pos (f : frame) : 4 <= frame_length f.
Proof. unfold frame_length. lia. Qed.

Lemma encode_frames_cons (f : frame) (fs : list frame) :
  encode_frames (f :: fs) = encode_frame f ++ encode_frames fs.
Proof. reflexivity. Qed.

Lemma encode_frames_app (fs gs : list frame) :
  encode_frames (fs ++ gs) = encode_frames fs ++ encode_frames gs.
Proof. unfold encode_frames. apply flat_map_app. Qed.

Lemma frames_not_longer (fs : list frame) :
  (List.length fs <= List.length (encode_frames fs))%nat.
Proof.
  induction fs as [|f fs IH]; simpl; [lia|].
  rewrite length_app. lia.
Qed.

Lemma ptr_at (pre rest : list byte) :
  ptr (pre ++ rest) (Z.of_nat (List.length pre)) = rest.
Proof.
  unfold ptr, at_offset. rewrite Nat2Z.id, skipn_app, skipn_all, Nat.sub_diag.
  reflexivity.
Qed.

(** The facts about one step over a frame [f] that sits at [offset]. *)
Section Step.
Variables (pre : list byte) (f : frame) (rest : list byte).
Let data := pre ++ encode_frame f ++ rest.
Let offset := Z.of_nat (List.length pre).
Hypothesis Hok : frame_ok f.
Hypothesis Hsize : Z.of_nat (List.length data) < 2 ^ 64.

Lemma step_bounds : 0 <= offset /\ offset + 1 + frame_length f <= Z.of_nat (List.length data).
Proof.
  subst data offset. rewrite !length_app.
  pose proof (encode_frame_length f). lia.
Qed.

Lemma step_read_byte : pgvictoria_read_byte (ptr data offset) = tag f.
Proof. subst data offset. rewrite ptr_at. reflexivity. Qed.

Lemma step_offset1 : size_t_add offset 1 = offset + 1.
Proof.
  pose proof step_bounds. pose proof (frame_length_pos f).
  unfold size_t_add. apply wrap_small. lia.
Qed.

Lemma step_ptr1 :
  ptr data (offset + 1) = int32_bytes (frame_length f) ++ payload f ++ rest.
Proof.
  subst data offset.
  replace (Z.of_nat (List.length pre) + 1)
    with (Z.of_nat (List.length (pre ++ [tag f]))) by (rewrite length_app; simpl; lia).
  unfold encode_frame.
  change (pre ++ (tag f :: int32_bytes (frame_length f) ++ payload f) ++ rest)
    with (pre ++ [tag f] ++ (int32_bytes (frame_length f) ++ payload f) ++ rest).
  rewrite app_assoc, ptr_at, <- app_assoc. reflexivity.
Qed.

Lemma step_read_length :
  pgvictoria_read_int32 (ptr data (offset + 1)) = frame_length f.
Proof.
  rewrite step_ptr1. apply read_int32_int32_bytes.
  pose proof (frame_length_pos f). unfold frame_ok in Hok. lia.
Qed.

Lemma step_next :
  size_t_add offset (1 + frame_length f)
  = Z.of_nat (List.length (pre ++ encode_frame f)).
Proof.
  pose proof step_bounds. pose proof (frame_length_pos f).
  unfold size_t_add. rewrite wrap_small by lia.
  rewrite length_app. pose proof (encode_frame_length f). subst offset. lia.
Qed.

Lemma step_next' :
  size_t_add (offset + 1) (frame_length f)
  = Z.of_nat (List.length (pre ++ encode_frame f)).
Proof. rewrite <- step_next. unfold size_t_add. f_equal. lia. Qed.

Lemma step_extract :
  pgvictoria_extract_message_offset offset data
  = (Z.of_nat (List.length (pre ++ encode_frame f)), message_of_frame f).
Proof.
  unfold pgvictoria_extract_message_offset.
  rewrite step_read_byte, step_read_length, step_next.
  unfold message_of_frame. do 2 f_equal.
  subst data offset. rewrite ptr_at.
  rewrite <- encode_frame_length, Nat2Z.id.
  rewrite firstn_app, Nat.sub_diag, firstn_all. cbn [firstn]. apply app_nil_r.
Qed.

End Step.

Lemma span_bounds (lo hi offset : Z) (k : nat) :
  lo <= offset -> offset + Z.of_nat k <= hi ->
  Forall (fun o => lo <= o < hi) (span offset k).
Proof.
  intros Hlo Hhi. unfold span. apply Forall_forall. intros o Ho.
  apply in_map_iff in Ho. destruct Ho as (i & <- & Hi).
  apply in_seq in Hi. lia.
Qed.

(** [pgvictoria_has_message] from a frame boundary on. *)
Lemma has_message_scan_frames (type : byte) (fs : list frame) :
  forall (pre : list byte) (fuel : nat),
    Forall frame_ok fs ->
    (List.length fs < fuel)%nat ->
    Z.of_nat (List.length (pre ++ encode_frames fs)) < 2 ^ 64 ->
    let data := pre ++ encode_frames fs in
    let n := Z.of_nat (List.length data) in
    let run := has_message_scan fuel type data n (Z.of_nat (List.length pre)) in
    fst run = Some (existsb (has_tag type) fs) /\
    Forall (fun o => Z.of_nat (List.length pre) <= o < n) (snd run).
Proof.
  induction fs as [|f fs IH]; intros pre fuel Hok Hfuel Hsize; cbv zeta;
    (destruct fuel as [|fuel]; [simpl in Hfuel; lia|]); cbn [has_message_scan].
  - simpl encode_frames. rewrite app_nil_r, Z.ltb_irrefl. simpl. auto.
  - rewrite encode_frames_cons in *.
    inversion Hok as [|? ? Hf Hfs]; subst.
    pose proof (step_bounds pre f (encode_frames fs)) as Hb.
    pose proof (frame_length_pos f) as Hpos.
    cbv zeta in Hb.
    replace (Z.of_nat (List.length pre)
             <? Z.of_nat (List.length (pre ++ encode_frame f ++ encode_frames fs)))
      with true by (symmetry; apply Z.ltb_lt; lia).
    rewrite step_read_byte.
    cbn [existsb]. unfold has_tag at 1.
    destruct (type =? tag f) eqn:Htag; cbn [orb].
    + destruct (type =? chr "E"); cbn [fst snd]; split; auto.
      * constructor; [lia|].
        unfold extract_message_offset_reads.
        rewrite step_read_length by assumption.
        constructor; [lia|].
        apply Forall_app; split; apply span_bounds; try lia.
      * constructor; [lia|constructor].
    + rewrite (step_offset1 pre f (encode_frames fs)) by assumption.
      rewrite step_read_length by assumption.
      rewrite (step_next' pre f (encode_frames fs)) by assumption.
      specialize (IH (pre ++ encode_frame f) fuel Hfs).
      rewrite <- app_assoc in IH.
      specialize (IH ltac:(simpl in Hfuel; lia) Hsize). cbv zeta in IH.
      destruct (has_message_scan fuel type
                  (pre ++ encode_frame f ++ encode_frames fs)
                  (Z.of_nat (List.length (pre ++ encode_frame f ++ encode_frames fs)))
                  (Z.of_nat (List.length (pre ++ encode_frame f))))
        as [r reads].
      cbn [fst snd] in *. destruct IH as [IHr IHreads]. split; auto.
      constructor; [lia|].
      apply Forall_app; split.
      * apply span_bounds; lia.
      * eapply Forall_impl; [|exact IHreads].
        intros o Ho. cbv beta in Ho. rewrite length_app in Ho.
        pose proof (encode_frame_length f). lia.
Qed.

Lemma has_message_value (type : byte) (fs : list frame) :
  Forall frame_ok fs ->
  Z.of_nat (List.length (encode_frames fs)) < 2 ^ 64 ->
  pgvictoria_has_message type (encode_frames fs)
    (Z.of_nat (List.length (encode_frames fs)))
  = Some (existsb (has_tag type) fs).
Proof.
  intros Hok Hsize.
  unfold pgvictoria_has_message, has_message_traced.
  apply (has_message_scan_frames type fs []); auto.
  rewrite Nat2Z.id. pose proof (frames_not_longer fs). simpl. lia.
Qed.

(** [pgvictoria_extract_message_from_data] from a frame boundary on. *)
Lemma extract_from_data_scan_frames (type : byte) (fs : list frame) :
  forall (pre : list byte) (fuel : nat),
    Forall frame_ok fs ->
    (List.length fs < fuel)%nat ->
    Z.of_nat (List.length (pre ++ encode_frames fs)) < 2 ^ 64 ->
    extract_message_from_data_scan fuel type (pre ++ encode_frames fs)
      (Z.of_nat (List.length (pre ++ encode_frames fs)))
      (Z.of_nat (List.length pre))
    = Some (option_map message_of_frame (find (has_tag type) fs)).
Proof.
  induction fs as [|f fs IH]; intros pre fuel Hok Hfuel Hsize;
    (destruct fuel as [|fuel]; [simpl in Hfuel; lia|]);
    cbn [extract_message_from_data_scan].
  - simpl encode_frames. rewrite app_nil_r, Z.ltb_irrefl. reflexivity.
  - rewrite encode_frames_cons in *.
    inversion Hok as [|? ? Hf Hfs]; subst.
    pose proof (step_bounds pre f (encode_frames fs)) as Hb.
    pose proof (frame_length_pos f) as Hpos.
    cbv zeta in Hb.
    replace (Z.of_nat (List.length pre)
             <? Z.of_nat (List.length (pre ++ encode_frame f ++ encode_frames fs)))
      with true by (symmetry; apply Z.ltb_lt; lia).
    rewrite step_read_byte.
    cbn [find]. unfold has_tag at 1.
    destruct (type =? tag f) eqn:Htag.
    + rewrite step_extract by assumption. reflexivity.
    + rewrite (step_offset1 pre f (encode_frames fs)) by assumption.
      rewrite step_read_length by assumption.
      rewrite (step_next' pre f (encode_frames fs)) by assumption.
      specialize (IH (pre ++ encode_frame f) fuel Hfs).
      rewrite <- app_assoc in IH.
      apply IH; [simpl in Hfuel; lia | exact Hsize].
Qed.

Lemma extract_from_data_frames (type : byte) (fs : list frame) :
  Forall frame_ok fs ->
  Z.of_nat (List.length (encode_frames fs)) < 2 ^ 64 ->
  pgvictoria_extract_message_from_data type (encode_frames fs)
    (Z.of_nat (List.length (encode_frames fs)))
  = Some (option_map message_of_frame (find (has_tag type) fs)).
Proof.
  intros Hok Hsize. unfold pgvictoria_extract_message_from_data.
  apply (extract_from_data_scan_frames type fs []); auto.
  rewrite Nat2Z.id. pose proof (frames_not_longer fs). simpl. lia.
Qed.

(** The tuples of the DataRow frames, in the order of the frames. *)
Lemma collect_tuples_frames (cols : Z) (fs : list frame) :
  forall (pre : list byte) (fuel : nat) (acc : list tuple),
    Forall frame_ok fs ->
    (List.length fs < fuel)%nat ->
    Z.of_nat (List.length (pre ++ encode_frames fs)) < 2 ^ 64 ->
    collect_tuples fuel cols (pre ++ encode_frames fs)
      (Z.of_nat (List.length (pre ++ encode_frames fs)))
      (Z.of_nat (List.length pre)) acc
    = Some (acc ++ map (fun f => create_D_tuple cols (message_of_frame f))
                       (filter (has_tag (chr "D")) fs)).
Proof.
  induction fs as [|f fs IH]; intros pre fuel acc Hok Hfuel Hsize;
    (destruct fuel as [|fuel]; [simpl in Hfuel; lia|]);
    cbn [collect_tuples].
  - simpl encode_frames. rewrite app_nil_r, Z.ltb_irrefl. simpl.
    now rewrite app_nil_r.
  - rewrite encode_frames_cons in *.
    inversion Hok as [|? ? Hf Hfs]; subst.
    pose proof (step_bounds pre f (encode_frames fs)) as Hb.
    pose proof (frame_length_pos f) as Hpos.
    cbv zeta in Hb.
    replace (Z.of_nat (List.length pre)
             <? Z.of_nat (List.length (pre ++ encode_frame f ++ encode_frames fs)))
      with true by (symmetry; apply Z.ltb_lt; lia).
    rewrite step_extract by assumption.
    cbn [kind message_of_frame filter]. unfold has_tag at 1.
    rewrite (Z.eqb_sym (chr "D") (tag f)).
    specialize (IH (pre ++ encode_frame f) fuel).
    rewrite <- app_assoc in IH.
    destruct (tag f =? chr "D").
    + rewrite IH by (auto; simpl in Hfuel; lia).
      cbn [map]. now rewrite <- app_assoc.
    + rewrite IH by (auto; simpl in Hfuel; lia). reflexivity.
Qed.

Lemma find_existsb (type : byte) (fs : list frame) :
  existsb (has_tag type) fs
  = match find (has_tag type) fs with Some _ => true | None => false end.
Proof.
  induction fs as [|f fs IH]; simpl; auto.
  destruct (has_tag type f); auto.
Qed.

(** [pgvictoria_has_message] on a buffer that ends inside a frame, behind
    its header. *)
Lemma has_message_scan_open (type : byte) (f : frame) (part rest : list byte)
    (fs : list frame) :
  forall (pre : list byte) (fuel : nat),
    Forall frame_ok fs ->
    frame_ok f ->
    type <> tag f ->
    payload f = part ++ rest ->
    (S (List.length fs) < fuel)%nat ->
    Z.of_nat (List.length (pre ++ encode_frames fs ++ encode_frame f)) < 2 ^ 64 ->
    let data := pre ++ encode_frames fs ++ frame_part f part in
    fst (has_message_scan fuel type data (Z.of_nat (List.length data))
                          (Z.of_nat (List.length pre)))
    = Some (existsb (has_tag type) fs).
Proof.
  induction fs as [|g fs IH]; intros pre fuel Hok Hf Htag Hpayload Hfuel Hsize;
    cbv zeta;
    (destruct fuel as [|fuel]; [simpl in Hfuel; lia|]); cbn [has_message_scan].
  - cbn [encode_frames flat_map app existsb] in *.
    assert (Hlen : Z.of_nat (List.length (pre ++ frame_part f part))
                   = Z.of_nat (List.length pre) + 5 + Z.of_nat (List.length part)).
    { unfold frame_part. rewrite length_app. cbn [List.length].
      rewrite length_app, int32_bytes_length. lia. }
    assert (Hwhole : Z.of_nat (List.length (pre ++ encode_frame f))
                     = Z.of_nat (List.length pre) + 1 + frame_length f).
    { rewrite length_app, Nat2Z.inj_add, encode_frame_length. lia. }
    assert (Hframe : frame_length f
                     = 4 + Z.of_nat (List.length part) + Z.of_nat (List.length rest)).
    { unfold frame_length. rewrite Hpayload, length_app. lia. }
    rewrite Hlen.
    replace (Z.of_nat (List.length pre)
             <? Z.of_nat (List.length pre) + 5 + Z.of_nat (List.length part))
      with true by (symmetry; apply Z.ltb_lt; lia).
    rewrite ptr_at. unfold frame_part at 1. cbn [pgvictoria_read_byte nth].
    apply Z.eqb_neq in Htag. rewrite Htag.
    assert (Hoffset1 : size_t_add (Z.of_nat (List.length pre)) 1
                       = Z.of_nat (List.length pre) + 1).
    { unfold size_t_add. apply wrap_small. lia. }
    rewrite Hoffset1.
    assert (Hptr : ptr (pre ++ frame_part f part) (Z.of_nat (List.length pre) + 1)
                   = int32_bytes (frame_length f) ++ part).
    { replace (Z.of_nat (List.length pre) + 1)
        with (Z.of_nat (List.length (pre ++ [tag f])))
        by (rewrite length_app; simpl; lia).
      unfold frame_part.
      change (pre ++ tag f :: int32_bytes (frame_length f) ++ part)
        with (pre ++ [tag f] ++ int32_bytes (frame_length f) ++ part).
      rewrite app_assoc, ptr_at. reflexivity. }
    rewrite Hptr, read_int32_int32_bytes
      by (pose proof (frame_length_pos f); unfold frame_ok in Hf; lia).
    assert (Hoffset2 : size_t_add (Z.of_nat (List.length pre) + 1) (frame_length f)
                       = Z.of_nat (List.length pre) + 1 + frame_length f).
    { unfold size_t_add. apply wrap_small. pose proof (frame_length_pos f). lia. }
    rewrite Hoffset2.
    destruct fuel as [|fuel]; [simpl in Hfuel; lia|]. cbn [has_message_scan].
    replace (Z.of_nat (List.length pre) + 1 + frame_length f
             <? Z.of_nat (List.length pre) + 5 + Z.of_nat (List.length part))
      with false by (symmetry; apply Z.ltb_ge; lia).
    reflexivity.
  - rewrite encode_frames_cons in *. rewrite <- !app_assoc in *.
    inversion Hok as [|? ? Hg Hfs]; subst.
    assert (Hdata : Z.of_nat (List.length
                                (pre ++ encode_frame g ++ encode_frames fs
                                 ++ frame_part f part)) < 2 ^ 64).
    { revert Hsize. rewrite !length_app. unfold frame_part, encode_frame.
      cbn [List.length]. rewrite !length_app, Hpayload, length_app. lia. }
    pose proof (step_bounds pre g (encode_frames fs ++ frame_part f part)) as Hb.
    pose proof (frame_length_pos g) as Hpos.
    cbv zeta in Hb.
    replace (Z.of_nat (List.length pre)
             <? Z.of_nat (List.length (pre ++ encode_frame g ++ encode_frames fs
                                       ++ frame_part f part)))
      with true by (symmetry; apply Z.ltb_lt; lia).
    rewrite step_read_byte.
    cbn [existsb]. unfold has_tag at 1.
    destruct (type =? tag g) eqn:Hg_tag; cbn [orb].
    + destruct (type =? chr "E"); reflexivity.
    + rewrite (step_offset1 pre g (encode_frames fs ++ frame_part f part))
        by assumption.
      rewrite step_read_length by assumption.
      rewrite (step_next' pre g (encode_frames fs ++ frame_part f part))
        by assumption.
      specialize (IH (pre ++ encode_frame g) fuel Hfs Hf).
      rewrite <- !app_assoc in IH.
      apply Z.eqb_neq in Htag.
      specialize (IH ltac:(apply Z.eqb_neq; exact Htag) Hpayload
                     ltac:(simpl in Hfuel; lia) Hsize).
      cbv zeta in IH.
      destruct (has_message_scan fuel type
                  (pre ++ encode_frame g ++ encode_frames fs ++ frame_part f part)
                  (Z.of_nat (List.length
                               (pre ++ encode_frame g ++ encode_frames fs
                                ++ frame_part f part)))
                  (Z.of_nat (List.length (pre ++ encode_frame g))))
        as [r reads].
      cbn [fst] in *. exact IH.
Qed.

Lemma has_message_open (type : byte) (fs : list frame) (f : frame)
    (part rest : list byte) :
  Forall frame_ok fs ->
  frame_ok f ->
  type <> tag f ->
  payload f = part ++ rest ->
  Z.of_nat (List.length (encode_frames fs ++ encode_frame f)) < 2 ^ 64 ->
  let data := encode_frames fs ++ frame_part f part in
  pgvictoria_has_message type data (Z.of_nat (List.length data))
  = Some (existsb (has_tag type) fs).
Proof.
  intros Hok Hf Htag Hpayload Hsize. cbv zeta.
  unfold pgvictoria_has_message, has_message_traced.
  apply (has_message_scan_open type f part rest fs []); auto.
  rewrite Nat2Z.id, length_app. unfold frame_part. cbn [List.length].
  rewrite length_app, int32_bytes_length.
  pose proof (frames_not_longer fs). lia.
Qed.

(** The accumulator behind a read that does not complete the stream shows
    no ReadyForQuery frame. *)
Lemma has_message_open_prefix (data : list byte) (fs : list frame) :
  open_prefix data fs ->
  Forall frame_ok fs ->
  Z.of_nat (List.length (encode_frames fs)) < 2 ^ 64 ->
  pgvictoria_has_message (chr "Z") data (Z.of_nat (List.length data)) = Some false.
Proof.
  intros (g & h & -> & Hz & Hdata) Hok Hsize.
  apply Forall_app in Hok. destruct Hok as [Hg Hh].
  rewrite encode_frames_app, length_app in Hsize.
  destruct Hdata as [-> | (f & h' & part & rest & -> & Htag & Hpayload & ->)].
  - rewrite has_message_value, Hz; auto. lia.
  - inversion Hh as [|? ? Hf Hh']; subst.
    rewrite (has_message_open (chr "Z") g f part rest), Hz; auto.
    rewrite encode_frames_cons, length_app in Hsize. rewrite length_app. lia.
Qed.

(** The read loop on reads that bring the stream piece by piece. *)
Lemma read_loop_delivers (replies : list read_result) (acc : list byte)
    (fs : list frame) :
  delivers replies acc fs ->
  Forall frame_ok fs ->
  Z.of_nat (List.length (encode_frames fs)) < 2 ^ 64 ->
  read_loop replies acc = Returns 0 (Some (encode_frames fs)).
Proof.
  intros Hd. induction Hd as [rest acc fs Hd IH | rest acc reply fs Hopen Hd IH
                             | rest acc reply fs Hdata Hz];
    intros Hok Hsize; cbn [read_loop].
  - auto.
  - rewrite (has_message_open_prefix _ fs Hopen Hok Hsize). auto.
  - rewrite Hdata, has_message_value, Hz; auto.
Qed.

End FrameWalk.

Section HasMessage.
Import Codec Message Wire.

(** C5.  On a buffer of [n] bytes that is a concatenation of well-formed
    tagged frames, [pgvictoria_has_message] returns, it returns true exactly
    when one of the frames carries the tag, and every offset of the buffer
    that it reads lies below [n]. *)
Theorem has_message_frames (type : byte) (fs : list frame) :
  Forall frame_ok fs ->
  let data := encode_frames fs in
  let n := Z.of_nat (List.length data) in
  n < 2 ^ 64 ->
  (exists b : bool,
      pgvictoria_has_message type data n = Some b /\
      (b = true <-> exists f, In f fs /\ tag f = type)) /\
  Forall (fun o => 0 <= o < n) (snd (has_message_traced type data n)).
Proof.
  intros Hok data n Hsize.
  pose proof (has_message_scan_frames type fs [] (S (Z.to_nat n)) Hok) as H.
  cbn [app List.length] in H.
  assert (Hfuel : (List.length fs < S (Z.to_nat n))%nat).
  { subst n data. rewrite Nat2Z.id. pose proof (frames_not_longer fs). lia. }
  specialize (H Hfuel Hsize). cbv zeta in H. destruct H as [Hr Hreads].
  split.
  - exists (existsb (has_tag type) fs). split; [exact Hr|].
    rewrite existsb_exists. unfold has_tag.
    split; intros (f & Hin & Hf); exists f; split; auto.
    + apply Z.eqb_eq in Hf. auto.
    + apply Z.eqb_eq. auto.
  - exact Hreads.
Qed.

Lemma has_message_frames_select_1 :
  (exists b : bool,
      pgvictoria_has_message (chr "Z") (encode_frames select_1_reply) 66 = Some b /\
      (b = true <-> exists f, In f select_1_reply /\ tag f = chr "Z")) /\
  Forall (fun o => 0 <= o < 66)
         (snd (has_message_traced (chr "Z") (encode_frames select_1_reply) 66)).
Proof.
  apply (has_message_frames (chr "Z") select_1_reply).
  - repeat constructor; vm_compute; reflexivity.
  - vm_compute. reflexivity.
Defined.

End HasMessage.

(** ** The query executor *)

Section QueryExecute.
Import Codec Message Wire.

(** *** Column names of an encoded RowDescription *)

Lemma read_string_bytes (bs rest : list byte) :
  ~ In 0 bs -> pgvictoria_read_string (bs ++ 0 :: rest) = bs.
Proof.
  induction bs as [|b bs IH]; intros Hnul; cbn [app pgvictoria_read_string].
  - reflexivity.
  - destruct (Z.eqb_spec b 0) as [->|Hb].
    + exfalso. apply Hnul. now left.
    + rewrite IH; [reflexivity|]. intros Hin. apply Hnul. now right.
Qed.

Lemma string_of_bytes_of_string (s : string) :
  string_of_bytes (bytes_of_string s) = s.
Proof.
  unfold string_of_bytes, bytes_of_string. rewrite map_map.
  rewrite <- (string_of_list_ascii_of_string s) at 2. f_equal.
  rewrite <- (map_id (list_ascii_of_string s)) at 2.
  apply map_ext. intros c. unfold ascii_of_byte.
  pose proof (N_ascii_bounded c) as Hc.
  rewrite Z.mod_small by lia.
  now rewrite N2Z.id, ascii_N_embedding.
Qed.

Lemma read_int16_int16_bytes (v : Z) (rest : list byte) :
  - 2 ^ 15 <= v < 2 ^ 15 ->
  pgvictoria_read_int16 (int16_bytes v ++ rest) = v.
Proof.
  intros Hv. unfold pgvictoria_read_int16, int16_bytes, signed.
  cbn [app nth].
  set (u := wrap 16 v).
  assert (Hu : 0 <= u < 2 ^ 16) by (apply Z.mod_pos_bound; lia).
  assert (Huv : u = v \/ u = v + 2 ^ 16).
  { subst u. unfold wrap. change (2 ^ 16) with 65536 in *.
    change (2 ^ 15) with 32768 in *.
    Z.to_euclidean_division_equations. lia. }
  assert (Hsum : u / 256 * 256 + u mod 256 = u).
  { Z.to_euclidean_division_equations. lia. }
  rewrite Hsum, (wrap_small 16 u) by lia.
  change (2 ^ (16 - 1)) with (2 ^ 15).
  change (2 ^ 16) with 65536 in *.
  change (2 ^ 15) with 32768 in *.
  destruct (Z.ltb_spec u 32768); lia.
Qed.

Lemma encode_field_length (c : string * list byte) :
  field_ok c ->
  Z.of_nat (List.length (encode_field c))
  = Z.of_nat (String.length (fst c)) + 1 + 4 + 2 + 4 + 2 + 4 + 2.
Proof.
  intros [_ Hlen]. unfold encode_field.
  rewrite !length_app, bytes_of_string_length, Hlen. cbn [List.length]. lia.
Qed.

Lemma read_string_field (c : string * list byte) (rest : list byte) :
  field_ok c ->
  pgvictoria_read_string (encode_field c ++ rest) = bytes_of_string (fst c).
Proof.
  intros [Hnul _]. unfold encode_field.
  rewrite <- !app_assoc. cbn [app]. now apply read_string_bytes.
Qed.

(** The name that [get_column_name] finds [k] columns behind a column
    boundary. *)
Lemma column_offset_fields (k : nat) :
  forall (columns : list (string * list byte)) (pre : list byte),
    Forall field_ok columns ->
    (k < List.length columns)%nat ->
    let data := pre ++ flat_map encode_field columns in
    pgvictoria_read_string
      (ptr data (column_offset k data (Z.of_nat (List.length pre))))
    = bytes_of_string (fst (nth k columns (""%string, []))).
Proof.
  induction k as [|k IH]; intros columns pre Hok Hk; cbv zeta;
    (destruct columns as [|c columns]; [cbn in Hk; lia|]);
    inversion Hok as [|? ? Hc Hcs]; subst;
    cbn [column_offset nth flat_map].
  - rewrite ptr_at. now apply read_string_field.
  - rewrite ptr_at, read_string_field by assumption.
    rewrite bytes_of_string_length.
    replace (Z.of_nat (List.length pre)
             + (Z.of_nat (String.length (fst c)) + 1) + 4 + 2 + 4 + 2 + 4 + 2)
      with (Z.of_nat (List.length (pre ++ encode_field c)))
      by (rewrite length_app, Nat2Z.inj_add, encode_field_length by assumption; lia).
    rewrite app_assoc.
    apply (IH columns (pre ++ encode_field c)); auto.
    cbn in Hk. lia.
Qed.

(** The bytes of the message of a RowDescription frame: seven bytes of tag,
    length and column count, and the fields. *)
Lemma row_description_data (columns : list (string * list byte)) :
  data (message_of_frame (row_description columns))
  = (chr "T" :: int32_bytes (frame_length (row_description columns))
       ++ int16_bytes (Z.of_nat (List.length columns)))
    ++ flat_map encode_field columns.
Proof.
  cbn [data message_of_frame]. unfold encode_frame, row_description.
  cbn [tag payload app]. now rewrite <- app_assoc.
Qed.

Lemma row_description_count (columns : list (string * list byte)) :
  Z.of_nat (List.length columns) < 2 ^ 15 ->
  pgvictoria_read_int16 (ptr (data (message_of_frame (row_description columns))) 5)
  = Z.of_nat (List.length columns).
Proof.
  intros Hcount. rewrite row_description_data.
  change 5 with (Z.of_nat (List.length
                   (chr "T" :: int32_bytes (frame_length (row_description columns))))).
  change ((chr "T" :: int32_bytes (frame_length (row_description columns))
           ++ int16_bytes (Z.of_nat (List.length columns)))
          ++ flat_map encode_field columns)
    with ((chr "T" :: int32_bytes (frame_length (row_description columns)))
          ++ int16_bytes (Z.of_nat (List.length columns))
          ++ flat_map encode_field columns).
  rewrite ptr_at. apply read_int16_int16_bytes. lia.
Qed.

(** [get_column_name] finds the names that were encoded into the frame. *)
Lemma get_column_name_encoded (columns : list (string * list byte)) (i : nat) :
  Forall field_ok columns ->
  Z.of_nat (List.length columns) < 2 ^ 15 ->
  (i < List.length columns)%nat ->
  get_column_name (message_of_frame (row_description columns)) (Z.of_nat i)
  = Some (bytes_of_string (fst (nth i columns (""%string, [])))).
Proof.
  intros Hok Hcount Hi. unfold get_column_name.
  rewrite row_description_count by assumption.
  cbn [kind message_of_frame row_description tag]. rewrite Z.eqb_refl.
  replace (Z.of_nat i <? Z.of_nat (List.length columns)) with true
    by (symmetry; apply Z.ltb_lt; lia).
  rewrite Nat2Z.id, row_description_data. f_equal.
  set (pre := chr "T" :: int32_bytes (frame_length (row_description columns))
              ++ int16_bytes (Z.of_nat (List.length columns))).
  change 7 with (Z.of_nat (List.length pre)).
  apply (column_offset_fields i columns pre); assumption.
Qed.

(** The loop over the columns of a RowDescription whose names fit the names
    table stores the names that were encoded into the frame. *)
Lemma column_names_encoded (columns : list (string * list byte)) (todo : nat) :
  forall i : nat,
    names_fit columns ->
    (i + todo <= List.length columns)%nat ->
    column_names (message_of_frame (row_description columns)) todo (Z.of_nat i)
    = Names (map (fun k => fst (nth k columns (""%string, []))) (seq i todo)).
Proof.
  induction todo as [|todo IH]; intros i Hfit Hi; cbn [column_names seq map].
  - reflexivity.
  - pose proof Hfit as (Hok & Hcount & Hshort).
    unfold MAX_NUMBER_OF_COLUMNS in Hcount.
    rewrite get_column_name_encoded by (auto; lia).
    replace (Z.of_nat i <? Z.of_nat MAX_NUMBER_OF_COLUMNS) with true
      by (symmetry; apply Z.ltb_lt; unfold MAX_NUMBER_OF_COLUMNS; lia).
    rewrite bytes_of_string_length.
    assert (Hname : (String.length (fst (nth i columns (""%string, [])))
                     < MISC_LENGTH)%nat).
    { rewrite Forall_forall in Hshort. apply Hshort. apply nth_In. lia. }
    apply Nat.ltb_lt in Hname. rewrite Hname. cbn [andb].
    replace (Z.of_nat i + 1) with (Z.of_nat (S i)) by lia.
    rewrite IH by (auto; lia).
    now rewrite string_of_bytes_of_string.
Qed.

Lemma string_of_list_ascii_length (l : list ascii) :
  String.length (string_of_list_ascii l) = List.length l.
Proof. induction l as [|c l IH]; cbn; [reflexivity | now rewrite IH]. Qed.

(** The rows that the loop stores are rows of the names table. *)
Lemma column_names_rows (rmsg : message) (todo : nat) :
  forall (i : Z) (rows : list string),
    0 <= i ->
    column_names rmsg todo i = Names rows ->
    Z.of_nat (List.length rows) <= Z.max 0 (Z.of_nat MAX_NUMBER_OF_COLUMNS - i) /\
    Forall (fun row => (String.length row < MISC_LENGTH)%nat) rows.
Proof.
  induction todo as [|todo IH]; intros i rows Hi; cbn [column_names].
  - intros Heq. injection Heq as <-. cbn [List.length]. split; [lia | constructor].
  - destruct (get_column_name rmsg i) as [name|]; [|discriminate].
    destruct (Z.ltb_spec i (Z.of_nat MAX_NUMBER_OF_COLUMNS)) as [Hrow|Hrow];
      cbn [andb].
    + destruct (Nat.ltb_spec (List.length name) MISC_LENGTH) as [Hname|Hname].
      * destruct (column_names rmsg todo (i + 1)) as [rest| |] eqn:Hrest;
          try discriminate.
        intros Heq. injection Heq as <-.
        destruct (IH (i + 1) rest ltac:(lia) Hrest) as [Hcount Hrows].
        cbn [List.length]. split; [lia|].
        constructor; [|exact Hrows].
        unfold string_of_bytes. rewrite string_of_list_ascii_length, length_map.
        exact Hname.
      * destruct (List.length name =? 0)%nat; [|discriminate].
        intros Hrest. destruct (IH (i + 1) rows ltac:(lia) Hrest) as [Hcount Hrows].
        split; [lia | exact Hrows].
    + destruct (List.length name =? 0)%nat; [|discriminate].
      intros Hrest. destruct (IH (i + 1) rows ltac:(lia) Hrest) as [Hcount Hrows].
      split; [lia | exact Hrows].
Qed.

Lemma map_nth_seq (columns : list (string * list byte)) :
  map (fun k => fst (nth k columns (""%string, []))) (seq 0 (List.length columns))
  = map fst columns.
Proof.
  induction columns as [|c columns IH]; cbn [List.length seq map nth].
  - reflexivity.
  - f_equal. rewrite <- seq_shift, map_map. exact IH.
Qed.

(** The response to a reply whose frames hold no ErrorResponse and whose
    first RowDescription has names that fit the names table. *)
Lemma classify_row_description (fs : list frame)
    (columns : list (string * list byte)) :
  Forall frame_ok fs ->
  Z.of_nat (List.length (encode_frames fs)) < 2 ^ 64 ->
  existsb (has_tag (chr "E")) fs = false ->
  find (has_tag (chr "T")) fs = Some (row_description columns) ->
  names_fit columns ->
  classify_response (encode_frames fs) (Z.of_nat (List.length (encode_frames fs)))
  = Returns 0
      (Some (mkQueryResponse
               (map fst columns)
               (Z.of_nat (List.length columns))
               (map (fun f => create_D_tuple (Z.of_nat (List.length columns))
                                             (message_of_frame f))
                    (filter (has_tag (chr "D")) fs))
               false)).
Proof.
  intros Hok Hsize HnoE Ht Hfit. unfold classify_response.
  rewrite !has_message_value by assumption.
  rewrite HnoE.
  rewrite !extract_from_data_frames by assumption.
  rewrite (find_existsb (chr "T")), Ht. cbn [option_map].
  pose proof Hfit as (Hfields & Hcount & _). unfold MAX_NUMBER_OF_COLUMNS in Hcount.
  assert (Hcols : get_number_of_columns (message_of_frame (row_description columns))
                  = Z.of_nat (List.length columns)).
  { unfold get_number_of_columns.
    cbn [kind message_of_frame row_description tag]. rewrite Z.eqb_refl.
    apply row_description_count. lia. }
  cbv zeta. rewrite Hcols, Nat2Z.id.
  pose proof (column_names_encoded columns (List.length columns) 0 Hfit) as Hn.
  cbn [Z.of_nat] in Hn. rewrite Hn by lia.
  rewrite map_nth_seq.
  pose proof (collect_tuples_frames (Z.of_nat (List.length columns)) fs []
                (S (Z.to_nat (Z.of_nat (List.length (encode_frames fs))))) []) as Hc.
  cbn [app List.length Z.of_nat] in Hc.
  rewrite Hc; auto.
  rewrite Nat2Z.id. pose proof (frames_not_longer fs). lia.
Qed.

Lemma query_execute_delivers (replies : list read_result) (fs : list frame) :
  delivers replies [] fs ->
  Forall frame_ok fs ->
  Z.of_nat (List.length (encode_frames fs)) < 2 ^ 64 ->
  pgvictoria_query_execute MESSAGE_STATUS_OK replies
  = classify_response (encode_frames fs) (Z.of_nat (List.length (encode_frames fs))).
Proof.
  intros Hd Hok Hsize. unfold pgvictoria_query_execute.
  rewrite (read_loop_delivers replies [] fs Hd Hok Hsize). reflexivity.
Qed.

(** The cell of a CommandComplete frame whose payload is a tag string. *)
Lemma create_C_tuple_tag (c : frame) (s : string) :
  frame_ok c ->
  payload c = bytes_of_string s ++ [0] ->
  s <> ""%string ->
  create_C_tuple (message_of_frame c) = mkTuple [Some (bytes_of_string s)].
Proof.
  intros Hok Hpayload Hs. unfold create_C_tuple.
  cbn [data message_of_frame].
  pose proof (step_read_length [] c [] Hok) as Hlen.
  pose proof (step_ptr1 [] c []) as Hptr.
  cbn [app List.length Z.of_nat Z.add] in Hlen, Hptr.
  rewrite app_nil_r in Hlen, Hptr. rewrite Hlen.
  assert (Hn : frame_length c - 5 = Z.of_nat (String.length s)).
  { unfold frame_length. rewrite Hpayload, length_app, bytes_of_string_length.
    cbn [List.length]. lia. }
  rewrite Hn.
  assert (Hpos : (0 < String.length s)%nat).
  { destruct s; [congruence|simpl; lia]. }
  replace (Z.of_nat (String.length s) >? 0) with true
    by (symmetry; apply Z.gtb_lt; lia).
  do 3 f_equal.
  replace 5 with (Z.of_nat (List.length (tag c :: int32_bytes (frame_length c))))
    by reflexivity.
  unfold encode_frame.
  change (tag c :: int32_bytes (frame_length c) ++ payload c)
    with ((tag c :: int32_bytes (frame_length c)) ++ payload c).
  rewrite ptr_at, Hpayload, Nat2Z.id, <- bytes_of_string_length.
  rewrite firstn_app, Nat.sub_diag, firstn_all. simpl. apply app_nil_r.
Qed.


(** The reply to [SELECT 1;] in two reads with an empty one between them:
    the first read ends inside the DataRow frame, two bytes behind its
    header. *)
Lemma select_1_delivered :
  delivers [ReadOk (firstn 41 (encode_frames select_1_reply)); ReadZero;
            ReadOk (skipn 41 (encode_frames select_1_reply))]
           [] select_1_reply.
Proof.
  apply delivers_more.
  - exists [nth 0 select_1_reply (mkFrame 0 [])],
           (data_row [Some (bytes_of_string "1")]
              :: skipn 2 select_1_reply).
    split; [reflexivity|]. split; [reflexivity|]. right.
    exists (data_row [Some (bytes_of_string "1")]), (skipn 2 select_1_reply),
           [0; 1], [0; 0; 0; 1; 49].
    split; [reflexivity|]. split; [vm_compute; discriminate|].
    split; reflexivity.
  - apply delivers_zero. apply delivers_last; reflexivity.
Qed.


Example select_1_reply_bytes :
  encode_frames select_1_reply
  = [84; 0; 0; 0; 33; 0; 1; 63; 99; 111; 108; 117; 109; 110; 63; 0;
     0; 0; 0; 0; 0; 0; 0; 0; 0; 23; 0; 4; 255; 255; 255; 255; 0; 0;
     68; 0; 0; 0; 11; 0; 1; 0; 0; 0; 1; 49;
     67; 0; 0; 0; 13; 83; 69; 76; 69; 67; 84; 32; 49; 0;
     90; 0; 0; 0; 5; 73].
Proof. vm_compute. reflexivity. Qed.

(** A reply with three columns and two rows that arrives in three reads,
    the first ending inside the RowDescription and the second inside the
    second DataRow, four bytes behind its header. *)
Example query_execute_three_columns :
  let reply :=
    encode_frames
      [row_description [("id"%string, repeat 0 18); ("name"%string, repeat 0 18);
                        ("age"%string, repeat 0 18)];
       data_row [Some (bytes_of_string "1"); Some (bytes_of_string "ada"); None];
       data_row [Some (bytes_of_string "2"); Some []; Some (bytes_of_string "36")];
       mkFrame (chr "C") (bytes_of_string "SELECT 2" ++ [0]);
       mkFrame (chr "Z") [chr "I"]] in
  pgvictoria_query_execute MESSAGE_STATUS_OK
    [ReadOk (firstn 20 reply); ReadOk (firstn 85 (skipn 20 reply));
     ReadOk (skipn 105 reply)]
  = Returns 0
      (Some (mkQueryResponse
               ["id"%string; "name"%string; "age"%string] 3
               [mkTuple [Some (bytes_of_string "1"); Some (bytes_of_string "ada");
                         None];
                mkTuple [Some (bytes_of_string "2"); None;
                         Some (bytes_of_string "36")]]
               false)).
Proof. vm_compute. reflexivity. Qed.

(** A RowDescription of nine columns: the name of the ninth column is
    copied behind the names table.  The same holds for a column whose name
    has [MISC_LENGTH] bytes. *)
Example query_execute_nine_columns :
  pgvictoria_query_execute MESSAGE_STATUS_OK
    [ReadOk (encode_frames
               [row_description (repeat ("c"%string, repeat 0 18) 9);
                mkFrame (chr "Z") [chr "I"]])]
  = Overruns.
Proof. vm_compute. reflexivity. Qed.

Example query_execute_long_name :
  pgvictoria_query_execute MESSAGE_STATUS_OK
    [ReadOk (encode_frames
               [row_description
                  [(string_of_list_ascii (repeat "c"%char MISC_LENGTH), repeat 0 18)];
                mkFrame (chr "Z") [chr "I"]])]
  = Overruns.
Proof. vm_compute. reflexivity. Qed.

(** ** DataRow columns *)

Lemma D_columns_encoded (columns : list (option (list byte))) :
  forall pre : list byte,
    Forall column_ok columns ->
    D_columns (List.length columns) (pre ++ flat_map encode_column columns)
              (Z.of_nat (List.length pre))
    = map seen_column columns.
Proof.
  induction columns as [|c columns IH]; intros pre Hok; cbn [List.length D_columns map].
  - reflexivity.
  - inversion Hok as [|? ? Hc Hcs]; subst.
    cbn [flat_map]. rewrite ptr_at.
    destruct c as [v|]; cbn [encode_column column_ok] in *.
    + rewrite <- app_assoc, read_int32_int32_bytes by lia.
      replace (Z.of_nat (List.length pre) + 4)
        with (Z.of_nat (List.length (pre ++ int32_bytes (Z.of_nat (List.length v)))))
        by (rewrite length_app, int32_bytes_length; lia).
      rewrite (app_assoc pre), ptr_at.
      destruct v as [|b v].
      * cbn [List.length Z.of_nat Z.gtb Z.compare seen_column app].
        f_equal. rewrite <- (IH (pre ++ int32_bytes 0) Hcs).
        reflexivity.
      * replace (Z.of_nat (List.length (b :: v)) >? 0) with true
          by (symmetry; apply Z.gtb_lt; cbn [List.length]; lia).
        rewrite Nat2Z.id, firstn_app, Nat.sub_diag, firstn_all.
        cbn [firstn seen_column]. rewrite app_nil_r.
        f_equal.
        rewrite <- (IH ((pre ++ int32_bytes (Z.of_nat (List.length (b :: v))))
                        ++ b :: v) Hcs).
        f_equal.
        -- now rewrite <- !app_assoc.
        -- rewrite (length_app (pre ++ _) (b :: v)). lia.
    + rewrite read_int32_int32_bytes by lia.
      cbn [Z.gtb Z.compare seen_column].
      f_equal. rewrite <- (IH (pre ++ int32_bytes (-1)) Hcs).
      f_equal.
      * now rewrite <- !app_assoc.
      * rewrite length_app, int32_bytes_length. lia.
Qed.

(** C2 (as the code has it).  In the tuple that [create_D_tuple] builds from
    a DataRow frame, a column whose length field is -1 is a null cell, a
    column of length 0 is a null cell as well, and a column of a positive
    length holds the bytes of the value. *)
Theorem create_D_tuple_columns (columns : list (option (list byte))) :
  Forall column_ok columns ->
  create_D_tuple (Z.of_nat (List.length columns))
                 (message_of_frame (data_row columns))
  = mkTuple (map seen_column columns).
Proof.
  intros Hok. unfold create_D_tuple. rewrite Nat2Z.id. f_equal.
  cbn [data message_of_frame].
  set (pre := chr "D" :: int32_bytes (frame_length (data_row columns))
              ++ int16_bytes (Z.of_nat (List.length columns))).
  change 7 with (Z.of_nat (List.length pre)).
  replace (encode_frame (data_row columns))
    with (pre ++ flat_map encode_column columns).
  - now apply D_columns_encoded.
  - subst pre. unfold encode_frame, data_row. cbn [tag payload app].
    now rewrite <- app_assoc.
Qed.

Lemma create_D_tuple_columns_example :
  create_D_tuple 3 (message_of_frame
                      (data_row [None; Some []; Some (bytes_of_string "1")]))
  = mkTuple [None; None; Some (bytes_of_string "1")].
Proof.
  apply (create_D_tuple_columns [None; Some []; Some (bytes_of_string "1")]).
  repeat constructor; vm_compute; reflexivity.
Defined.

(** C2, the claim as it stands: the cell of a column of length 0 is not an
    empty byte-string, and the tuple of such a row is the tuple of the row
    whose column is NULL. *)
Lemma create_D_tuple_empty_is_null :
  create_D_tuple 1 (message_of_frame (data_row [Some []])) <> mkTuple [Some []] /\
  create_D_tuple 1 (message_of_frame (data_row [Some []]))
  = create_D_tuple 1 (message_of_frame (data_row [None])).
Proof.
  split; [vm_compute; discriminate | vm_compute; reflexivity].
Qed.

End QueryExecute.

(** ** Symmetric crypto *)

Section BufferCrypto.
Import Codec Aes.
Context {ssl : OpenSSL} {host : Host}.

Lemma store_in_range (d : list byte) (off : nat) (bs : list byte) :
  (off + List.length bs <= List.length d)%nat ->
  store d off bs = firstn off d ++ bs ++ skipn (off + List.length bs) d.
Proof.
  intros Hfit. unfold store. apply firstn_all2.
  rewrite !length_app, length_firstn, length_skipn. lia.
Qed.

(** Two stores one behind the other from the start of a block. *)
Lemma store_two (d out fin : list byte) :
  (List.length out + List.length fin <= List.length d)%nat ->
  store (store d 0 out) (List.length out) fin
  = out ++ fin ++ skipn (List.length out + List.length fin) d.
Proof.
  intros Hfit.
  rewrite (store_in_range d 0 out) by (simpl; lia).
  cbn [firstn app Nat.add].
  rewrite store_in_range by (rewrite length_app, length_skipn; lia).
  rewrite firstn_app, Nat.sub_diag, firstn_all. cbn [firstn].
  rewrite app_nil_r. do 2 f_equal.
  rewrite skipn_app, skipn_all2 by lia. cbn [app].
  rewrite skipn_skipn. f_equal. lia.
Qed.

Lemma firstn_exact (l r : list byte) : firstn (List.length l) (l ++ r) = l.
Proof.
  rewrite firstn_app, Nat.sub_diag, firstn_all. cbn [firstn]. apply app_nil_r.
Qed.

Lemma malloc_length (size : nat) : List.length (malloc size) = size.
Proof. unfold malloc. now rewrite length_map, length_seq. Qed.

Lemma to_int_small (v : Z) : 0 <= v < 2 ^ 31 -> to_int v = v.
Proof.
  intros Hv. unfold to_int, signed. rewrite wrap_small by lia.
  change (2 ^ (32 - 1)) with (2 ^ 31).
  destruct (Z.ltb_spec v (2 ^ 31)); lia.
Qed.

(** The CTR modes run the cipher of AES-256-CBC in the buffer functions. *)
Remark get_cipher_buffer_ctr (mode : Z) :
  mode = ENCRYPTION_AES_256_CTR \/ mode = ENCRYPTION_AES_192_CTR
  \/ mode = ENCRYPTION_AES_128_CTR ->
  get_cipher_buffer mode = EVP_aes_256_cbc.
Proof. intros [-> | [-> | ->]]; reflexivity. Qed.


End BufferCrypto.

Section StandIn.
Import Codec Aes.

Lemma xor_byte_twice (key : list byte) (b : list byte) :
  map (xor_byte key) (map (xor_byte key) b) = b.
Proof.
  induction b as [|x b IH]; cbn [map]; [reflexivity|].
  rewrite IH. unfold xor_byte.
  now rewrite Z.lxor_assoc, Z.lxor_nilpotent, Z.lxor_0_r.
Qed.

Lemma xor_openssl_inverts (c : @EVP_CIPHER xor_openssl) :
  @evp_inverts xor_openssl c.
Proof.
  intros ctx ectx ectx' key iv b out fin Hinit Hupd Hfin.
  cbn in Hinit, Hupd, Hfin.
  injection Hinit as <-. injection Hupd as <- <-. injection Hfin as <-.
  split.
  - rewrite app_nil_r, length_map. cbn. lia.
  - intros ctx0. exists key, key, b, [].
    cbn. rewrite !app_nil_r, xor_byte_twice. repeat split.
Qed.


End StandIn.

Section FileCrypto.
Import Codec Aes.
Context {ssl : OpenSSL} {host : Host}.

Lemma fs_remove_gone (fs : filesystem) (path : string) : fs_remove fs path path = None.
Proof. unfold fs_remove. now rewrite String.eqb_refl. Qed.

(** The source is gone behind the check that follows the cipher run,
    whatever the run left behind. *)
Lemma source_deleted (fs : filesystem) (from : string) :
  (if pgvictoria_exists fs from then pgvictoria_delete_file fs from else fs) from
  = None.
Proof.
  unfold pgvictoria_exists, pgvictoria_delete_file.
  destruct (fs from) eqn:Hfrom; [apply fs_remove_gone | exact Hfrom].
Qed.

(** C9.  When the source file exists, [pgvictoria_encrypt_file] and
    [pgvictoria_decrypt_file] return 0 and the source file is gone behind
    the call, also when the inner [encrypt_file] returned 1: its status is
    not looked at. *)
Theorem encrypt_decrypt_file_delete_source
    (fs : filesystem) (from : string) (to : option string) :
  fs from <> None ->
  (fst (pgvictoria_encrypt_file fs from to) = 0 /\
   snd (pgvictoria_encrypt_file fs from to) from = None) /\
  (fst (pgvictoria_decrypt_file fs from to) = 0 /\
   snd (pgvictoria_decrypt_file fs from to) from = None).
Proof.
  intros Hfrom.
  assert (Hexists : pgvictoria_exists fs from = true).
  { unfold pgvictoria_exists. destruct (fs from); [reflexivity|congruence]. }
  unfold pgvictoria_encrypt_file, pgvictoria_decrypt_file.
  rewrite Hexists. cbn [negb]. split.
  - cbn [fst snd]. split; [reflexivity|apply source_deleted].
  - destruct to as [to|]; [|unfold pgvictoria_strip_extension;
                            destruct (before_last_dot (list_ascii_of_string from))];
      cbn [fst snd]; (split; [reflexivity|apply source_deleted]).
Qed.

End FileCrypto.

Section FileCryptoExample.
Import Codec Aes.

(** C9 on a host without a master key: the cipher run fails, and the calls
    still return 0 and delete the source. *)
Lemma encrypt_decrypt_file_keyless :
  let fs := one_file "base.tar" (bytes_of_string "data") in
  fst (@encrypt_file xor_openssl keyless_host fs "base.tar" "base.tar.aes" 1) = 1 /\
  (fst (@pgvictoria_encrypt_file xor_openssl keyless_host fs "base.tar" None) = 0 /\
   snd (@pgvictoria_encrypt_file xor_openssl keyless_host fs "base.tar" None)
       "base.tar"%string = None) /\
  (fst (@pgvictoria_decrypt_file xor_openssl keyless_host fs "base.tar" None) = 0 /\
   snd (@pgvictoria_decrypt_file xor_openssl keyless_host fs "base.tar" None)
       "base.tar"%string = None).
Proof.
  split; [reflexivity|].
  apply (@encrypt_decrypt_file_delete_source xor_openssl keyless_host).
  vm_compute. discriminate.
Defined.

End FileCryptoExample.

(** ** Configuration reload *)

Section Reload.
Import Codec Configuration.

Lemma bind_fst {A B : Type} (m : logged A) (k : A -> logged B) :
  fst (bind m k) = fst (k (fst m)).
Proof. unfold bind. destruct m as [a l1]. cbn [fst]. now destruct (k a). Qed.

Lemma bind_snd {A B : Type} (m : logged A) (k : A -> logged B) :
  snd (bind m k) = snd m ++ snd (k (fst m)).
Proof. unfold bind. destruct m as [a l1]. cbn [fst snd]. now destruct (k a). Qed.

Lemma restart_string_flag (name e n : string) (changed : bool) :
  (if fst (restart_string name e n) =? 0 then changed else true)
  = changed || negb (String.eqb e n).
Proof.
  unfold restart_string. destruct (String.eqb e n); cbn; now destruct changed.
Qed.

Lemma restart_int_flag (name : string) (e n : Z) (changed : bool) :
  (if fst (restart_int name e n) =? 0 then changed else true)
  = changed || negb (e =? n).
Proof.
  unfold restart_int. destruct (e =? n); cbn; now destruct changed.
Qed.

Lemma copy_server_flag (dst src : server) (changed : bool) :
  (if fst (copy_server dst src) =? 0 then changed else true)
  = changed || server_differs dst src.
Proof.
  unfold copy_server. rewrite !bind_fst. cbn [ret fst].
  rewrite !restart_string_flag, !restart_int_flag. unfold server_differs.
  destruct (negb (String.eqb (server_name dst) (server_name src)));
    destruct (negb (String.eqb (server_host dst) (server_host src)));
    destruct (negb (server_port dst =? server_port src));
    destruct (negb (String.eqb (server_username dst) (server_username src)));
    cbn; now destruct changed.
Qed.

Lemma copy_servers_flag (todo : nat) :
  forall (i : nat) (config reload : list server) (changed : bool),
    fst (copy_servers todo i config reload changed)
    = changed || servers_differ todo i config reload.
Proof.
  induction todo as [|todo IH]; intros i config reload changed;
    cbn [copy_servers servers_differ].
  - cbn. now rewrite orb_false_r.
  - rewrite bind_fst, IH, copy_server_flag. now rewrite orb_assoc.
Qed.

(** What [transfer_configuration] returns as [changed]. *)
Lemma transfer_configuration_changed (config reload : main_configuration) :
  fst (fst (transfer_configuration config reload)) = restart_required config reload.
Proof.
  unfold transfer_configuration.
  repeat (rewrite bind_fst; cbv beta).
  cbn [ret fst].
  rewrite copy_servers_flag.
  rewrite !restart_string_flag, !restart_int_flag.
  unfold restart_required.
  cbn [orb].
  repeat match goal with
         | |- context [fst (if ?c then _ else _)] => destruct c
         end;
    cbn [fst ret with_common common host libev hugepage update_process_title
         unix_socket_dir servers set_log_level set_log_routing
         set_authentication_timeout set_backlog log_type number_of_servers];
    reflexivity.
Qed.

Lemma servers_differ_same (todo : nat) :
  forall (i : nat) (l : list server), servers_differ todo i l l = false.
Proof.
  induction todo as [|todo IH]; intros i l; cbn [servers_differ]; [reflexivity|].
  rewrite IH. unfold server_differs.
  now rewrite !String.eqb_refl, Z.eqb_refl.
Qed.

Lemma restart_required_same_fields (config reload : main_configuration) :
  host reload = host config ->
  log_type (common reload) = log_type (common config) ->
  libev reload = libev config ->
  hugepage reload = hugepage config ->
  update_process_title reload = update_process_title config ->
  unix_socket_dir reload = unix_socket_dir config ->
  servers (common reload) = servers (common config) ->
  number_of_servers (common reload) = number_of_servers (common config) ->
  restart_required config reload = false.
Proof.
  intros H1 H2 H3 H4 H5 H6 H7 H8. unfold restart_required.
  rewrite H1, H2, H3, H4, H5, H6, H7, H8.
  now rewrite !String.eqb_refl, !Z.eqb_refl, servers_differ_same.
Qed.

(** The log level of the reload is taken over in every case. *)
Lemma transfer_configuration_log_level (config reload : main_configuration) :
  log_level (common (snd (fst (transfer_configuration config reload))))
  = log_level (common reload).
Proof.
  unfold transfer_configuration.
  repeat (rewrite bind_fst; cbv beta).
  cbn [ret fst snd].
  match goal with
  | |- context [fst (if ?c then _ else _)] => destruct c
  end; reflexivity.
Qed.

(** C6, first half.  A reload that differs from the live configuration in
    [log_level] only gives [changed = false], and the new level is in the
    live configuration behind the call. *)
Lemma transfer_configuration_log_level_only (config : main_configuration) (level : Z) :
  let reload := with_common config (set_log_level level) in
  fst (fst (transfer_configuration config reload)) = false /\
  log_level (common (snd (fst (transfer_configuration config reload)))) = level.
Proof.
  cbv zeta. split.
  - rewrite transfer_configuration_changed.
    now apply restart_required_same_fields.
  - now rewrite transfer_configuration_log_level.
Qed.

(** C6, second half without the PID file.  A difference in [host],
    [log_type], [libev], [hugepage], [update_process_title],
    [unix_socket_dir], in the name, host, port or user name of a server slot,
    or in [number_of_servers] gives [changed = true]. *)
Lemma servers_differ_at (todo : nat) :
  forall (i j : nat) (config reload : list server),
    (i <= j < i + todo)%nat ->
    server_differs (nth j config no_server) (nth j reload no_server) = true ->
    servers_differ todo i config reload = true.
Proof.
  induction todo as [|todo IH]; intros i j config reload Hj Hdiff;
    cbn [servers_differ]; [lia|].
  destruct (Nat.eq_dec i j) as [->|Hne].
  - now rewrite Hdiff.
  - rewrite (IH (S i) j) by (auto; lia). apply orb_true_r.
Qed.

Lemma transfer_configuration_restart_fields (config reload : main_configuration) :
  host config <> host reload
  \/ log_type (common config) <> log_type (common reload)
  \/ libev config <> libev reload
  \/ hugepage config <> hugepage reload
  \/ update_process_title config <> update_process_title reload
  \/ unix_socket_dir config <> unix_socket_dir reload
  \/ (exists j, (j < NUMBER_OF_SERVERS)%nat /\
                server_differs (nth j (servers (common config)) no_server)
                               (nth j (servers (common reload)) no_server) = true)
  \/ number_of_servers (common config) <> number_of_servers (common reload) ->
  fst (fst (transfer_configuration config reload)) = true.
Proof.
  rewrite transfer_configuration_changed. unfold restart_required.
  intros [H|[H|[H|[H|[H|[H|[H|H]]]]]]];
    try (apply String.eqb_neq in H); try (apply Z.eqb_neq in H).
  8: rewrite H; cbn [negb]; apply orb_true_r.
  7: { destruct H as (j & Hj & Hdiff).
       rewrite (servers_differ_at NUMBER_OF_SERVERS 0 j) by (auto; lia).
       rewrite orb_true_r. reflexivity. }
  all: rewrite H; cbn [negb orb]; rewrite ?orb_true_r; reflexivity.
Qed.

(** A reload that differs in [pidfile] only gives [changed = false]. *)
Lemma transfer_configuration_pidfile_only (config : main_configuration) (p : string) :
  fst (fst (transfer_configuration config (with_pidfile config p))) = false.
Proof.
  rewrite transfer_configuration_changed.
  now apply restart_required_same_fields.
Qed.

(** C6 at a reload whose only difference is a new, non-empty [pidfile]:
    the call logs that a restart is required for [pidfile] and returns
    [changed = false]. *)
Lemma transfer_configuration_pidfile_ignored :
  let reload := with_pidfile baseline "/run/pgvictoria.pid" in
  fst (fst (transfer_configuration baseline reload)) = false /\
  snd (transfer_configuration baseline reload)
  = [RestartRequiredString "pidfile" "/tmp/pgvictoria.pid" "/run/pgvictoria.pid"].
Proof.
  vm_compute. split; reflexivity.
Qed.

End Reload.

(** ** Users file *)

Section Users.
Import Codec Configuration.
Context {ssl : Aes.OpenSSL} {b64 : Base64}.

Lemma sizeof_user_value : sizeof_user = 1152.
Proof. reflexivity. Qed.

(** The token of [strtok] is not empty. *)
Lemma skip_delimiters_head (delim c : ascii) (s rest : list ascii) :
  skip_delimiters delim s = c :: rest -> Ascii.eqb c delim = false.
Proof.
  induction s as [|d s IH]; cbn [skip_delimiters]; [discriminate|].
  destruct (Ascii.eqb d delim) eqn:Hd; [exact IH|].
  intros Heq. injection Heq as -> _. exact Hd.
Qed.

Lemma strtok_not_empty (delim : ascii) (s r : list ascii) (t : string) :
  strtok delim s = (Some t, r) -> t <> ""%string.
Proof.
  unfold strtok. destruct (skip_delimiters delim s) as [|c s'] eqn:Hskip;
    [discriminate|].
  apply skip_delimiters_head in Hskip. cbn [token]. rewrite Hskip.
  destruct (token delim s') as [t' r']. intros Heq. injection Heq as <- _.
  discriminate.
Qed.

(** The user name of an entry is not empty. *)
Lemma user_line_name (master_key line username password : string) :
  user_line master_key line = Entry username password -> username <> ""%string.
Proof.
  unfold user_line.
  destruct (is_empty_string line); [discriminate|].
  destruct (remove_leading_whitespace_and_comments line) as [trimmed|];
    [|discriminate].
  destruct (is_empty_string trimmed); [discriminate|].
  destruct (strtok ":" (list_ascii_of_string trimmed)) as [name rest] eqn:Hname.
  destruct (strtok ":" rest) as [[text|] rest']; [|discriminate].
  destruct (pgvictoria_base64_decode text) as [decoded|]; [|discriminate].
  destruct (Aes.pgvictoria_decrypt decoded _ master_key _) as [plaintext|];
    [|discriminate].
  destruct name as [name|]; [|discriminate].
  intros Heq. injection Heq as <- _.
  eapply strtok_not_empty. exact Hname.
Qed.

(** The loop over lines of which none fails, as long as the slots that the
    entries take lie in the memory at [shm]: it comes to the end of the file,
    and the index has grown by the number of entries. *)
Lemma users_loop_index (segment : Z) (master_key : string) (lines : list string) :
  forall st : users_state,
    Forall (fun line => user_line master_key line <> Failed) lines ->
    (index st + Z.of_nat (entries master_key lines) - Z.of_nat NUMBER_OF_USERS)
    * sizeof_user <= segment ->
    fst (users_loop segment master_key lines st) = EndOfFile /\
    index (snd (users_loop segment master_key lines st))
    = index st + Z.of_nat (entries master_key lines).
Proof.
  rewrite sizeof_user_value.
  induction lines as [|line lines IH]; intros st Hok Hfit; cbn [users_loop].
  - cbn. split; [reflexivity|lia].
  - inversion Hok as [|? ? Hline Hlines]; subst.
    unfold entries in *. cbn [filter] in *. unfold is_entry at 1 in Hfit.
    unfold is_entry at 1.
    destruct (user_line master_key line) as [| |username password].
    + apply IH; auto.
    + congruence.
    + cbn [List.length] in *.
      assert (Hnext : forall st' : users_state,
                 index st' = index st ->
                 fst (users_loop segment master_key lines
                        (mkUsersState (index st' + 1) (table st') (behind st')
                                      (stores st'))) = EndOfFile /\
                 index (snd (users_loop segment master_key lines
                               (mkUsersState (index st' + 1) (table st') (behind st')
                                             (stores st'))))
                 = index st
                   + Z.of_nat (S (List.length (filter (is_entry master_key) lines)))).
      { intros st' Hindex.
        match goal with
        | |- context [users_loop segment master_key lines ?st''] =>
            destruct (IH st'' Hlines) as [IH1 IH2]
        end.
        - cbn [index]. lia.
        - split; [exact IH1|]. rewrite IH2. cbn [index]. lia. }
      destruct ((Z.of_nat (String.length username) <? MAX_USERNAME_LENGTH)
                && (Z.of_nat (String.length password) <? MAX_PASSWORD_LENGTH))
        eqn:Hlen; [|apply Hnext; reflexivity].
      apply andb_prop in Hlen. destruct Hlen as [Hu Hp].
      apply Z.ltb_lt in Hu, Hp. unfold MAX_USERNAME_LENGTH in Hu.
      unfold MAX_PASSWORD_LENGTH in Hp.
      unfold store_entry. rewrite sizeof_user_value.
      destruct (Z.ltb_spec (index st) (Z.of_nat NUMBER_OF_USERS)) as [Hin|Hout].
      * apply Hnext. reflexivity.
      * unfold MAX_USERNAME_LENGTH.
        replace ((index st - Z.of_nat NUMBER_OF_USERS) * 1152
                 + Z.of_nat (String.length username) <=? segment) with true
          by (symmetry; apply Z.leb_le; lia).
        replace ((index st - Z.of_nat NUMBER_OF_USERS) * 1152 + 128
                 + Z.of_nat (String.length password) <=? segment) with true
          by (symmetry; apply Z.leb_le; lia).
        cbn [andb]. apply Hnext. reflexivity.
Qed.

(** The loop over lines that all are entries whose name and password fit
    their fields, when the slot of the last of them begins behind the memory
    at [shm]: a [memcpy] leaves the memory. *)
Lemma users_loop_leaves (segment : Z) (master_key : string) (lines : list string) :
  forall st : users_state,
    0 <= segment ->
    Forall (fun line => is_stored_entry master_key line = true) lines ->
    lines <> [] ->
    segment <= (index st + Z.of_nat (List.length lines) - 1
                - Z.of_nat NUMBER_OF_USERS) * sizeof_user ->
    fst (users_loop segment master_key lines st) = OutOfSegment.
Proof.
  rewrite sizeof_user_value.
  induction lines as [|line lines IH]; intros st Hsegment Hok Hne Hlast;
    [congruence|].
  inversion Hok as [|? ? Hline Hlines]; subst. cbn [users_loop].
  unfold is_stored_entry in Hline.
  destruct (user_line master_key line) as [| |username password] eqn:Huser;
    try discriminate.
  rewrite Hline.
  apply user_line_name in Huser.
  assert (Hname : 0 < Z.of_nat (String.length username)).
  { destruct username; [congruence | cbn [String.length]; lia]. }
  unfold store_entry. rewrite sizeof_user_value.
  cbn [List.length] in Hlast.
  destruct lines as [|next lines].
  - cbn [List.length] in Hlast.
    destruct (Z.ltb_spec (index st) (Z.of_nat NUMBER_OF_USERS)) as [Hin|Hout];
      [lia|].
    replace ((index st - Z.of_nat NUMBER_OF_USERS) * 1152
             + Z.of_nat (String.length username) <=? segment) with false
      by (symmetry; apply Z.leb_gt; lia).
    reflexivity.
  - assert (Hrest : forall st' : users_state,
               index st' = index st ->
               fst (users_loop segment master_key (next :: lines)
                      (mkUsersState (index st' + 1) (table st') (behind st')
                                    (stores st'))) = OutOfSegment).
    { intros st' Hindex. apply IH; auto; [discriminate|].
      cbn [index List.length] in *. lia. }
    destruct (index st <? Z.of_nat NUMBER_OF_USERS); [apply Hrest; reflexivity|].
    match goal with
    | |- context [if ?c then _ else _] => destruct c
    end; [apply Hrest; reflexivity | reflexivity].
Qed.

(** C7.  Take a users file that can be opened, with the master key at hand,
    in which no line fails to parse, decode or decrypt and more than
    [NUMBER_OF_USERS] lines are entries.  The entries from the one of the
    index [NUMBER_OF_USERS] on are copied behind the users table.  When the
    slots that the entries take behind the table lie in the memory at [shm],
    [pgvictoria_read_users_configuration] returns 3, which is neither the
    status 1 of a missing file or a failed line nor the status 2 of a missing
    master key.  When all lines are entries that are stored and the slot of
    the last one begins behind that memory, the call returns no status: a
    [memcpy] leaves the memory before the number of entries is tested. *)
Theorem read_users_too_many (segment : Z) (config : main_configuration)
    (lines : list string) (master_key : string) :
  0 <= segment ->
  Forall (fun line => user_line master_key line <> Failed) lines ->
  (NUMBER_OF_USERS < entries master_key lines)%nat ->
  let r := pgvictoria_read_users_configuration segment config
             (Some lines) (Some master_key) in
  (Z.of_nat (entries master_key lines - NUMBER_OF_USERS) * sizeof_user <= segment ->
   users_status r = Some 3) /\
  (Forall (fun line => is_stored_entry master_key line = true) lines ->
   segment <= Z.of_nat (List.length lines - NUMBER_OF_USERS - 1) * sizeof_user ->
   users_status r = None) /\
  users_status (pgvictoria_read_users_configuration segment config
                  None (Some master_key)) = Some 1 /\
  users_status (pgvictoria_read_users_configuration segment config
                  (Some lines) None) = Some 2.
Proof.
  intros Hsegment Hok Hmany. cbv zeta.
  unfold pgvictoria_read_users_configuration.
  split; [|split; [|split; reflexivity]].
  - intros Hfit.
    destruct (users_loop_index segment master_key lines
                (mkUsersState 0 (users (common config)) [] []) Hok)
      as [Hrun Hindex].
    { cbn [index]. lia. }
    destruct (users_loop segment master_key lines
                (mkUsersState 0 (users (common config)) [] [])) as [e st].
    cbn [fst snd index] in Hrun, Hindex. subst e. cbv zeta.
    replace (index st >? Z.of_nat NUMBER_OF_USERS) with true
      by (symmetry; apply Z.gtb_lt; lia).
    reflexivity.
  - intros Hstored Hlast.
    assert (Hlines : (NUMBER_OF_USERS < List.length lines)%nat).
    { unfold entries in Hmany.
      pose proof (filter_length_le (is_entry master_key) lines). lia. }
    pose proof (users_loop_leaves segment master_key lines
                  (mkUsersState 0 (users (common config)) [] []) Hsegment Hstored)
      as Hrun.
    cbn [index] in Hrun. rewrite sizeof_user_value in Hrun, Hlast.
    destruct (users_loop segment master_key lines
                (mkUsersState 0 (users (common config)) [] [])) as [e st].
    cbn [fst] in Hrun. rewrite Hrun; [reflexivity | |lia].
    destruct lines; [cbn in Hlines; lia | discriminate].
Qed.

(** What [store_entry] does to the index and to the indices stored to. *)
Lemma store_entry_stores (segment : Z) (st st' : users_state)
    (username password : string) :
  store_entry segment st username password = Some st' ->
  index st' = index st /\ stores st' = index st :: stores st.
Proof.
  unfold store_entry.
  destruct (index st <? Z.of_nat NUMBER_OF_USERS).
  - intros Heq. injection Heq as <-. cbn. auto.
  - match goal with
    | |- context [if ?c then _ else _] => destruct c
    end; [|discriminate].
    intros Heq. injection Heq as <-. cbn. auto.
Qed.

(** An index that was stored to stays in the list. *)
Lemma users_loop_stored (segment : Z) (master_key : string) (lines : list string)
    (i : Z) :
  forall st : users_state,
    In i (stores st) ->
    In i (stores (snd (users_loop segment master_key lines st))).
Proof.
  induction lines as [|line lines IH]; intros st Hin; cbn [users_loop].
  - exact Hin.
  - destruct (user_line master_key line) as [| |username password];
      [now apply IH | exact Hin |].
    destruct ((Z.of_nat (String.length username) <? MAX_USERNAME_LENGTH)
              && (Z.of_nat (String.length password) <? MAX_PASSWORD_LENGTH));
      [|now apply IH].
    destruct (store_entry segment st username password) as [st'|] eqn:Hstore;
      [|exact Hin].
    apply IH. cbn [stores].
    destruct (store_entry_stores _ _ _ _ _ Hstore) as [_ ->]. now right.
Qed.

(** The loop over lines that all are stored entries, more of them than the
    table has slots left: the entry of the index [NUMBER_OF_USERS] is stored
    behind the table, unless this very [memcpy] leaves the memory at [shm]. *)
Lemma users_loop_beyond_table (segment : Z) (master_key : string)
    (lines : list string) :
  forall st : users_state,
    Forall (fun line => is_stored_entry master_key line = true) lines ->
    index st <= Z.of_nat NUMBER_OF_USERS < index st + Z.of_nat (List.length lines) ->
    let run := users_loop segment master_key lines st in
    In (Z.of_nat NUMBER_OF_USERS) (stores (snd run)) \/
    (fst run = OutOfSegment /\ index (snd run) = Z.of_nat NUMBER_OF_USERS).
Proof.
  induction lines as [|line lines IH]; intros st Hok Hindex; cbv zeta.
  - cbn [List.length] in Hindex. lia.
  - inversion Hok as [|? ? Hline Hlines]; subst. cbn [users_loop].
    unfold is_stored_entry in Hline.
    destruct (user_line master_key line) as [| |username password];
      try discriminate.
    rewrite Hline.
    destruct (store_entry segment st username password) as [st'|] eqn:Hstore.
    + destruct (store_entry_stores _ _ _ _ _ Hstore) as [Hi Hs].
      destruct (Z.eq_dec (index st) (Z.of_nat NUMBER_OF_USERS)) as [Hat|Hbelow].
      * left. apply users_loop_stored. cbn [stores]. rewrite Hs, Hat. now left.
      * apply IH; [exact Hlines|]. cbn [index List.length] in *. lia.
    + right. cbn [fst snd]. split; [reflexivity|].
      unfold store_entry in Hstore.
      destruct (Z.ltb_spec (index st) (Z.of_nat NUMBER_OF_USERS)); [discriminate|].
      lia.
Qed.

(** With more than [NUMBER_OF_USERS] stored entries there is a store to the
    index [NUMBER_OF_USERS], behind the last slot of the table, unless the
    [memcpy] into [users[NUMBER_OF_USERS]] leaves the memory at [shm]. *)
Lemma read_users_store_beyond_table (segment : Z) (config : main_configuration)
    (lines : list string) (master_key : string) :
  Forall (fun line => is_stored_entry master_key line = true) lines ->
  (NUMBER_OF_USERS < List.length lines)%nat ->
  let r := pgvictoria_read_users_configuration segment config
             (Some lines) (Some master_key) in
  In (Z.of_nat NUMBER_OF_USERS) (users_stores r) \/
  exists stores, r = UsersOutOfSegment (Z.of_nat NUMBER_OF_USERS) stores.
Proof.
  intros Hok Hmany. cbv zeta. unfold pgvictoria_read_users_configuration.
  pose proof (users_loop_beyond_table segment master_key lines
                (mkUsersState 0 (users (common config)) [] []) Hok) as Hrun.
  cbn [index] in Hrun. specialize (Hrun ltac:(lia)). cbv zeta in Hrun.
  destruct (users_loop segment master_key lines
              (mkUsersState 0 (users (common config)) [] [])) as [e st].
  cbn [fst snd] in Hrun.
  destruct Hrun as [Hin | [-> <-]].
  - left. destruct e; cbn [users_stores]; now apply -> in_rev.
  - right. eexists. reflexivity.
Qed.

End Users.

Section UsersExample.
Import Codec Configuration.

Lemma users_file_entries (n : nat) :
  Forall (fun line => @is_stored_entry Aes.xor_openssl plain_base64 "topsecret" line = true)
         (repeat ("alice:secret" ++ String "010" "")%string n).
Proof.
  apply Forall_forall. intros line Hline.
  apply repeat_spec in Hline. subst line. vm_compute. reflexivity.
Qed.

(** The memory behind the users table of a [struct main_configuration]. *)
Example behind_users_value :
  sizeof_user = 1152 /\ users_end = 103744 /\
  sizeof_main_configuration = 107328 /\ behind_users = 3584.
Proof. repeat split. Qed.

(** C7 at a users file of 100 entries that is read into a segment of
    [sizeof(struct main_configuration)] bytes: no status is returned. *)
Lemma read_users_too_many_100 :
  users_status
    (@pgvictoria_read_users_configuration Aes.xor_openssl plain_base64
       behind_users baseline (Some users_file_100) (Some "topsecret"%string))
  = None.
Proof.
  refine (proj1 (proj2 (@read_users_too_many Aes.xor_openssl plain_base64
                          behind_users baseline users_file_100 "topsecret"
                          _ _ _)) _ _).
  - vm_compute. discriminate.
  - apply Forall_forall. intros line Hline.
    apply repeat_spec in Hline. subst line. vm_compute. discriminate.
  - apply Nat.ltb_lt. vm_compute. reflexivity.
  - exact (users_file_entries 100).
  - vm_compute. discriminate.
Defined.

(** With 65 to 67 such entries the call returns 3. *)
Example read_users_too_many_67 :
  users_status
    (@pgvictoria_read_users_configuration Aes.xor_openssl plain_base64
       behind_users baseline
       (Some (repeat ("alice:secret" ++ String "010" "")%string 67))
       (Some "topsecret"%string))
  = Some 3.
Proof. vm_compute. reflexivity. Qed.

(** C10 at a users file of 65 entries: the call returns 3, and before that
    it has stored the 65th entry to the index 64, which is no slot of the
    table of [NUMBER_OF_USERS] users: the name and the password lie behind
    the table, the name over [number_of_servers] and [number_of_users],
    which is then set to 65. *)
Lemma read_users_65_stores_beyond_table :
  let r := @pgvictoria_read_users_configuration Aes.xor_openssl plain_base64
             behind_users baseline (Some users_file_65) (Some "topsecret"%string) in
  users_status r = Some 3 /\
  In 64 (users_stores r) /\
  ~ Forall (fun i => i < Z.of_nat NUMBER_OF_USERS) (users_stores r) /\
  match r with
  | UsersReturn _ (Overwritten _ written assigned) _ =>
      written = [(0, bytes_of_string "alice");
                 (MAX_USERNAME_LENGTH, [7; 17; 23; 6; 17])] /\
      assigned = Some 65
  | _ => False
  end.
Proof.
  cbv zeta.
  assert (Hstores : users_stores
                      (@pgvictoria_read_users_configuration
                         Aes.xor_openssl plain_base64
                         behind_users baseline (Some users_file_65)
                         (Some "topsecret"%string))
                    = Message.span 0 65).
  { vm_compute. reflexivity. }
  assert (Hin : In 64 (Message.span 0 65)).
  { unfold Message.span. apply in_map_iff. exists 64%nat.
    split; [reflexivity|]. apply in_seq. lia. }
  rewrite Hstores.
  split; [vm_compute; reflexivity|]. split; [exact Hin|]. split.
  - intros Hall. rewrite Forall_forall in Hall.
    specialize (Hall 64 Hin). vm_compute in Hall. discriminate.
  - vm_compute. split; reflexivity.
Qed.

End UsersExample.

(** ** Further protocol messages *)

Section MessageConstructors.
Import Codec Message Wire.

Lemma store_next (w : list byte) (k : nat) (bs : list byte) (off : nat) :
  off = List.length w ->
  (List.length bs <= k)%nat ->
  store (w ++ repeat 0 k) off bs = (w ++ bs) ++ repeat 0 (k - List.length bs).
Proof.
  intros Hoff Hfit.
  rewrite (store_zeros w k bs off 0) by lia.
  cbn [repeat app]. now rewrite Nat.sub_0_r.
Qed.

Lemma store_string_next (w : list byte) (k : nat) (s : list byte) (off : nat) :
  off = List.length w ->
  (List.length s <= k)%nat ->
  store (w ++ repeat 0 k) off (s ++ [0])
  = (w ++ s) ++ repeat 0 (k - List.length s).
Proof.
  intros Hoff Hfit.
  rewrite (store_string_zeros w k s off 0) by lia.
  cbn [repeat app]. now rewrite Nat.sub_0_r.
Qed.

Lemma memcpy_next (w : list byte) (k : nat) (src : list byte) (off n : nat) :
  off = List.length w ->
  n = List.length src ->
  (n <= k)%nat ->
  memcpy (w ++ repeat 0 k) off src n = (w ++ src) ++ repeat 0 (k - n).
Proof.
  intros Hoff -> Hfit. unfold memcpy. rewrite firstn_all.
  now apply store_next.
Qed.

Lemma encode_frame_bytes (t : byte) (p : list byte) (v : Z) :
  v = 4 + Z.of_nat (List.length p) ->
  encode_frame (mkFrame t p) = t :: int32_bytes v ++ p.
Proof. intros ->. reflexivity. Qed.

Ltac len :=
  repeat rewrite ?length_app, ?repeat_length, ?bytes_of_string_length,
                 ?int32_bytes_length, ?int64_bytes_length;
  cbn [List.length String.length]; lia.

Ltac write_all :=
  change (repeat 0 ?size) with ([] ++ repeat 0 size);
  repeat first [ rewrite store_string_next by len
               | rewrite memcpy_next by len
               | rewrite store_next by len ].

(** X1.  The password and MD5 responses are well-formed ['p'] frames that
    hold the given string and its NUL. *)
Theorem password_response_frame (password : string) :
  let m := snd (pgvictoria_create_auth_password_response password) in
  kind m = chr "p" /\
  length m = Z.of_nat (List.length (data m)) /\
  data m = encode_frame (mkFrame (chr "p") (bytes_of_string password ++ [0])) /\
  pgvictoria_create_auth_md5_response password
  = pgvictoria_create_auth_password_response password.
Proof.
  cbv zeta. unfold pgvictoria_create_auth_password_response,
    pgvictoria_create_auth_md5_response.
  replace (1 + 4 + String.length password + 1)%nat
    with (6 + String.length password)%nat by lia.
  set (n := String.length password).
  remember (6 + n)%nat as size eqn:Hsize.
  cbn [fst snd set_data set_kind allocate_message kind length data].
  unfold pgvictoria_write_byte, pgvictoria_write_int32, pgvictoria_write_string.
  assert (Hdata :
    store (store (store (repeat 0 size) 0 [chr "p"])
                 1 (int32_bytes (Z.of_nat size - 1)))
          5 (bytes_of_string password ++ [0])
    = encode_frame (mkFrame (chr "p") (bytes_of_string password ++ [0]))).
  { write_all.
    match goal with
    | |- context [repeat 0 (?a - ?b)%nat] =>
        replace (a - b)%nat with 1%nat by (fold n; len)
    end.
    rewrite (encode_frame_bytes _ _ (Z.of_nat size - 1)) by (fold n; len).
    cbn [repeat app]. rewrite <- !app_assoc. reflexivity. }
  rewrite Hdata. repeat split.
  rewrite encode_frame_length. unfold frame_length. cbn [payload].
  fold n; len.
Qed.

Lemma bytes_of_string_app (a b : string) :
  bytes_of_string (a ++ b) = bytes_of_string a ++ bytes_of_string b.
Proof.
  unfold bytes_of_string. rewrite <- map_app. f_equal.
  induction a as [|c a IH]; cbn; [reflexivity|now rewrite IH].
Qed.

Lemma string_length_app (a b : string) :
  String.length (a ++ b) = (String.length a + String.length b)%nat.
Proof. induction a as [|c a IH]; cbn; [reflexivity|now rewrite IH]. Qed.

Lemma bytes_of_snprintf (size : nat) (text : string) :
  bytes_of_string (snprintf size text) = firstn (size - 1) (bytes_of_string text).
Proof.
  unfold snprintf, bytes_of_string.
  now rewrite list_ascii_of_string_of_list_ascii, firstn_map.
Qed.

Lemma tagged_frame_length (t : byte) (p : list byte) :
  Z.of_nat (List.length (encode_frame (mkFrame t p))) = 5 + Z.of_nat (List.length p).
Proof. rewrite encode_frame_length. unfold frame_length. cbn [payload]. lia. Qed.

(** X2.  The three SCRAM-SHA-256 messages of the exchange are well-formed
    frames: the server's continue message is an ['R'] frame with the code 11
    and the text [r=<cn><sn>,s=<salt>,i=4096], its final message an ['R']
    frame with the code 12 and [v=<ss>], and the client's continue response a
    ['p'] frame with [<wp>,p=<p>]; none of the texts is NUL-terminated. *)
Theorem scram256_exchange_frames (cn sn salt wp p ss : string) :
  let c := snd (pgvictoria_create_auth_scram256_continue cn sn salt) in
  let r := snd (pgvictoria_create_auth_scram256_continue_response wp p) in
  let f := snd (pgvictoria_create_auth_scram256_final ss) in
  (kind c = chr "R" /\ length c = Z.of_nat (List.length (data c)) /\
   data c = encode_frame
              (mkFrame (chr "R")
                 (int32_bytes 11
                  ++ bytes_of_string ("r=" ++ cn ++ sn ++ ",s=" ++ salt ++ ",i=4096")))) /\
  (kind r = chr "p" /\ length r = Z.of_nat (List.length (data r)) /\
   data r = encode_frame
              (mkFrame (chr "p") (bytes_of_string (wp ++ ",p=" ++ p)))) /\
  (kind f = chr "R" /\ length f = Z.of_nat (List.length (data f)) /\
   data f = encode_frame
              (mkFrame (chr "R") (int32_bytes 12 ++ bytes_of_string ("v=" ++ ss)))).
Proof.
  cbv zeta. split; [|split].
  - unfold pgvictoria_create_auth_scram256_continue.
    set (a := String.length cn). set (b := String.length sn).
    set (e := String.length salt).
    remember (1 + 4 + 4 + 2 + a + b + 3 + e + 7)%nat as size eqn:Hsize.
    cbn [fst snd set_data set_kind allocate_message kind length data].
    unfold pgvictoria_write_byte, pgvictoria_write_int32, pgvictoria_write_string.
    match goal with
    | |- _ /\ _ /\ ?d = ?f => assert (Hdata : d = f)
    end.
    { write_all.
      match goal with
      | |- context [repeat 0 (?x - ?y)%nat] =>
          replace (x - y)%nat with 0%nat by (fold a; fold b; fold e; len)
      end.
      rewrite (encode_frame_bytes _ _ (Z.of_nat size - 1))
        by (rewrite !length_app, !bytes_of_string_length, !string_length_app;
            fold a; fold b; fold e; cbn [List.length String.length int32_bytes]; lia).
      rewrite !bytes_of_string_app.
      cbn [repeat app]. rewrite <- !app_assoc, app_nil_r. reflexivity. }
    rewrite Hdata. repeat split.
    rewrite tagged_frame_length, length_app, bytes_of_string_length,
      !string_length_app.
    fold a; fold b; fold e; cbn [List.length String.length int32_bytes]; lia.
  - unfold pgvictoria_create_auth_scram256_continue_response.
    set (a := String.length wp). set (b := String.length p).
    remember (1 + 4 + a + 3 + b)%nat as size eqn:Hsize.
    cbn [fst snd set_data set_kind allocate_message kind length data].
    unfold pgvictoria_write_byte, pgvictoria_write_int32, pgvictoria_write_string.
    match goal with
    | |- _ /\ _ /\ ?d = ?f => assert (Hdata : d = f)
    end.
    { write_all.
      match goal with
      | |- context [repeat 0 (?x - ?y)%nat] =>
          replace (x - y)%nat with 0%nat by (fold a; fold b; len)
      end.
      rewrite (encode_frame_bytes _ _ (Z.of_nat size - 1))
        by (rewrite !bytes_of_string_length, !string_length_app;
            fold a; fold b; cbn [String.length]; lia).
      rewrite !bytes_of_string_app.
      cbn [repeat app]. rewrite <- !app_assoc, app_nil_r. reflexivity. }
    rewrite Hdata. repeat split.
    rewrite tagged_frame_length, bytes_of_string_length, !string_length_app.
    fold a; fold b; cbn [String.length]; lia.
  - unfold pgvictoria_create_auth_scram256_final.
    set (a := String.length ss).
    remember (1 + 4 + 4 + 2 + a)%nat as size eqn:Hsize.
    cbn [fst snd set_data set_kind allocate_message kind length data].
    unfold pgvictoria_write_byte, pgvictoria_write_int32, pgvictoria_write_string.
    match goal with
    | |- _ /\ _ /\ ?d = ?f => assert (Hdata : d = f)
    end.
    { write_all.
      match goal with
      | |- context [repeat 0 (?x - ?y)%nat] =>
          replace (x - y)%nat with 0%nat by (fold a; len)
      end.
      rewrite (encode_frame_bytes _ _ (Z.of_nat size - 1))
        by (rewrite !length_app, !bytes_of_string_length, !string_length_app;
            fold a; cbn [List.length String.length int32_bytes]; lia).
      rewrite !bytes_of_string_app.
      cbn [repeat app]. rewrite <- !app_assoc, app_nil_r. reflexivity. }
    rewrite Hdata. repeat split.
    rewrite tagged_frame_length, length_app, bytes_of_string_length,
      !string_length_app.
    fold a; cbn [List.length String.length int32_bytes]; lia.
Qed.

Lemma string_app_assoc (a b c : string) : ((a ++ b) ++ c = a ++ b ++ c)%string.
Proof. induction a as [|x a IH]; cbn; [reflexivity|now rewrite IH]. Qed.

(** X3.  The replication commands are well-formed ['Q'] frames with a
    NUL-terminated text: [READ_REPLICATION_SLOT <slot>;], [TIMELINE_HISTORY]
    with at most the first seven characters of the timeline number, and
    START_REPLICATION with the slot clause when a slot is given, the position
    or [0/0], and the timeline, cut behind 1023 characters. *)
Theorem replication_command_frames
    (slot : string) (timeline : Z) (xlogpos opt_slot : option string) :
  let r := snd (pgvictoria_create_read_replication_slot_message slot) in
  let t := snd (pgvictoria_create_timeline_history_message timeline) in
  let s := snd (pgvictoria_create_start_replication_message xlogpos timeline opt_slot) in
  (kind r = chr "Q" /\ length r = Z.of_nat (List.length (data r)) /\
   data r = encode_frame
              (mkFrame (chr "Q")
                 (bytes_of_string ("READ_REPLICATION_SLOT " ++ slot ++ ";") ++ [0]))) /\
  (kind t = chr "Q" /\ length t = Z.of_nat (List.length (data t)) /\
   data t = encode_frame
              (mkFrame (chr "Q")
                 (bytes_of_string "TIMELINE_HISTORY "
                  ++ firstn 7 (bytes_of_string (decimal timeline))
                  ++ bytes_of_string ";" ++ [0]))) /\
  (kind s = chr "Q" /\ length s = Z.of_nat (List.length (data s)) /\
   data s = encode_frame
              (mkFrame (chr "Q")
                 (firstn 1023 (bytes_of_string
                                 (start_replication_text xlogpos timeline opt_slot))
                  ++ [0]))).
Proof.
  cbv zeta. split; [|split].
  - unfold pgvictoria_create_read_replication_slot_message.
    set (a := String.length slot).
    remember (1 + 4 + 22 + a + 1 + 1)%nat as size eqn:Hsize.
    cbn [fst snd set_data set_kind allocate_message kind length data].
    unfold pgvictoria_write_byte, pgvictoria_write_int32, pgvictoria_write_string.
    match goal with
    | |- _ /\ _ /\ ?d = ?f => assert (Hdata : d = f)
    end.
    { write_all.
      match goal with
      | |- context [repeat 0 (?x - ?y)%nat] =>
          replace (x - y)%nat with 1%nat by (fold a; len)
      end.
      rewrite (encode_frame_bytes _ _ (Z.of_nat size - 1))
        by (rewrite !length_app, !bytes_of_string_length, !string_length_app;
            fold a; cbn [List.length String.length]; lia).
      rewrite !bytes_of_string_app.
      cbn [repeat app]. rewrite <- !app_assoc. reflexivity. }
    rewrite Hdata. repeat split.
    rewrite tagged_frame_length, length_app, bytes_of_string_length,
      !string_length_app.
    fold a; cbn [List.length String.length]; lia.
  - unfold pgvictoria_create_timeline_history_message.
    set (tl := snprintf 8 (decimal timeline)).
    set (a := String.length tl).
    remember (1 + 4 + 17 + a + 1 + 1)%nat as size eqn:Hsize.
    cbn [fst snd set_data set_kind allocate_message kind length data].
    unfold pgvictoria_write_byte, pgvictoria_write_int32, pgvictoria_write_string.
    replace (firstn 7 (bytes_of_string (decimal timeline)))
      with (bytes_of_string tl) by (subst tl; apply bytes_of_snprintf).
    match goal with
    | |- _ /\ _ /\ ?d = ?f => assert (Hdata : d = f)
    end.
    { write_all.
      match goal with
      | |- context [repeat 0 (?x - ?y)%nat] =>
          replace (x - y)%nat with 1%nat by (fold a; len)
      end.
      rewrite (encode_frame_bytes _ _ (Z.of_nat size - 1))
        by (rewrite !length_app, !bytes_of_string_length;
            fold a; cbn [List.length String.length]; lia).
      cbn [repeat app]. rewrite <- !app_assoc. reflexivity. }
    rewrite Hdata. repeat split.
    rewrite tagged_frame_length, !length_app, !bytes_of_string_length.
    fold a; cbn [List.length String.length]; lia.
  - unfold pgvictoria_create_start_replication_message.
    match goal with
    | |- context [String.length ?c] =>
        assert (Hcmd : c = snprintf 1024 (start_replication_text xlogpos timeline opt_slot))
    end.
    { unfold start_replication_text.
      destruct (given opt_slot); destruct (given xlogpos);
        rewrite ?string_app_assoc; reflexivity. }
    rewrite Hcmd.
    set (cmd := snprintf 1024 (start_replication_text xlogpos timeline opt_slot)).
    set (a := String.length cmd).
    remember (1 + 4 + a + 1)%nat as size eqn:Hsize.
    cbn [fst snd set_data set_kind allocate_message kind length data].
    unfold pgvictoria_write_byte, pgvictoria_write_int32.
    replace (firstn 1023 (bytes_of_string
                            (start_replication_text xlogpos timeline opt_slot)))
      with (bytes_of_string cmd) by (subst cmd; apply bytes_of_snprintf).
    match goal with
    | |- _ /\ _ /\ ?d = ?f => assert (Hdata : d = f)
    end.
    { write_all.
      match goal with
      | |- context [repeat 0 (?x - ?y)%nat] =>
          replace (x - y)%nat with 1%nat by (fold a; len)
      end.
      rewrite (encode_frame_bytes _ _ (Z.of_nat size - 1))
        by (rewrite !length_app, !bytes_of_string_length;
            fold a; cbn [List.length]; lia).
      cbn [repeat app]. rewrite <- !app_assoc. reflexivity. }
    rewrite Hdata. repeat split.
    rewrite tagged_frame_length, !length_app, !bytes_of_string_length.
    fold a; cbn [List.length]; lia.
Qed.

Lemma read_int64_int64_bytes (v : Z) (rest : list byte) :
  - 2 ^ 63 <= v < 2 ^ 63 ->
  pgvictoria_read_int64 (int64_bytes v ++ rest) = v.
Proof.
  intros Hv. unfold pgvictoria_read_int64, int64_bytes, signed.
  cbn [app nth].
  set (u := wrap 64 v).
  assert (Hu : 0 <= u < 2 ^ 64) by (apply Z.mod_pos_bound; lia).
  assert (Huv : u = v \/ u = v + 2 ^ 64).
  { subst u. unfold wrap. change (2 ^ 64) with 18446744073709551616 in *.
    change (2 ^ 63) with 9223372036854775808 in *.
    Z.to_euclidean_division_equations. lia. }
  assert (Hsum : u / 72057594037927936 * 72057594037927936
                 + u / 281474976710656 mod 256 * 281474976710656
                 + u / 1099511627776 mod 256 * 1099511627776
                 + u / 4294967296 mod 256 * 4294967296
                 + u / 16777216 mod 256 * 16777216
                 + u / 65536 mod 256 * 65536
                 + u / 256 mod 256 * 256 + u mod 256 = u).
  { clear. Z.to_euclidean_division_equations. lia. }
  rewrite Hsum, (wrap_small 64 u) by lia.
  change (2 ^ (64 - 1)) with (2 ^ 63).
  change (2 ^ 64) with 18446744073709551616 in *.
  change (2 ^ 63) with 9223372036854775808 in *.
  destruct (Z.ltb_spec u 9223372036854775808); lia.
Qed.

(** X4.  The standby status update is a well-formed ['d'] frame of 39 bytes:
    the byte ['r'], the received, flushed and applied positions and the
    microseconds since 2000 as big-endian i64, and a zero byte; a reader of
    i64 gets the three positions back. *)
Theorem standby_status_update_frame
    (received flushed applied current_timestamp y2000_timestamp : Z) :
  - 2 ^ 63 <= received < 2 ^ 63 ->
  - 2 ^ 63 <= flushed < 2 ^ 63 ->
  - 2 ^ 63 <= applied < 2 ^ 63 ->
  let m := snd (pgvictoria_create_standby_status_update_message
                  received flushed applied current_timestamp y2000_timestamp) in
  kind m = chr "d" /\ length m = 39 /\
  data m = encode_frame
             (mkFrame (chr "d")
                ([chr "r"] ++ int64_bytes received ++ int64_bytes flushed
                 ++ int64_bytes applied
                 ++ int64_bytes (signed 64 (current_timestamp - y2000_timestamp))
                 ++ [0])) /\
  pgvictoria_read_int64 (at_offset (data m) 6) = received /\
  pgvictoria_read_int64 (at_offset (data m) 14) = flushed /\
  pgvictoria_read_int64 (at_offset (data m) 22) = applied /\
  pgvictoria_read_int64 (at_offset (data m) 30)
  = signed 64 (current_timestamp - y2000_timestamp).
Proof.
  intros Hr Hf Ha. cbv zeta.
  unfold pgvictoria_create_standby_status_update_message.
  cbn [fst snd set_data set_kind allocate_message kind length data].
  unfold pgvictoria_write_byte, pgvictoria_write_int32, pgvictoria_write_int64.
  set (now := signed 64 (current_timestamp - y2000_timestamp)).
  assert (Hnow : - 2 ^ 63 <= now < 2 ^ 63).
  { subst now. unfold signed, wrap.
    pose proof (Z.mod_pos_bound (current_timestamp - y2000_timestamp) (2 ^ 64)
                  ltac:(lia)) as Hb.
    change (2 ^ (64 - 1)) with (2 ^ 63).
    destruct (Z.ltb_spec ((current_timestamp - y2000_timestamp) mod 2 ^ 64) (2 ^ 63));
      lia. }
  remember (1 + 4 + 1 + 8 + 8 + 8 + 8 + 1)%nat as size eqn:Hsize.
  match goal with
  | |- _ /\ _ /\ ?d = ?f /\ _ => assert (Hdata : d = f)
  end.
  { write_all.
    match goal with
    | |- context [repeat 0 (?x - ?y)%nat] =>
        replace (x - y)%nat with 0%nat by len
    end.
    rewrite (encode_frame_bytes _ _ (Z.of_nat size - 1)) by len.
    cbn [repeat app]. rewrite <- !app_assoc, app_nil_r. reflexivity. }
  rewrite Hdata. subst size.
  split; [reflexivity|]. split; [reflexivity|]. split; [reflexivity|].
  unfold encode_frame, at_offset. cbn [tag payload].
  generalize (int32_bytes_length
                (frame_length
                   (mkFrame (chr "d")
                      ([chr "r"] ++ int64_bytes received ++ int64_bytes flushed
                       ++ int64_bytes applied ++ int64_bytes now ++ [0])))).
  destruct (int32_bytes _) as [|b0 [|b1 [|b2 [|b3 [|b4 l]]]]]; try discriminate.
  intros _. cbn [app skipn].
  split; [now apply read_int64_int64_bytes|].
  generalize (int64_bytes_length received).
  destruct (int64_bytes received) as [|r0 [|r1 [|r2 [|r3 [|r4 [|r5 [|r6 [|r7 [|r8 l]]]]]]]]];
    try discriminate.
  intros _. cbn [app skipn].
  split; [now apply read_int64_int64_bytes|].
  generalize (int64_bytes_length flushed).
  destruct (int64_bytes flushed) as [|f0 [|f1 [|f2 [|f3 [|f4 [|f5 [|f6 [|f7 [|f8 l]]]]]]]]];
    try discriminate.
  intros _. cbn [app skipn].
  split; [now apply read_int64_int64_bytes|].
  generalize (int64_bytes_length applied).
  destruct (int64_bytes applied) as [|a0 [|a1 [|a2 [|a3 [|a4 [|a5 [|a6 [|a7 [|a8 l]]]]]]]]];
    try discriminate.
  intros _. cbn [app skipn].
  now apply read_int64_int64_bytes.
Qed.

Lemma standby_status_update_example :
  let m := snd (pgvictoria_create_standby_status_update_message
                  4328719365 4328719360 4328719104 946684800000000 946684800000000) in
  kind m = chr "d" /\ length m = 39 /\
  data m = encode_frame
             (mkFrame (chr "d")
                ([chr "r"] ++ int64_bytes 4328719365 ++ int64_bytes 4328719360
                 ++ int64_bytes 4328719104
                 ++ int64_bytes (signed 64 (946684800000000 - 946684800000000))
                 ++ [0])) /\
  pgvictoria_read_int64 (at_offset (data m) 6) = 4328719365 /\
  pgvictoria_read_int64 (at_offset (data m) 14) = 4328719360 /\
  pgvictoria_read_int64 (at_offset (data m) 22) = 4328719104 /\
  pgvictoria_read_int64 (at_offset (data m) 30)
  = signed 64 (946684800000000 - 946684800000000).
Proof.
  apply (standby_status_update_frame 4328719365 4328719360 4328719104
           946684800000000 946684800000000); lia.
Defined.

(** A single well-formed frame is found under its own tag and under no
    other. *)
Lemma has_message_single (type : byte) (f : frame) :
  frame_ok f ->
  pgvictoria_has_message type (encode_frame f)
    (Z.of_nat (List.length (encode_frame f)))
  = Some (type =? tag f).
Proof.
  intros Hok.
  pose proof (has_message_value type [f]) as H.
  cbn [encode_frames flat_map existsb] in H.
  rewrite app_nil_r, orb_false_r in H. apply H.
  - constructor; [exact Hok|constructor].
  - rewrite encode_frame_length. unfold frame_ok in Hok. lia.
Qed.

(** X5.  For a query text of less than 1024 characters
    [pgvictoria_create_query_message] returns a well-formed ['Q'] frame with
    the text and its NUL, which [pgvictoria_has_message] finds under ['Q'] and
    under no other tag. *)
Theorem query_message_frame (query : string) :
  (String.length query < 1024)%nat ->
  exists m : message,
    pgvictoria_create_query_message query = Some (MESSAGE_STATUS_OK, m) /\
    kind m = chr "Q" /\
    length m = Z.of_nat (List.length (data m)) /\
    data m = encode_frame (mkFrame (chr "Q") (bytes_of_string query ++ [0])) /\
    forall type : byte,
      pgvictoria_has_message type (data m) (length m) = Some (type =? chr "Q").
Proof.
  intros Hshort. unfold pgvictoria_create_query_message.
  replace (String.length query <? 1024)%nat with true
    by (symmetry; apply Nat.ltb_lt; exact Hshort).
  set (a := String.length query) in *.
  remember (1 + 4 + a + 1)%nat as size eqn:Hsize.
  eexists. split; [reflexivity|].
  cbn [fst snd set_data set_kind allocate_message kind length data].
  unfold pgvictoria_write_byte, pgvictoria_write_int32.
  match goal with
  | |- _ /\ _ /\ ?d = ?f /\ _ => assert (Hdata : d = f)
  end.
  { write_all.
    match goal with
    | |- context [repeat 0 (?x - ?y)%nat] =>
        replace (x - y)%nat with 1%nat by (fold a; len)
    end.
    rewrite (encode_frame_bytes _ _ (Z.of_nat size - 1))
      by (rewrite !length_app, !bytes_of_string_length;
          fold a; cbn [List.length]; lia).
    cbn [repeat app]. rewrite <- !app_assoc. reflexivity. }
  rewrite Hdata.
  assert (Hlen : Z.of_nat size
                 = Z.of_nat (List.length
                     (encode_frame (mkFrame (chr "Q") (bytes_of_string query ++ [0]))))).
  { rewrite tagged_frame_length, length_app, bytes_of_string_length.
    fold a; cbn [List.length]; lia. }
  repeat split; auto.
  intros type. rewrite Hlen. apply has_message_single.
  unfold frame_ok, frame_length. cbn [payload].
  rewrite length_app, bytes_of_string_length. fold a. cbn [List.length]. lia.
Qed.

Lemma query_message_select_1 :
  exists m : message,
    pgvictoria_create_query_message "SELECT 1;" = Some (MESSAGE_STATUS_OK, m) /\
    kind m = chr "Q" /\
    length m = Z.of_nat (List.length (data m)) /\
    data m = encode_frame (mkFrame (chr "Q") (bytes_of_string "SELECT 1;" ++ [0])) /\
    forall type : byte,
      pgvictoria_has_message type (data m) (length m) = Some (type =? chr "Q").
Proof.
  apply (query_message_frame "SELECT 1;"). cbn. lia.
Defined.

(** X6.  [pgvictoria_send_copy_data] hands a well-formed ['d'] frame with the
    [nbytes] bytes of the buffer as its payload to the transport, and returns
    0 exactly when the write is OK. *)
Theorem send_copy_data_frame (write_status : message_status)
    (buffer : list byte) (nbytes : nat) :
  (nbytes <= List.length buffer)%nat ->
  let r := pgvictoria_send_copy_data write_status buffer nbytes in
  kind (snd r) = chr "d" /\
  length (snd r) = Z.of_nat (List.length (data (snd r))) /\
  data (snd r) = encode_frame (mkFrame (chr "d") (firstn nbytes buffer)) /\
  (fst r = 0 <-> write_status = MESSAGE_STATUS_OK) /\
  (fst r = 0 \/ fst r = 1).
Proof.
  intros Hn. cbv zeta. unfold pgvictoria_send_copy_data.
  remember (1 + 4 + nbytes)%nat as size eqn:Hsize.
  set (msg := set_data _ _).
  assert (Hmsg : kind msg = chr "d" /\
                 length msg = Z.of_nat (List.length (data msg)) /\
                 data msg = encode_frame (mkFrame (chr "d") (firstn nbytes buffer))).
  { subst msg.
    cbn [fst snd set_data set_kind allocate_message kind length data].
    unfold pgvictoria_write_byte, pgvictoria_write_int32, memcpy.
    match goal with
    | |- _ /\ _ /\ ?d = ?f => assert (Hdata : d = f)
    end.
    { assert (Hfirst : List.length (firstn nbytes buffer) = nbytes)
        by (rewrite length_firstn; lia).
      write_all.
      match goal with
      | |- context [repeat 0 (?x - ?y)%nat] =>
          replace (x - y)%nat with 0%nat by (rewrite ?Hfirst; len)
      end.
      rewrite (encode_frame_bytes _ _ (Z.of_nat size - 1)) by (rewrite Hfirst; lia).
      cbn [repeat app]. rewrite <- !app_assoc, app_nil_r. reflexivity. }
    rewrite Hdata. repeat split.
    rewrite tagged_frame_length, length_firstn. lia. }
  destruct Hmsg as (Hk & Hl & Hd).
  destruct write_status; cbn [fst snd]; repeat split; auto; try discriminate;
    try (intros; discriminate).
Qed.

Lemma send_copy_data_example :
  let r := pgvictoria_send_copy_data MESSAGE_STATUS_ERROR [1; 2; 3] 2 in
  kind (snd r) = chr "d" /\
  length (snd r) = Z.of_nat (List.length (data (snd r))) /\
  data (snd r) = encode_frame (mkFrame (chr "d") (firstn 2 [1; 2; 3])) /\
  (fst r = 0 <-> MESSAGE_STATUS_ERROR = MESSAGE_STATUS_OK) /\
  (fst r = 0 \/ fst r = 1).
Proof.
  apply (send_copy_data_frame MESSAGE_STATUS_ERROR [1; 2; 3] 2). cbn. lia.
Defined.

End MessageConstructors.

(** ** Transport *)

Section Transport.
Import Codec Message Wire.

Lemma firstn_plus (A : Type) (a b : nat) (l : list A) :
  firstn (a + b) l = firstn a l ++ firstn b (skipn a l).
Proof.
  revert l. induction a as [|a IH]; intros l; [reflexivity|].
  destruct l as [|x l]; cbn [Nat.add firstn skipn app].
  - now rewrite firstn_nil.
  - now rewrite IH.
Qed.

Lemma firstn_short (A : Type) (n : nat) (l : list A) :
  (n < List.length l)%nat -> exists rest, rest <> [] /\ l = firstn n l ++ rest.
Proof.
  intros Hn. exists (skipn n l). split.
  - intros Hnil. pose proof (length_skipn n l) as Hl. rewrite Hnil in Hl.
    cbn [List.length] in Hl. lia.
  - symmetry. apply firstn_skipn.
Qed.

Lemma signed_small (v : Z) : 0 <= v < 2 ^ 31 -> signed 32 v = v.
Proof.
  intros Hv. unfold signed, wrap. rewrite Z.mod_small by lia.
  replace (v <? 2 ^ (32 - 1)) with true; [reflexivity|].
  symmetry. apply Z.ltb_lt. simpl. lia.
Qed.

(** The loop of [write_message] with [o] bytes on the wire. *)
Lemma write_loop_wire (script : list write_result) (msg : message) :
  forall o : nat,
    length msg = Z.of_nat (List.length (data msg)) ->
    length msg < 2 ^ 31 ->
    (o <= List.length (data msg))%nat ->
    within_offer script (length msg - Z.of_nat o) ->
    match write_loop script msg (Z.of_nat o) (Z.of_nat o)
                     (length msg - Z.of_nat o) (firstn o (data msg)) with
    | Done MESSAGE_STATUS_OK wire => wire = data msg
    | Done _ wire => exists rest, rest <> [] /\ data msg = wire ++ rest
    | Pending wire => exists rest, data msg = wire ++ rest
    end.
Proof.
  induction script as [|r script IH]; intros o Hlen Hint Ho Hoffer;
    cbn [write_loop].
  - exists (skipn o (data msg)). symmetry. apply firstn_skipn.
  - destruct r as [n| |]; cbn [within_offer] in Hoffer.
    + destruct Hoffer as [Hn Hrest].
      unfold ptr, at_offset. rewrite Nat2Z.id.
      assert (Htake : firstn n (firstn (Z.to_nat (Z.min (length msg - Z.of_nat o)
                                                   DEFAULT_BUFFER_SIZE))
                                       (skipn o (data msg)))
                      = firstn n (skipn o (data msg))).
      { rewrite firstn_firstn. f_equal. lia. }
      rewrite Htake, <- firstn_plus.
      destruct (Z.eqb_spec (Z.of_nat o + Z.of_nat n) (length msg)) as [Hall|Hmore].
      * apply firstn_all2. lia.
      * rewrite signed_small by lia.
        replace (Z.of_nat o + Z.of_nat n) with (Z.of_nat (o + n)) by lia.
        replace (length msg - Z.of_nat o - Z.of_nat n)
          with (length msg - Z.of_nat (o + n)) by lia.
        apply IH; auto; try lia.
        replace (length msg - Z.of_nat (o + n))
          with (length msg - Z.of_nat o - Z.of_nat n) by lia.
        apply Hrest. lia.
    + destruct (Z.eqb_spec (Z.of_nat o) (length msg)) as [Hall|Hmore].
      * apply firstn_all2. lia.
      * apply IH; auto.
    + destruct (Z.eqb_spec (Z.of_nat o) (length msg)) as [Hall|Hmore].
      * apply firstn_all2. lia.
      * apply firstn_short. lia.
Qed.

(** The loop of [write_message] over a socket that fails with nothing but
    [EAGAIN] and takes what is left of the message. *)
Lemma write_loop_completes (script : list write_result) (msg : message) :
  forall o : nat,
    length msg = Z.of_nat (List.length (data msg)) ->
    length msg < 2 ^ 31 ->
    within_offer script (length msg - Z.of_nat o) ->
    script <> [] ->
    ~ In WriteFailed script ->
    taken script = length msg - Z.of_nat o ->
    write_loop script msg (Z.of_nat o) (Z.of_nat o)
               (length msg - Z.of_nat o) (firstn o (data msg))
    = Done MESSAGE_STATUS_OK (data msg).
Proof.
  induction script as [|r script IH]; intros o Hlen Hint Hoffer Hne Hfail Htaken;
    [congruence|]; cbn [write_loop].
  assert (Hfail' : ~ In WriteFailed script) by (intros H; apply Hfail; now right).
  assert (Hpos : forall s, 0 <= taken s).
  { induction s as [|[k| |] s IHs]; cbn [taken]; lia. }
  destruct r as [n| |]; cbn [within_offer taken] in *.
  - destruct Hoffer as [Hn Hrest].
    unfold ptr, at_offset. rewrite Nat2Z.id.
    rewrite firstn_firstn.
    replace (Nat.min n (Z.to_nat (Z.min (length msg - Z.of_nat o) DEFAULT_BUFFER_SIZE)))
      with n by lia.
    rewrite <- firstn_plus.
    destruct (Z.eqb_spec (Z.of_nat o + Z.of_nat n) (length msg)) as [Hall|Hmore].
    + f_equal. apply firstn_all2. lia.
    + rewrite signed_small by lia.
      replace (Z.of_nat o + Z.of_nat n) with (Z.of_nat (o + n)) by lia.
      replace (length msg - Z.of_nat o - Z.of_nat n)
        with (length msg - Z.of_nat (o + n)) by lia.
      apply IH; auto; try lia.
      * replace (length msg - Z.of_nat (o + n))
          with (length msg - Z.of_nat o - Z.of_nat n) by lia.
        apply Hrest. lia.
      * intros ->. cbn [taken] in Htaken. lia.
  - destruct (Z.eqb_spec (Z.of_nat o) (length msg)) as [Hall|Hmore].
    + f_equal. apply firstn_all2. lia.
    + apply IH; auto. intros ->. cbn [taken] in Htaken. lia.
  - exfalso. apply Hfail. now left.
Qed.

(** X7.  Over a socket that takes no more than it is offered,
    [write_message] puts the bytes of the message on the wire in their order:
    when it returns OK the wire holds the whole message, when it returns an
    error or the socket answers no more the wire holds a part from the start
    on, and an error leaves a part unsent.  Over a socket that fails with
    nothing but [EAGAIN] and takes the size of the message in all, the
    function returns OK. *)
Theorem write_message_wire (script : list write_result) (msg : message) :
  length msg = Z.of_nat (List.length (data msg)) ->
  length msg < 2 ^ 31 ->
  within_offer script (length msg) ->
  match write_message script msg with
  | Done MESSAGE_STATUS_OK wire => wire = data msg
  | Done _ wire => exists rest, rest <> [] /\ data msg = wire ++ rest
  | Pending wire => exists rest, data msg = wire ++ rest
  end /\
  (script <> [] -> ~ In WriteFailed script -> taken script = length msg ->
   write_message script msg = Done MESSAGE_STATUS_OK (data msg)).
Proof.
  intros Hlen Hint Hoffer. unfold write_message.
  pose proof (write_loop_wire script msg 0 Hlen Hint) as Hwire.
  pose proof (write_loop_completes script msg 0 Hlen Hint) as Hdone.
  cbn [Z.of_nat firstn] in Hwire, Hdone. rewrite Z.sub_0_r in Hwire, Hdone.
  split.
  - apply Hwire; [lia | exact Hoffer].
  - intros Hne Hfail Htaken. apply Hdone; auto.
Qed.

(** X7 at a message of five bytes that the socket takes in two parts with
    an [EAGAIN] between them. *)
Lemma write_message_wire_example :
  write_message [Wrote 2; WriteAgain; Wrote 3] (mkMessage 90 5 [90; 0; 0; 0; 4])
  = Done MESSAGE_STATUS_OK [90; 0; 0; 0; 4].
Proof.
  refine (proj2 (write_message_wire [Wrote 2; WriteAgain; Wrote 3]
                   (mkMessage 90 5 [90; 0; 0; 0; 4]) _ _ _) _ _ _).
  - reflexivity.
  - reflexivity.
  - cbn [within_offer]. unfold DEFAULT_BUFFER_SIZE. cbn. lia.
  - discriminate.
  - intros [H|[H|[H|[]]]]; discriminate.
  - reflexivity.
Defined.

(** The loop of [ssl_write_message] with [o] bytes on the wire. *)
Lemma ssl_write_loop_wire (script : list ssl_write_result) (msg : message) :
  forall (o : nat) (keep_write : bool),
    length msg = Z.of_nat (List.length (data msg)) ->
    length msg < 2 ^ 31 ->
    (o <= List.length (data msg))%nat ->
    (Z.of_nat o = length msg -> o = 0%nat) ->
    ssl_within_offer script (length msg - Z.of_nat o) ->
    match ssl_write_loop script msg keep_write (Z.of_nat o) (Z.of_nat o)
                         (length msg - Z.of_nat o) (firstn o (data msg)) with
    | Done MESSAGE_STATUS_OK wire => wire = data msg
    | Done _ wire =>
        exists rest, data msg = wire ++ rest /\ (0 < length msg -> rest <> [])
    | Pending wire => exists rest, data msg = wire ++ rest
    end.
Proof.
  induction script as [|r script IH]; intros o keep_write Hlen Hint Ho Hfull Hoffer;
    cbn [ssl_write_loop].
  - exists (skipn o (data msg)). symmetry. apply firstn_skipn.
  - cbn [ssl_within_offer] in Hoffer. destruct Hoffer as [Hn Hrest].
    unfold ptr, at_offset. rewrite Nat2Z.id.
    assert (Htake : firstn o (data msg)
                    ++ firstn (Z.to_nat (ssl_numbytes r))
                         (firstn (Z.to_nat (length msg - Z.of_nat o))
                                 (skipn o (data msg)))
                    = firstn (o + Z.to_nat (ssl_numbytes r)) (data msg)).
    { rewrite firstn_firstn, firstn_plus. do 2 f_equal. lia. }
    destruct (Z.eqb_spec (ssl_numbytes r) (length msg)) as [Hall|Hpart].
    + rewrite Htake. apply firstn_all2. lia.
    + destruct (Z.gtb_spec (ssl_numbytes r) 0) as [Hpos|Hnone].
      * rewrite Htake.
        destruct (Z.eqb_spec (Z.of_nat o + ssl_numbytes r) (length msg))
          as [Hall|Hmore].
        -- apply firstn_all2. lia.
        -- rewrite signed_small by lia.
           replace (Z.of_nat o + ssl_numbytes r)
             with (Z.of_nat (o + Z.to_nat (ssl_numbytes r))) by lia.
           replace (length msg - Z.of_nat o - ssl_numbytes r)
             with (length msg - Z.of_nat (o + Z.to_nat (ssl_numbytes r))) by lia.
           apply IH; auto; try lia.
           replace (length msg - Z.of_nat (o + Z.to_nat (ssl_numbytes r)))
             with (length msg - Z.of_nat o - Z.max 0 (ssl_numbytes r)) by lia.
           apply Hrest. lia.
      * assert (Hnext : ssl_within_offer script (length msg - Z.of_nat o)).
        { destruct (Z.eq_dec (Z.of_nat o) (length msg)) as [Heq|Hneq].
          - assert (ssl_numbytes r < 0) by lia.
            replace (length msg - Z.of_nat o)
              with (length msg - Z.of_nat o - Z.max 0 (ssl_numbytes r)) by lia.
            apply Hrest. lia.
          - replace (length msg - Z.of_nat o)
              with (length msg - Z.of_nat o - Z.max 0 (ssl_numbytes r)) by lia.
            apply Hrest. lia. }
        assert (Herror : exists rest,
                   data msg = firstn o (data msg) ++ rest /\
                   (0 < length msg -> rest <> [])).
        { exists (skipn o (data msg)). split.
          - symmetry. apply firstn_skipn.
          - intros Hsome Hnil.
            pose proof (length_skipn o (data msg)) as Hl. rewrite Hnil in Hl.
            cbn [List.length] in Hl. lia. }
        destruct (ssl_err r); [apply IH; auto | exact Herror |].
        destruct keep_write; [apply IH; auto | exact Herror].
Qed.

(** X8.  Over TLS the same holds of [ssl_write_message]: OK means that the
    whole message is on the wire, otherwise the wire holds a part of the
    message from its start on, and an error for a message that is not empty
    leaves a part unsent. *)
Theorem ssl_write_message_wire (script : list ssl_write_result) (msg : message) :
  length msg = Z.of_nat (List.length (data msg)) ->
  length msg < 2 ^ 31 ->
  ssl_within_offer script (length msg) ->
  match ssl_write_message script msg with
  | Done MESSAGE_STATUS_OK wire => wire = data msg
  | Done _ wire =>
      exists rest, data msg = wire ++ rest /\ (0 < length msg -> rest <> [])
  | Pending wire => exists rest, data msg = wire ++ rest
  end.
Proof.
  intros Hlen Hint Hoffer. unfold ssl_write_message.
  pose proof (ssl_write_loop_wire script msg 0 false Hlen Hint) as Hwire.
  cbn [Z.of_nat firstn] in Hwire. rewrite Z.sub_0_r in Hwire.
  apply Hwire; [lia | reflexivity | exact Hoffer].
Qed.

(** X8 at a message of five bytes of which TLS takes two, then wants a
    retry, then fails. *)
Lemma ssl_write_message_wire_example :
  match ssl_write_message
          [mkSslWrite 2 SSL_RETRY; mkSslWrite (-1) SSL_RETRY; mkSslWrite (-1) SSL_FATAL]
          (mkMessage 90 5 [90; 0; 0; 0; 4]) with
  | Done MESSAGE_STATUS_OK wire => wire = [90; 0; 0; 0; 4]
  | Done _ wire =>
      exists rest, [90; 0; 0; 0; 4] = wire ++ rest /\ (0 < 5 -> rest <> [])
  | Pending wire => exists rest, [90; 0; 0; 0; 4] = wire ++ rest
  end.
Proof.
  apply (ssl_write_message_wire
           [mkSslWrite 2 SSL_RETRY; mkSslWrite (-1) SSL_RETRY; mkSslWrite (-1) SSL_FATAL]
           (mkMessage 90 5 [90; 0; 0; 0; 4])).
  - reflexivity.
  - reflexivity.
  - cbn. lia.
Defined.

End Transport.

(** ** The status of a query *)

Section QueryStatus.
Import Codec Message Wire.



(** [nth] through a [map]. *)
Lemma nth_seen (columns : list (option (list byte))) (i : nat) :
  nth i (map seen_column columns) None = seen_column (nth i columns None).
Proof.
  revert i. induction columns as [|c columns IH]; intros [|i]; cbn [map nth]; auto.
Qed.



End QueryStatus.

(** ** Strings and files under a password *)

Section StringCrypto.
Import Codec Aes.
Context {ssl : OpenSSL} {host : Host}.


End StringCrypto.

Section StringCryptoExample.
Import Codec Aes.


End StringCryptoExample.

Section FileRoundTrip.
Import Codec Aes.
Context {ssl : OpenSSL} {host : Host}.

Lemma take_all (A : Type) (l : list A) :
  forall n : Z, Z.of_nat (List.length l) <= n -> take n l = l.
Proof.
  induction l as [|x l IH]; intros n Hn; cbn [take]; [reflexivity|].
  cbn [List.length] in Hn.
  destruct (Z.leb_spec n 0); [lia|]. f_equal. apply IH. lia.
Qed.

Lemma drop_all (A : Type) (l : list A) :
  forall n : Z, Z.of_nat (List.length l) <= n -> drop n l = [].
Proof.
  induction l as [|x l IH]; intros n Hn; cbn [drop]; [reflexivity|].
  cbn [List.length] in Hn.
  destruct (Z.leb_spec n 0); [lia|]. apply IH. lia.
Qed.

(** A file of at most one buffer goes through [EVP_CipherUpdate] once. *)
Lemma cipher_blocks_single (ctx ctx' : EVP_CIPHER_CTX) (input out : list byte) :
  input <> [] ->
  Z.of_nat (List.length input) <= ENC_BUF_SIZE ->
  EVP_CipherUpdate ctx input = Some (ctx', out) ->
  cipher_blocks (S (List.length input)) ctx input [] = (Some ctx', out).
Proof.
  intros Hne Hfit Hupd. cbn [cipher_blocks].
  rewrite take_all, drop_all by assumption.
  destruct input as [|x input]; [congruence|].
  rewrite Hupd. cbn [List.length cipher_blocks take app]. reflexivity.
Qed.

Lemma aes_name_differs (from : string) :
  String.eqb (from ++ ".aes") from = false /\
  String.eqb from (from ++ ".aes") = false.
Proof.
  assert (Hneq : (from ++ ".aes")%string <> from).
  { intros Heq. apply (f_equal String.length) in Heq.
    rewrite string_length_app in Heq. cbn [String.length] in Heq. lia. }
  split; apply String.eqb_neq; congruence.
Qed.

(** A run of [encrypt_file] over a source of at most one buffer in which
    every call of OpenSSL succeeds. *)
Lemma encrypt_file_single (fs : filesystem) (from to : string) (enc : Z)
    (mk : string) (key iv content out fin : list byte)
    (ctx ectx ectx' : EVP_CIPHER_CTX) :
  master_key = Some mk ->
  derive_key_iv mk ENCRYPTION_AES_256_CBC = Some (key, iv) ->
  EVP_CIPHER_CTX_new = Some ctx ->
  fs from = Some content ->
  can_write to = true ->
  String.eqb to from = false ->
  EVP_CipherInit_ex ctx EVP_aes_256_cbc key iv enc = Some ectx ->
  content <> [] ->
  Z.of_nat (List.length content) <= ENC_BUF_SIZE ->
  EVP_CipherUpdate ectx content = Some (ectx', out) ->
  EVP_CipherFinal_ex ectx' = Some fin ->
  encrypt_file fs from to enc = (0, fs_write (fs_write fs to []) to (out ++ fin)).
Proof.
  intros Hmk Hkey Hctx Hfrom Hcan Hdiff Hinit Hne Hfit Hupd Hfin.
  unfold encrypt_file.
  change (get_cipher ENCRYPTION_AES_256_CBC) with EVP_aes_256_cbc.
  rewrite Hmk, Hkey, Hctx, Hfrom, Hcan, Hdiff, Hinit. cbn [negb].
  rewrite (cipher_blocks_single ectx ectx' content out) by auto.
  now rewrite Hfin.
Qed.

(** What a status 0 of [encrypt_file] tells about the run. *)
Lemma encrypt_file_ok (fs : filesystem) (from to : string) (enc : Z)
    (content : list byte) :
  fs from = Some content ->
  String.eqb to from = false ->
  content <> [] ->
  Z.of_nat (List.length content) <= ENC_BUF_SIZE ->
  fst (encrypt_file fs from to enc) = 0 ->
  exists (mk : string) (key iv out fin : list byte) (ctx ectx ectx' : EVP_CIPHER_CTX),
    master_key = Some mk /\
    derive_key_iv mk ENCRYPTION_AES_256_CBC = Some (key, iv) /\
    EVP_CIPHER_CTX_new = Some ctx /\
    can_write to = true /\
    EVP_CipherInit_ex ctx EVP_aes_256_cbc key iv enc = Some ectx /\
    EVP_CipherUpdate ectx content = Some (ectx', out) /\
    EVP_CipherFinal_ex ectx' = Some fin.
Proof.
  intros Hfrom Hdiff Hne Hfit Hstatus.
  unfold encrypt_file in Hstatus.
  change (get_cipher ENCRYPTION_AES_256_CBC) with EVP_aes_256_cbc in Hstatus.
  destruct master_key as [mk|] eqn:Hmk; [|discriminate].
  destruct (derive_key_iv mk ENCRYPTION_AES_256_CBC) as [[key iv]|] eqn:Hkey;
    [|discriminate].
  destruct EVP_CIPHER_CTX_new as [ctx|] eqn:Hctx; [|discriminate].
  rewrite Hfrom, Hdiff in Hstatus.
  destruct (can_write to) eqn:Hcan; [|discriminate]. cbn [negb] in Hstatus.
  destruct (EVP_CipherInit_ex ctx EVP_aes_256_cbc key iv enc) as [ectx|] eqn:Hinit;
    [|discriminate].
  destruct (EVP_CipherUpdate ectx content) as [[ectx' out]|] eqn:Hupd.
  - rewrite (cipher_blocks_single ectx ectx' content out) in Hstatus by auto.
    destruct (EVP_CipherFinal_ex ectx') as [fin|] eqn:Hfin; [|discriminate].
    exists mk, key, iv, out, fin, ctx, ectx, ectx'. repeat split; auto.
  - cbn [cipher_blocks] in Hstatus.
    rewrite take_all in Hstatus by lia.
    destruct content; [congruence|]. rewrite Hupd in Hstatus. discriminate.
Qed.

(** X12.  Let [pgvictoria_encrypt_file] encrypt a file that is not empty and
    fits one buffer together with a cipher block, into the file of the same
    name with [.aes] appended.  Then the source is gone and the encrypted
    file is there, and [pgvictoria_decrypt_file] from the encrypted file back
    to the source name restores the content, removes the encrypted file and
    leaves every other file as it was. *)
Theorem encrypt_decrypt_file_round_trip
    (fs : filesystem) (from : string) (content : list byte) :
  evp_inverts EVP_aes_256_cbc ->
  fs from = Some content ->
  content <> [] ->
  0 <= EVP_CIPHER_block_size EVP_aes_256_cbc ->
  Z.of_nat (List.length content) + EVP_CIPHER_block_size EVP_aes_256_cbc
    <= ENC_BUF_SIZE ->
  can_write from = true ->
  fst (encrypt_file fs from (from ++ ".aes") 1) = 0 ->
  let fs1 := snd (pgvictoria_encrypt_file fs from None) in
  let r := pgvictoria_decrypt_file fs1 (from ++ ".aes") (Some from) in
  fs1 from = None /\
  fs1 (from ++ ".aes")%string <> None /\
  fst r = 0 /\
  snd r from = Some content /\
  snd r (from ++ ".aes")%string = None /\
  forall p : string, p <> from -> p <> (from ++ ".aes")%string -> snd r p = fs p.
Proof.
  intros Hevp Hfrom Hne Hblock Hfit Hwrite Hstatus. cbv zeta.
  destruct (aes_name_differs from) as [Hto_from Hfrom_to].
  unfold pgvictoria_encrypt_file.
  set (to := (from ++ ".aes")%string) in *.
  assert (Hexists : pgvictoria_exists fs from = true)
    by (unfold pgvictoria_exists; now rewrite Hfrom).
  rewrite Hexists. cbn [negb snd].
  destruct (encrypt_file_ok fs from to 1 content Hfrom Hto_from Hne
              ltac:(lia) Hstatus)
    as (mk & key & iv & out & fin & ctx & ectx & ectx'
        & Hmk & Hkey & Hctx & Hcan & Hinit & Hupd & Hfin).
  rewrite (encrypt_file_single fs from to 1 mk key iv content out fin ctx ectx ectx')
    by (auto; lia).
  cbn [snd].
  destruct (Hevp ctx ectx ectx' key iv content out fin Hinit Hupd Hfin)
    as [Hbound Hdec].
  destruct (Hdec ctx) as (dctx & dctx' & out' & fin' & Hdinit & Hdupd & Hdfin & Hplain).
  set (fs0 := fs_write (fs_write fs to []) to (out ++ fin)).
  assert (Hfs0_from : fs0 from = Some content).
  { subst fs0. unfold fs_write. now rewrite Hfrom_to. }
  assert (Hexists0 : pgvictoria_exists fs0 from = true)
    by (unfold pgvictoria_exists; now rewrite Hfs0_from).
  rewrite Hexists0.
  set (fs1 := pgvictoria_delete_file fs0 from).
  assert (Hfs1_to : fs1 to = Some (out ++ fin)).
  { subst fs1 fs0. unfold pgvictoria_delete_file, fs_remove, fs_write.
    now rewrite Hto_from, String.eqb_refl. }
  assert (Hfs1_from : fs1 from = None) by apply fs_remove_gone.
  split; [exact Hfs1_from|].
  split; [rewrite Hfs1_to; discriminate|].
  unfold pgvictoria_decrypt_file.
  assert (Hexists1 : pgvictoria_exists fs1 to = true)
    by (unfold pgvictoria_exists; now rewrite Hfs1_to).
  rewrite Hexists1. cbn [negb fst snd].
  split; [reflexivity|].
  assert (Hsome : out ++ fin <> []).
  { intros Hnil. rewrite Hnil in Hbound. cbn [List.length] in Hbound.
    destruct content; [congruence|]. cbn [List.length] in Hbound. lia. }
  rewrite (encrypt_file_single fs1 to from 0 mk key iv (out ++ fin) out' fin'
             ctx dctx dctx') by (auto; lia).
  rewrite Hplain. cbn [snd].
  set (fs2 := fs_write (fs_write fs1 from []) from content).
  assert (Hfs2_to : fs2 to = Some (out ++ fin)).
  { subst fs2. unfold fs_write. now rewrite Hto_from. }
  assert (Hexists2 : pgvictoria_exists fs2 to = true)
    by (unfold pgvictoria_exists; now rewrite Hfs2_to).
  rewrite Hexists2.
  unfold pgvictoria_delete_file, fs_remove.
  rewrite Hfrom_to, String.eqb_refl.
  split; [subst fs2; unfold fs_write; now rewrite String.eqb_refl|].
  split; [reflexivity|].
  intros p Hp_from Hp_to.
  apply String.eqb_neq in Hp_from, Hp_to.
  rewrite Hp_to. subst fs2 fs1 fs0.
  unfold fs_write, pgvictoria_delete_file, fs_remove.
  now rewrite Hp_from, Hp_to.
Qed.

End FileRoundTrip.

Section FileRoundTripExample.
Import Codec Aes.

(** X12 at the file [base.tar] with the content [data], with the stand-in
    cipher and the master key [topsecret]. *)
Lemma encrypt_decrypt_file_base_tar :
  let fs := one_file "base.tar" (bytes_of_string "data") in
  let fs1 := snd (@pgvictoria_encrypt_file xor_openssl keyed_host fs "base.tar" None) in
  let r := @pgvictoria_decrypt_file xor_openssl keyed_host fs1 "base.tar.aes"
             (Some "base.tar"%string) in
  fs1 "base.tar"%string = None /\
  fs1 "base.tar.aes"%string <> None /\
  fst r = 0 /\
  snd r "base.tar"%string = Some (bytes_of_string "data") /\
  snd r "base.tar.aes"%string = None /\
  forall p : string, p <> "base.tar"%string -> p <> "base.tar.aes"%string ->
                     snd r p = fs p.
Proof.
  apply (@encrypt_decrypt_file_round_trip xor_openssl keyed_host
           (one_file "base.tar" (bytes_of_string "data")) "base.tar"
           (bytes_of_string "data")).
  - apply xor_openssl_inverts.
  - reflexivity.
  - discriminate.
  - vm_compute. discriminate.
  - vm_compute. discriminate.
  - reflexivity.
  - reflexivity.
Defined.

End FileRoundTripExample.

(** ** What a reload takes over *)

Section ReloadFields.
Import Codec Configuration.

(** What is kept and what is taken over. *)
Lemma transfer_configuration_live (config reload : main_configuration) :
  let live := snd (fst (transfer_configuration config reload)) in
  (host live, pidfile live, libev live, hugepage live, update_process_title live,
   unix_socket_dir live, running live)
  = (host config, pidfile config, libev config, hugepage config,
     update_process_title config, unix_socket_dir config, running config) /\
  (log_type (common live), servers (common live), number_of_servers (common live),
   home_dir (common live), configuration_path (common live), users_path (common live))
  = (log_type (common config), servers (common config),
     number_of_servers (common config), home_dir (common config),
     configuration_path (common config), users_path (common config)) /\
  (log_level (common live), authentication_timeout live, backlog live,
   number_of_users (common live))
  = (log_level (common reload), authentication_timeout reload, backlog reload,
     number_of_users (common reload)) /\
  users (common live)
  = map (fun i => nth i (users (common reload)) no_user) (seq 0 NUMBER_OF_USERS).
Proof.
  cbv zeta. unfold transfer_configuration.
  repeat (rewrite bind_fst; cbv beta).
  cbn [ret fst snd].
  match goal with
  | |- context [fst (if ?c then _ else _)] => destruct c
  end; cbn [fst]; repeat split;
    cbn [with_common common users set_users set_number_of_users];
    unfold copy_users; apply map_ext; intros i; unfold copy_user;
    now destruct (nth i (users (common reload)) no_user).
Qed.

(** X13.  Whatever the reload holds and whatever [changed] comes to,
    [transfer_configuration] leaves the settings that need a restart as they
    are in the live configuration (host, PID file, libev, huge pages, process
    title, socket directory, log type, servers and their number) and takes
    over the log level, the authentication timeout, the backlog, the number
    of users and the 64 slots of the users table. *)
Theorem transfer_configuration_fields (config reload : main_configuration) :
  let live := snd (fst (transfer_configuration config reload)) in
  (host live, pidfile live, libev live, hugepage live, update_process_title live,
   unix_socket_dir live, running live)
  = (host config, pidfile config, libev config, hugepage config,
     update_process_title config, unix_socket_dir config, running config) /\
  (log_type (common live), servers (common live), number_of_servers (common live),
   home_dir (common live), configuration_path (common live), users_path (common live))
  = (log_type (common config), servers (common config),
     number_of_servers (common config), home_dir (common config),
     configuration_path (common config), users_path (common config)) /\
  (log_level (common live), authentication_timeout live, backlog live,
   number_of_users (common live))
  = (log_level (common reload), authentication_timeout reload, backlog reload,
     number_of_users (common reload)) /\
  users (common live)
  = map (fun i => nth i (users (common reload)) no_user) (seq 0 NUMBER_OF_USERS).
Proof. exact (transfer_configuration_live config reload). Qed.

Lemma restart_string_notice (name e n : string) :
  forallb is_restart_notice (snd (restart_string name e n)) = true.
Proof. unfold restart_string. now destruct (String.eqb e n). Qed.

Lemma restart_int_notice (name : string) (e n : Z) :
  forallb is_restart_notice (snd (restart_int name e n)) = true.
Proof. unfold restart_int. now destruct (e =? n). Qed.

Lemma copy_server_notice (dst src : server) :
  forallb is_restart_notice (snd (copy_server dst src)) = true.
Proof.
  unfold copy_server. rewrite !bind_snd. cbn [ret snd].
  rewrite !forallb_app, !restart_string_notice, !restart_int_notice. reflexivity.
Qed.

Lemma copy_servers_notice (todo : nat) :
  forall (i : nat) (config reload : list server) (changed : bool),
    forallb is_restart_notice (snd (copy_servers todo i config reload changed)) = true.
Proof.
  induction todo as [|todo IH]; intros i config reload changed;
    cbn [copy_servers]; [reflexivity|].
  now rewrite bind_snd, forallb_app, copy_server_notice, IH.
Qed.

(** The events of [transfer_configuration] behind the log settings. *)
Lemma transfer_configuration_events (config reload : main_configuration) :
  exists before after : list event,
    snd (transfer_configuration config reload)
    = before
      ++ (if log_routing_differs config reload
          then [LogRestartTriggered; StopLogging; StartLogging] else [])
      ++ after /\
    forallb is_restart_notice before = true /\
    forallb is_restart_notice after = true.
Proof.
  unfold transfer_configuration.
  remember (copy_servers NUMBER_OF_SERVERS 0) as cs eqn:Hcs.
  do 10 (rewrite bind_snd; cbv beta).
  cbn [with_common common set_log_level log_path log_rotation_size
       log_rotation_age log_mode].
  fold (log_routing_differs config reload).
  rewrite app_assoc.
  match goal with
  | |- exists before after, ?a ++ ?c ++ ?rest = _ /\ _ => exists a, rest
  end.
  split; [|split].
  - destruct (log_routing_differs config reload); reflexivity.
  - now rewrite forallb_app, restart_string_notice, restart_int_notice.
  - rewrite !forallb_app. cbn [ret snd forallb].
    rewrite !restart_string_notice, !restart_int_notice.
    subst cs. rewrite copy_servers_notice.
    rewrite !andb_true_r.
    match goal with
    | |- context [if ?c then _ else _] => destruct c
    end; [apply restart_string_notice | reflexivity].
Qed.

(** X14.  [transfer_configuration] takes over the settings of the logger
    (path, mode, rotation size, rotation age, line prefix) and restarts the
    logger once exactly when the reload differs in the path, the mode, the
    rotation size or the rotation age.  A reload that differs in the line
    prefix only keeps the old prefix. *)
Theorem transfer_configuration_log_routing (config reload : main_configuration) :
  let live := snd (fst (transfer_configuration config reload)) in
  let events := snd (transfer_configuration config reload) in
  if log_routing_differs config reload then
    log_routing (common live) = log_routing (common reload) /\
    filter (fun e => negb (is_restart_notice e)) events
    = [LogRestartTriggered; StopLogging; StartLogging]
  else
    log_routing (common live) = log_routing (common config) /\
    filter (fun e => negb (is_restart_notice e)) events = [].
Proof.
  cbv zeta.
  destruct (transfer_configuration_events config reload)
    as (before & after & -> & Hbefore & Hafter).
  assert (Hnone : forall l, forallb is_restart_notice l = true ->
                            filter (fun e => negb (is_restart_notice e)) l = []).
  { induction l as [|e l IH]; cbn [forallb filter]; [reflexivity|].
    intros H. apply andb_prop in H. destruct H as [-> Hl]. cbn [negb]. auto. }
  rewrite !filter_app, (Hnone before Hbefore), (Hnone after Hafter), app_nil_r.
  cbn [app].
  unfold transfer_configuration.
  repeat (rewrite bind_fst; cbv beta).
  cbn [ret fst snd].
  cbn [with_common common set_log_level log_path log_rotation_size
       log_rotation_age log_mode].
  fold (log_routing_differs config reload).
  destruct (log_routing_differs config reload); cbn [fst filter]; split; reflexivity.
Qed.

Lemma servers_differ_none (todo : nat) :
  forall (i : nat) (config reload : list server),
    servers_differ todo i config reload = false <->
    forall j, (i <= j < i + todo)%nat ->
              server_differs (nth j config no_server) (nth j reload no_server) = false.
Proof.
  induction todo as [|todo IH]; intros i config reload; cbn [servers_differ].
  - split; [intros _ j Hj; lia | reflexivity].
  - rewrite orb_false_iff, IH. split.
    + intros [Hi Hrest] j Hj.
      destruct (Nat.eq_dec i j) as [->|Hne]; [exact Hi | apply Hrest; lia].
    + intros Hall. split; [apply Hall; lia | intros j Hj; apply Hall; lia].
Qed.

Lemma server_differs_false (dst src : server) :
  server_differs dst src = false <->
  server_name dst = server_name src /\ server_host dst = server_host src /\
  server_port dst = server_port src /\ server_username dst = server_username src.
Proof.
  unfold server_differs.
  rewrite !orb_false_iff, !negb_false_iff, !String.eqb_eq, Z.eqb_eq. tauto.
Qed.

(** X15.  [transfer_configuration] returns [changed = false] exactly when
    the reload agrees with the live configuration in the host, the log type,
    libev, huge pages, the process title policy, the socket directory, the
    number of servers, and the name, host, port and user name of each of the
    64 server slots.  No other setting enters [changed]. *)
Theorem transfer_configuration_restart_iff (config reload : main_configuration) :
  fst (fst (transfer_configuration config reload)) = false <->
  host config = host reload /\
  log_type (common config) = log_type (common reload) /\
  libev config = libev reload /\
  hugepage config = hugepage reload /\
  update_process_title config = update_process_title reload /\
  unix_socket_dir config = unix_socket_dir reload /\
  number_of_servers (common config) = number_of_servers (common reload) /\
  forall j, (j < NUMBER_OF_SERVERS)%nat ->
    let a := nth j (servers (common config)) no_server in
    let b := nth j (servers (common reload)) no_server in
    server_name a = server_name b /\ server_host a = server_host b /\
    server_port a = server_port b /\ server_username a = server_username b.
Proof.
  rewrite transfer_configuration_changed. unfold restart_required.
  rewrite !orb_false_iff, !negb_false_iff, !String.eqb_eq, !Z.eqb_eq.
  rewrite servers_differ_none. cbv zeta.
  split.
  - intros (((((((H1 & H2) & H3) & H4) & H5) & H6) & H7) & H8).
    repeat split; auto; apply server_differs_false; apply H7; lia.
  - intros (H1 & H2 & H3 & H4 & H5 & H6 & H7 & H8).
    repeat split; auto. intros j Hj. apply server_differs_false. apply H8. lia.
Qed.

End ReloadFields.

(** ** Validation *)

Section Validation.
Import Codec Configuration.

Lemma length_zero (s : string) : (String.length s =? 0)%nat = true <-> s = ""%string.
Proof.
  destruct s; cbn; split; intros H; try reflexivity; discriminate.
Qed.

Lemma length_not_zero (s : string) : (String.length s =? 0)%nat = false <-> s <> ""%string.
Proof.
  destruct s; cbn; split; intros H; try discriminate; try congruence; auto.
Qed.

(** A server that [pgvictoria_validate_main_configuration] lets pass. *)
Lemma validate_servers_ok (todo : nat) :
  forall (i : nat) (servers : list server),
    (validate_servers todo i servers = 0 <->
     forall j, (i <= j < i + todo)%nat ->
       let s := nth j servers no_server in
       server_name s <> "pgvictoria"%string /\ server_name s <> "all"%string /\
       server_host s <> ""%string /\ server_port s <> 0 /\
       server_username s <> ""%string) /\
    (validate_servers todo i servers = 0 \/ validate_servers todo i servers = 1).
Proof.
  induction todo as [|todo IH]; intros i servers; cbn [validate_servers].
  - split; [|now left]. split; [intros _ j Hj; lia | reflexivity].
  - cbv zeta.
    destruct (String.eqb_spec (server_name (nth i servers no_server)) "pgvictoria")
      as [Hp|Hp].
    { split; [|now right]. split; [discriminate|].
      intros H. destruct (H i ltac:(lia)) as (Hn & _). congruence. }
    destruct (String.eqb_spec (server_name (nth i servers no_server)) "all")
      as [Ha|Ha].
    { split; [|now right]. split; [discriminate|].
      intros H. destruct (H i ltac:(lia)) as (_ & Hn & _). congruence. }
    destruct (String.length (server_host (nth i servers no_server)) =? 0)%nat eqn:Hh.
    { split; [|now right]. split; [discriminate|].
      intros H. destruct (H i ltac:(lia)) as (_ & _ & Hn & _).
      apply length_zero in Hh. congruence. }
    destruct (Z.eqb_spec (server_port (nth i servers no_server)) 0) as [Hport|Hport].
    { split; [|now right]. split; [discriminate|].
      intros H. destruct (H i ltac:(lia)) as (_ & _ & _ & Hn & _). congruence. }
    destruct (String.length (server_username (nth i servers no_server)) =? 0)%nat
      eqn:Hu.
    { split; [|now right]. split; [discriminate|].
      intros H. destruct (H i ltac:(lia)) as (_ & _ & _ & _ & Hn).
      apply length_zero in Hu. congruence. }
    apply length_not_zero in Hh, Hu.
    destruct (IH (S i) servers) as [Hiff Hstatus]. split; [|exact Hstatus].
    rewrite Hiff. split.
    + intros H j Hj. destruct (Nat.eq_dec i j) as [<-|Hne]; [auto|apply H; lia].
    + intros H j Hj. apply H. lia.
Qed.

Lemma set_backlog_same (config : main_configuration) :
  set_backlog (backlog config) config = config.
Proof. now destruct config. Qed.

(** X16.  [pgvictoria_validate_main_configuration] returns 0 exactly when the
    host and the socket directory are set, the socket directory is a
    directory, there is a server, and every server has a name other than
    [pgvictoria] and [all], a host, a port other than 0 and a user name.
    Then the backlog behind the call is the backlog or 16, whichever is
    larger.  The call changes nothing but the backlog, and returns 0 or 1. *)
Theorem validate_main_configuration_iff (is_directory : string -> bool)
    (config : main_configuration) :
  number_of_servers (common config)
    <= Z.of_nat (List.length (servers (common config))) ->
  let r := pgvictoria_validate_main_configuration is_directory config in
  (fst r = 0 <->
   host config <> ""%string /\
   unix_socket_dir config <> ""%string /\
   is_directory (unix_socket_dir config) = true /\
   0 < number_of_servers (common config) /\
   forall j, (j < Z.to_nat (number_of_servers (common config)))%nat ->
     let s := nth j (servers (common config)) no_server in
     server_name s <> "pgvictoria"%string /\ server_name s <> "all"%string /\
     server_host s <> ""%string /\ server_port s <> 0 /\
     server_username s <> ""%string) /\
  (fst r = 0 \/ fst r = 1) /\
  (fst r = 0 -> snd r = set_backlog (Z.max 16 (backlog config)) config) /\
  (snd r = config \/ snd r = set_backlog 16 config).
Proof.
  intros _. cbv zeta. unfold pgvictoria_validate_main_configuration.
  destruct (String.length (host config) =? 0)%nat eqn:Hhost.
  { apply length_zero in Hhost. cbn [fst snd].
    repeat split; try discriminate; auto. intros (H & _). congruence. }
  destruct (String.length (unix_socket_dir config) =? 0)%nat eqn:Husd.
  { apply length_zero in Husd. cbn [fst snd].
    repeat split; try discriminate; auto. intros (_ & H & _). congruence. }
  destruct (is_directory (unix_socket_dir config)) eqn:Hdir; cbn [negb].
  2:{ cbn [fst snd]. repeat split; try discriminate; auto.
      intros (_ & _ & H & _). congruence. }
  apply length_not_zero in Hhost, Husd.
  set (clamped := if backlog config <? 16 then set_backlog 16 config else config).
  assert (Hcommon : common clamped = common config)
    by (subst clamped; now destruct (backlog config <? 16)).
  assert (Hclamped : clamped = set_backlog (Z.max 16 (backlog config)) config).
  { subst clamped. destruct (Z.ltb_spec (backlog config) 16).
    - now rewrite Z.max_l by lia.
    - rewrite Z.max_r by lia. symmetry. apply set_backlog_same. }
  assert (Heither : clamped = config \/ clamped = set_backlog 16 config)
    by (subst clamped; destruct (backlog config <? 16); auto).
  rewrite Hcommon.
  destruct (Z.leb_spec (number_of_servers (common config)) 0) as [Hnone|Hsome].
  { cbn [fst snd]. repeat split; try discriminate; auto.
    intros (_ & _ & _ & H & _). lia. }
  cbn [fst snd].
  destruct (validate_servers_ok (Z.to_nat (number_of_servers (common config))) 0
              (servers (common config))) as [Hiff Hstatus].
  split; [|auto]. rewrite Hiff. split.
  - intros H. repeat split; auto; apply H; lia.
  - intros (_ & _ & _ & _ & H) j Hj. apply H. lia.
Qed.

Lemma validate_main_configuration_baseline :
  let r := pgvictoria_validate_main_configuration (fun _ => true) baseline in
  (fst r = 0 <->
   host baseline <> ""%string /\
   unix_socket_dir baseline <> ""%string /\
   true = true /\
   0 < number_of_servers (common baseline) /\
   forall j, (j < Z.to_nat (number_of_servers (common baseline)))%nat ->
     let s := nth j (servers (common baseline)) no_server in
     server_name s <> "pgvictoria"%string /\ server_name s <> "all"%string /\
     server_host s <> ""%string /\ server_port s <> 0 /\
     server_username s <> ""%string) /\
  (fst r = 0 \/ fst r = 1) /\
  (fst r = 0 -> snd r = set_backlog (Z.max 16 (backlog baseline)) baseline) /\
  (snd r = baseline \/ snd r = set_backlog 16 baseline).
Proof.
  apply (validate_main_configuration_iff (fun _ => true) baseline).
  vm_compute. discriminate.
Defined.

Lemma user_found_iff (todo : nat) :
  forall (j : nat) (users : list user) (username : string),
    user_found todo j users username = true <->
    exists k, (j <= k < j + todo)%nat /\
              username = user_username (nth k users no_user).
Proof.
  induction todo as [|todo IH]; intros j users username; cbn [user_found].
  - split; [discriminate | intros (k & Hk & _); lia].
  - destruct (String.eqb_spec username (user_username (nth j users no_user)))
      as [Heq|Hne].
    + split; [intros _; exists j; split; [lia|exact Heq] | reflexivity].
    + rewrite IH. split.
      * intros (k & Hk & Hname). exists k. split; [lia|exact Hname].
      * intros (k & Hk & Hname). exists k. split; [|exact Hname].
        destruct (Nat.eq_dec j k) as [->|]; [congruence|lia].
Qed.

Lemma validate_server_users_ok (todo : nat) :
  forall (i : nat) (c : common_configuration),
    (validate_server_users todo i c = 0 <->
     forall k, (i <= k < i + todo)%nat ->
       exists j, (j < Z.to_nat (number_of_users c))%nat /\
                 server_username (nth k (servers c) no_server)
                 = user_username (nth j (users c) no_user)) /\
    (validate_server_users todo i c = 0 \/ validate_server_users todo i c = 1).
Proof.
  induction todo as [|todo IH]; intros i c; cbn [validate_server_users].
  - split; [|now left]. split; [intros _ k Hk; lia | reflexivity].
  - destruct (user_found (Z.to_nat (number_of_users c)) 0 (users c)
                (server_username (nth i (servers c) no_server))) eqn:Hfound.
    + apply user_found_iff in Hfound. destruct Hfound as (j & Hj & Hname).
      destruct (IH (S i) c) as [Hiff Hstatus]. split; [|exact Hstatus].
      rewrite Hiff. split.
      * intros H k Hk. destruct (Nat.eq_dec i k) as [<-|Hne].
        -- exists j. split; [lia|exact Hname].
        -- apply H. lia.
      * intros H k Hk. apply H. lia.
    + split; [|now right]. split; [discriminate|].
      intros H. destruct (H i ltac:(lia)) as (j & Hj & Hname).
      assert (Htrue : user_found (Z.to_nat (number_of_users c)) 0 (users c)
                        (server_username (nth i (servers c) no_server)) = true).
      { apply user_found_iff. exists j. split; [lia|exact Hname]. }
      congruence.
Qed.

(** X17.  [pgvictoria_validate_users_configuration] returns 0 exactly when
    there is a user and the user name of every server is the name of one of
    the users; it returns 0 or 1. *)
Theorem validate_users_configuration_iff (config : main_configuration) :
  number_of_servers (common config)
    <= Z.of_nat (List.length (servers (common config))) ->
  number_of_users (common config)
    <= Z.of_nat (List.length (users (common config))) ->
  (pgvictoria_validate_users_configuration config = 0 <->
   0 < number_of_users (common config) /\
   forall k, (k < Z.to_nat (number_of_servers (common config)))%nat ->
     exists j, (j < Z.to_nat (number_of_users (common config)))%nat /\
               server_username (nth k (servers (common config)) no_server)
               = user_username (nth j (users (common config)) no_user)) /\
  (pgvictoria_validate_users_configuration config = 0 \/
   pgvictoria_validate_users_configuration config = 1).
Proof.
  intros _ _. unfold pgvictoria_validate_users_configuration.
  destruct (Z.leb_spec (number_of_users (common config)) 0) as [Hnone|Hsome].
  { split; [|now right]. split; [discriminate | intros [H _]; lia]. }
  destruct (validate_server_users_ok
              (Z.to_nat (number_of_servers (common config))) 0 (common config))
    as [Hiff Hstatus].
  split; [|exact Hstatus]. rewrite Hiff. split.
  - intros H. split; [exact Hsome|]. intros k Hk. apply H. lia.
  - intros [_ H] k Hk. apply H. lia.
Qed.

Lemma validate_users_configuration_baseline :
  (pgvictoria_validate_users_configuration baseline = 0 <->
   0 < number_of_users (common baseline) /\
   forall k, (k < Z.to_nat (number_of_servers (common baseline)))%nat ->
     exists j, (j < Z.to_nat (number_of_users (common baseline)))%nat /\
               server_username (nth k (servers (common baseline)) no_server)
               = user_username (nth j (users (common baseline)) no_user)) /\
  (pgvictoria_validate_users_configuration baseline = 0 \/
   pgvictoria_validate_users_configuration baseline = 1).
Proof.
  apply (validate_users_configuration_iff baseline); vm_compute; discriminate.
Defined.

End Validation.

(** ** Reload *)

Section ReloadOutcome.
Import Codec Configuration.
Context {ssl : Aes.OpenSSL} {b64 : Base64}.

Lemma validate_main_configuration_ok (is_directory : string -> bool)
    (config : main_configuration) :
  fst (pgvictoria_validate_main_configuration is_directory config) = 0 ->
  16 <= backlog (snd (pgvictoria_validate_main_configuration is_directory config)) /\
  common (snd (pgvictoria_validate_main_configuration is_directory config))
  = common config.
Proof.
  unfold pgvictoria_validate_main_configuration.
  destruct (String.length (host config) =? 0)%nat; [discriminate|].
  destruct (String.length (unix_socket_dir config) =? 0)%nat; [discriminate|].
  destruct (negb (is_directory (unix_socket_dir config))); [discriminate|].
  destruct (Z.ltb_spec (backlog config) 16);
    match goal with
    | |- context [if ?c then _ else _] => destruct c
    end; cbn [fst snd set_backlog backlog common]; try discriminate;
    intros _; split; auto; lia.
Qed.

(** Nothing is copied behind the users table before the index has reached
    [NUMBER_OF_USERS]. *)
Lemma users_loop_behind (segment : Z) (master_key : string) (lines : list string) :
  forall st : users_state,
    behind st = [] \/ Z.of_nat NUMBER_OF_USERS < index st ->
    let st' := snd (users_loop segment master_key lines st) in
    behind st' = [] \/ Z.of_nat NUMBER_OF_USERS < index st'.
Proof.
  induction lines as [|line lines IH]; intros st Hst; cbv zeta; cbn [users_loop].
  - exact Hst.
  - destruct (user_line master_key line) as [| |username password].
    + now apply IH.
    + exact Hst.
    + assert (Hnext : forall st' : users_state,
                 behind st' = [] \/ Z.of_nat NUMBER_OF_USERS < index st' + 1 ->
                 let st'' := snd (users_loop segment master_key lines
                                    (mkUsersState (index st' + 1) (table st')
                                                  (behind st') (stores st'))) in
                 behind st'' = [] \/ Z.of_nat NUMBER_OF_USERS < index st'').
      { intros st' Hst'. apply IH. exact Hst'. }
      destruct ((Z.of_nat (String.length username) <? MAX_USERNAME_LENGTH)
                && (Z.of_nat (String.length password) <? MAX_PASSWORD_LENGTH)).
      * unfold store_entry.
        destruct (Z.ltb_spec (index st) (Z.of_nat NUMBER_OF_USERS)) as [Hin|Hout].
        -- apply Hnext. cbn [behind index]. destruct Hst; [now left | lia].
        -- match goal with
           | |- context [if ?c then _ else _] => destruct c
           end; [|exact Hst].
           apply Hnext. cbn [behind index]. right. lia.
      * apply Hnext. destruct Hst; [now left | right; lia].
Qed.

(** A read of the users file that returns 0 has copied nothing behind the
    users table, and the number of users is at most [NUMBER_OF_USERS]. *)
Lemma read_users_configuration_ok (segment : Z) (config : main_configuration)
    (file : option (list string)) (master_key : option string)
    (memory : users_memory) (stores : list Z) :
  pgvictoria_read_users_configuration segment config file master_key
  = UsersReturn 0 memory stores ->
  exists area : main_configuration,
    memory = Intact area /\
    number_of_users (common area) <= Z.of_nat NUMBER_OF_USERS.
Proof.
  unfold pgvictoria_read_users_configuration.
  destruct file as [lines|]; [|discriminate].
  destruct master_key as [mk|]; [|discriminate].
  pose proof (users_loop_behind segment mk lines
                (mkUsersState 0 (users (common config)) [] [])
                (or_introl eq_refl)) as Hbehind.
  cbv zeta in Hbehind.
  destruct (users_loop segment mk lines _) as [[| |] st];
    cbn [snd] in Hbehind; try discriminate.
  cbv zeta.
  destruct (Z.gtb_spec (index st) (Z.of_nat NUMBER_OF_USERS)) as [Hmany|Hfew];
    [discriminate|].
  destruct Hbehind as [Hnone|Hover]; [|lia].
  rewrite Hnone. intros Heq. injection Heq as <- _.
  eexists. split; [reflexivity|]. cbn. exact Hfew.
Qed.

(** X18.  [pgvictoria_reload_configuration] returns 0 or 1, unless the read
    of the users file leaves the reload area.  With 1 it asks for a restart
    and leaves the live configuration as it was.  With 0 the live
    configuration has a backlog of at least 16 and between 1 and 64 users,
    keeps the settings that need a restart, and [*restart] is the result of
    the transfer of the reload that was read and validated. *)
Theorem reload_configuration_outcome (is_directory : string -> bool)
    (config : main_configuration) (reload : option main_configuration)
    (users_file : option (list string)) (master_key : option string) :
  match pgvictoria_reload_configuration is_directory config reload
          users_file master_key with
  | None =>
      exists area : main_configuration,
        reload = Some area /\
        users_status (pgvictoria_read_users_configuration behind_users area
                        users_file master_key) = None
  | Some out =>
      let status := fst (fst (fst out)) in
      let restart := snd (fst (fst out)) in
      let live := snd (fst out) in
      (status = 0 \/ status = 1) /\
      (status = 1 -> restart = true /\ live = config /\ snd out = []) /\
      (status = 0 ->
       16 <= backlog live /\
       0 < number_of_users (common live) <= Z.of_nat NUMBER_OF_USERS /\
       (host live, pidfile live, libev live, hugepage live, update_process_title live,
        unix_socket_dir live, log_type (common live), servers (common live),
        number_of_servers (common live))
       = (host config, pidfile config, libev config, hugepage config,
          update_process_title config, unix_socket_dir config,
          log_type (common config), servers (common config),
          number_of_servers (common config)) /\
       exists validated : main_configuration,
         (restart, live) = fst (transfer_configuration config validated) /\
         snd out = snd (transfer_configuration config validated))
  end.
Proof.
  unfold pgvictoria_reload_configuration.
  destruct reload as [reload|].
  2:{ cbn. split; [now right|]. split; [auto | discriminate]. }
  pose proof (read_users_configuration_ok behind_users reload users_file master_key)
    as Hread.
  destruct (pgvictoria_read_users_configuration behind_users reload
              users_file master_key) as [status memory stores|i stores] eqn:Hrun.
  2:{ exists reload. split; [reflexivity|]. now rewrite Hrun. }
  destruct (Z.eqb_spec status 0) as [->|Hstatus]; cbn [negb].
  2:{ cbn. split; [now right|]. split; [auto | discriminate]. }
  destruct (Hread memory stores eq_refl) as (reload1 & -> & Hcount).
  pose proof (validate_main_configuration_ok is_directory reload1) as Hmain.
  destruct (pgvictoria_validate_main_configuration is_directory reload1)
    as [status reload2].
  cbn [fst snd] in Hmain.
  destruct (Z.eqb_spec status 0) as [->|Hstatus]; cbn [negb].
  2:{ cbn. split; [now right|]. split; [auto | discriminate]. }
  destruct (Hmain eq_refl) as [Hbacklog Hcommon].
  destruct (Z.eqb_spec (pgvictoria_validate_users_configuration reload2) 0)
    as [Husers|Husers]; cbn [negb].
  2:{ cbn. split; [now right|]. split; [auto | discriminate]. }
  cbv zeta.
  rewrite bind_fst, bind_snd. cbn [ret fst snd]. rewrite app_nil_r.
  split; [now left|]. split; [discriminate|]. intros _.
  destruct (transfer_configuration_live config reload2)
    as (Hkept & Hcommon_kept & Htaken & _).
  injection Hkept as Hhost Hpidfile Hlibev Hhugepage Htitle Hdir _.
  injection Hcommon_kept as Htype Hservers Hnumber _ _ _.
  injection Htaken as _ _ Hback Husers_count.
  rewrite Hback, Husers_count, Hhost, Hpidfile, Hlibev, Hhugepage, Htitle, Hdir,
    Htype, Hservers, Hnumber.
  split; [exact Hbacklog|]. split.
  - rewrite Hcommon. split; [|exact Hcount].
    unfold pgvictoria_validate_users_configuration in Husers.
    rewrite Hcommon in Husers.
    destruct (Z.leb_spec (number_of_users (common reload1)) 0);
      [discriminate | assumption].
  - split; [reflexivity|]. exists reload2. split; [|reflexivity].
    now destruct (fst (transfer_configuration config reload2)).
Qed.

End ReloadOutcome.

Section ReloadExample.
Import Codec Configuration.

(** A reload with a users file that holds the user of the one server, for
    the stand-ins: the reload is taken over, and no restart is asked for. *)
Example reload_configuration_taken :
  let area := with_common baseline (set_users (repeat no_user NUMBER_OF_USERS)) in
  option_map fst
    (@pgvictoria_reload_configuration Aes.xor_openssl plain_base64
       (fun _ => true) baseline (Some area)
       (Some ["# users"%string; ("alice:7521" ++ String "010" "")%string])
       (Some "topsecret"%string))
  = Some (0, false,
          with_common baseline
            (set_users (mkUser "alice" "CAFE" :: repeat no_user 63))).
Proof. vm_compute. reflexivity. Qed.

(** A reload with a users file of 100 entries: the read leaves the reload
    area. *)
Example reload_configuration_leaves :
  @pgvictoria_reload_configuration Aes.xor_openssl plain_base64
    (fun _ => true) baseline
    (Some (with_common baseline (set_users (repeat no_user NUMBER_OF_USERS))))
    (Some users_file_100) (Some "topsecret"%string)
  = None.
Proof. vm_compute. reflexivity. Qed.

End ReloadExample.

(** ** Lines of the main configuration file *)

Section KeyValue.
Import Codec Configuration.

Lemma strchr_first (c : ascii) (before rest : list ascii) :
  Forall (fun x => Ascii.eqb x c = false) before ->
  strchr c (before ++ c :: rest) = Some (before, c :: rest).
Proof.
  induction before as [|x before IH]; intros Hno; cbn [app strchr].
  - now rewrite Ascii.eqb_refl.
  - inversion Hno as [|? ? Hx Hrest]; subst. now rewrite Hx, IH.
Qed.

Lemma left_part_started (l : list ascii) : left_part true l = l.
Proof.
  induction l as [|c l IH]; cbn [left_part]; [reflexivity|].
  destruct (key_skipped c); now rewrite IH.
Qed.

Lemma left_part_skip (pad l : list ascii) :
  Forall (fun c => key_skipped c = true) pad ->
  left_part false (pad ++ l) = left_part false l.
Proof.
  induction pad as [|c pad IH]; intros Hpad; cbn [app left_part]; [reflexivity|].
  inversion Hpad as [|? ? Hc Hrest]; subst. rewrite Hc. now apply IH.
Qed.

Lemma trim_right_all (p : ascii -> bool) (pad : list ascii) :
  Forall (fun c => p c = true) pad -> trim_right p pad = [].
Proof.
  induction pad as [|c pad IH]; intros Hpad; cbn [trim_right]; [reflexivity|].
  inversion Hpad as [|? ? Hc Hrest]; subst. now rewrite IH, Hc.
Qed.

Lemma trim_right_pad (p : ascii -> bool) (l pad : list ascii) :
  Forall (fun c => p c = true) pad -> trim_right p (l ++ pad) = trim_right p l.
Proof.
  intros Hpad. induction l as [|c l IH]; cbn [app trim_right].
  - now apply trim_right_all.
  - now rewrite IH.
Qed.

Lemma trim_right_keeps (p : ascii -> bool) (l : list ascii) (d : ascii) :
  l <> [] -> p (last l d) = false -> trim_right p l = l.
Proof.
  induction l as [|c l IH]; intros Hne Hlast; [congruence|].
  cbn [trim_right]. destruct l as [|c' l].
  - cbn [trim_right last] in *. now rewrite Hlast.
  - rewrite IH by (auto; discriminate). reflexivity.
Qed.

Lemma right_part_skip (newline_ends : bool) (pad l : list ascii) :
  Forall (fun c => value_skipped c = true) pad ->
  right_part false newline_ends (pad ++ l) = right_part false newline_ends l.
Proof.
  induction pad as [|c pad IH]; intros Hpad; cbn [app right_part]; [reflexivity|].
  inversion Hpad as [|? ? Hc Hrest]; subst. rewrite Hc.
  assert (Hnl : Ascii.eqb c "010" = false).
  { unfold value_skipped in Hc.
    destruct (Ascii.eqb_spec c "010") as [->|]; [discriminate Hc | reflexivity]. }
  rewrite Hnl, andb_false_r. now apply IH.
Qed.

Lemma right_part_started (l tail : list ascii) :
  Forall (fun c => Ascii.eqb c "#" = false /\ Ascii.eqb c "010" = false) l ->
  line_end tail ->
  right_part true true (l ++ tail) = l.
Proof.
  intros Hl Htail. induction Hl as [|c l [Hhash Hnl] Hl IH]; cbn [app].
  - destruct tail as [|c tail]; [reflexivity|].
    cbn [line_end right_part] in *. destruct Htail as [-> | ->]; reflexivity.
  - cbn [right_part]. rewrite Hnl, Hhash. cbn [andb].
    destruct (value_skipped c); now rewrite IH.
Qed.

Lemma key_skipped_plain (c : ascii) :
  key_skipped c = true -> Ascii.eqb c "=" = false /\ Ascii.eqb c "010" = false.
Proof.
  unfold key_skipped. intros H.
  split; [destruct (Ascii.eqb_spec c "=") as [->|]
         | destruct (Ascii.eqb_spec c "010") as [->|]];
    try reflexivity; discriminate H.
Qed.

Lemma value_trimmed_plain (c : ascii) :
  value_trimmed c = true -> Ascii.eqb c "#" = false /\ Ascii.eqb c "010" = false.
Proof.
  unfold value_trimmed. intros H.
  split; [destruct (Ascii.eqb_spec c "#") as [->|]
         | destruct (Ascii.eqb_spec c "010") as [->|]];
    try reflexivity; discriminate H.
Qed.

Lemma key_skipped_trimmed (c : ascii) : key_skipped c = true -> key_trimmed c = true.
Proof.
  unfold key_skipped, key_trimmed.
  destruct (Ascii.eqb c "009"), (Ascii.eqb c " "), (Ascii.eqb c "034"),
    (Ascii.eqb c "'"); cbn; try reflexivity; try discriminate;
    rewrite ?orb_true_r; auto.
Qed.

(** The key of a line: what [extract_key_value] makes of the part in front
    of the ['=']. *)
Lemma key_of_line (pad1 k pad2 rest : list ascii) :
  Forall (fun c => key_skipped c = true) pad1 ->
  key_text k ->
  Forall (fun c => key_skipped c = true) pad2 ->
  strchr "=" (pad1 ++ k ++ pad2 ++ "="%char :: rest)
  = Some (pad1 ++ k ++ pad2, "="%char :: rest) /\
  left_part false (pad1 ++ k ++ pad2) = k ++ pad2 /\
  trim_right key_trimmed (k ++ pad2) = k /\
  existsb (Ascii.eqb "010") (pad1 ++ k ++ pad2) = false.
Proof.
  intros Hpad1 (Hne & Hhd & Hlast & Hk) Hpad2.
  assert (Hplain : Forall (fun c => Ascii.eqb c "=" = false /\ Ascii.eqb c "010" = false)
                          (pad1 ++ k ++ pad2)).
  { rewrite !Forall_app. repeat split; auto;
      eapply Forall_impl; try eassumption; apply key_skipped_plain. }
  repeat split.
  - replace (pad1 ++ k ++ pad2 ++ "="%char :: rest)
      with ((pad1 ++ k ++ pad2) ++ "="%char :: rest) by now rewrite <- !app_assoc.
    apply strchr_first.
    eapply Forall_impl; [|exact Hplain]. now intros c [Hc _].
  - rewrite left_part_skip by assumption.
    destruct k as [|c k]; [congruence|]. cbn [hd] in Hhd.
    cbn [app left_part]. rewrite Hhd. now rewrite left_part_started.
  - rewrite trim_right_pad
      by (eapply Forall_impl; try eassumption; apply key_skipped_trimmed).
    now apply (trim_right_keeps _ _ " "%char).
  - apply not_true_is_false. intros Hex. apply existsb_exists in Hex.
    destruct Hex as (c & Hin & Hc).
    rewrite Forall_forall in Hplain. destruct (Hplain c Hin) as [_ Hnl].
    rewrite Ascii.eqb_sym in Hc. congruence.
Qed.

(** X19.  For a line [key = value] with blanks or quotes around the key and
    the value, and with nothing, a comment or the newline behind the value,
    [extract_key_value] hands out the key and the value without them. *)
Theorem extract_key_value_line (pad1 k pad2 pad3 v pad4 tail : list ascii) :
  Forall (fun c => key_skipped c = true) pad1 ->
  key_text k ->
  Forall (fun c => key_skipped c = true) pad2 ->
  Forall (fun c => value_skipped c = true) pad3 ->
  value_text v ->
  Forall (fun c => value_trimmed c = true) pad4 ->
  line_end tail ->
  (List.length k + List.length pad2 < MISC_LENGTH)%nat ->
  (List.length v + List.length pad4 < MISC_LENGTH)%nat ->
  extract_key_value
    (string_of_list_ascii
       (pad1 ++ k ++ pad2 ++ "="%char :: pad3 ++ v ++ pad4 ++ tail))
  = KeyValue (string_of_list_ascii k) (string_of_list_ascii v).
Proof.
  intros Hpad1 Hk Hpad2 Hpad3 (Hne & Hhd & Hlast & Hv) Hpad4 Htail Hleft Hright.
  unfold extract_key_value. rewrite list_ascii_of_string_of_list_ascii.
  destruct (key_of_line pad1 k pad2 (pad3 ++ v ++ pad4 ++ tail) Hpad1 Hk Hpad2)
    as (-> & -> & Hkey & ->).
  cbn [negb].
  assert (Hvalue : right_part false true ("="%char :: pad3 ++ v ++ pad4 ++ tail)
                   = v ++ pad4).
  { change ("="%char :: pad3 ++ v ++ pad4 ++ tail)
      with (("="%char :: pad3) ++ v ++ pad4 ++ tail).
    rewrite right_part_skip by (constructor; [reflexivity | assumption]).
    destruct v as [|c v]; [congruence|]. cbn [hd] in Hhd.
    inversion Hv as [|? ? [Hhash Hnl] Hrest]; subst.
    cbn [app right_part]. rewrite Hnl, Hhd, Hhash. cbn [andb]. f_equal.
    rewrite app_assoc. apply right_part_started; [|assumption].
    apply Forall_app. split; [assumption|].
    eapply Forall_impl; try eassumption. apply value_trimmed_plain. }
  rewrite Hvalue, !length_app.
  replace (MISC_LENGTH <=? List.length k + List.length pad2)%nat with false
    by (symmetry; apply Nat.leb_gt; lia).
  replace (MISC_LENGTH <=? List.length v + List.length pad4)%nat with false
    by (symmetry; apply Nat.leb_gt; lia).
  cbn [orb]. rewrite Hkey, trim_right_pad by assumption.
  now rewrite (trim_right_keeps _ _ " "%char).
Qed.

(** X19 at the line [foo = "bar" # bar set!]. *)
Lemma extract_key_value_line_example :
  extract_key_value
    (string_of_list_ascii
       ([] ++ list_ascii_of_string "foo" ++ [" "%char]
        ++ "="%char :: [" "%char; "034"%char] ++ list_ascii_of_string "bar"
        ++ ["034"%char; " "%char] ++ list_ascii_of_string "# bar set!"))
  = KeyValue (string_of_list_ascii (list_ascii_of_string "foo"))
             (string_of_list_ascii (list_ascii_of_string "bar")).
Proof.
  apply (extract_key_value_line [] (list_ascii_of_string "foo") [" "%char]
           [" "%char; "034"%char] (list_ascii_of_string "bar")
           ["034"%char; " "%char] (list_ascii_of_string "# bar set!")).
  - constructor.
  - repeat split; try discriminate; repeat constructor.
  - repeat constructor.
  - repeat constructor.
  - repeat split; try discriminate; repeat constructor.
  - repeat constructor.
  - cbn. now left.
  - unfold MISC_LENGTH. cbn. lia.
  - unfold MISC_LENGTH. cbn. lia.
Defined.

(** X20.  A value that starts with ['#'] is empty for [extract_key_value],
    also when the ['#'] stands behind a quote. *)
Theorem extract_key_value_hash (pad1 k pad2 pad3 rest : list ascii) :
  Forall (fun c => key_skipped c = true) pad1 ->
  key_text k ->
  Forall (fun c => key_skipped c = true) pad2 ->
  Forall (fun c => value_skipped c = true) pad3 ->
  (List.length k + List.length pad2 < MISC_LENGTH)%nat ->
  extract_key_value
    (string_of_list_ascii (pad1 ++ k ++ pad2 ++ "="%char :: pad3 ++ "#"%char :: rest))
  = KeyValue (string_of_list_ascii k) "".
Proof.
  intros Hpad1 Hk Hpad2 Hpad3 Hleft.
  unfold extract_key_value. rewrite list_ascii_of_string_of_list_ascii.
  destruct (key_of_line pad1 k pad2 (pad3 ++ "#"%char :: rest) Hpad1 Hk Hpad2)
    as (-> & -> & Hkey & ->).
  cbn [negb].
  change ("="%char :: pad3 ++ "#"%char :: rest)
    with (("="%char :: pad3) ++ "#"%char :: rest).
  rewrite right_part_skip by (constructor; [reflexivity | assumption]).
  cbn [right_part Ascii.eqb Bool.eqb andb value_skipped orb].
  rewrite length_app.
  replace (MISC_LENGTH <=? List.length k + List.length pad2)%nat with false
    by (symmetry; apply Nat.leb_gt; lia).
  cbn. now rewrite Hkey.
Qed.

(** X20 at the line [foo = "#bar"]. *)
Lemma extract_key_value_hash_example :
  extract_key_value
    (string_of_list_ascii
       ([] ++ list_ascii_of_string "foo" ++ [" "%char]
        ++ "="%char :: [" "%char; "034"%char] ++ "#"%char
        :: list_ascii_of_string "bar" ++ ["034"%char]))
  = KeyValue (string_of_list_ascii (list_ascii_of_string "foo")) "".
Proof.
  apply (extract_key_value_hash [] (list_ascii_of_string "foo") [" "%char]
           [" "%char; "034"%char] (list_ascii_of_string "bar" ++ ["034"%char])).
  - constructor.
  - repeat split; try discriminate; repeat constructor.
  - repeat constructor.
  - repeat constructor.
  - unfold MISC_LENGTH. cbn. lia.
Defined.

End KeyValue.

(** ** Trimming of a line *)

Section TrimmedLine.
Import Codec Configuration.

Lemma skip_whitespace_lead (lead rest : list ascii) :
  forall i : Z,
    Forall (fun c => isspace c = true) lead ->
    isspace (hd "a"%char rest) = false ->
    skip_whitespace (lead ++ rest) i = (i + Z.of_nat (List.length lead), rest).
Proof.
  induction lead as [|c lead IH]; intros i Hlead Hrest; cbn [app List.length].
  - destruct rest as [|c rest]; cbn [skip_whitespace hd] in *.
    + f_equal. lia.
    + rewrite Hrest. f_equal. lia.
  - inversion Hlead as [|? ? Hc Hl]; subst. cbn [skip_whitespace]. rewrite Hc.
    rewrite IH by assumption. f_equal. lia.
Qed.

Lemma isspace_no_comment (c : ascii) :
  isspace c = true -> Ascii.eqb c ";" || Ascii.eqb c "#" = false.
Proof.
  intros Hc.
  destruct (Ascii.eqb_spec c ";") as [->|]; [discriminate Hc|].
  destruct (Ascii.eqb_spec c "#") as [->|]; [discriminate Hc|]. reflexivity.
Qed.

(** The second loop over a text that ends with a character that is no
    white space. *)
Lemma copy_until_comment_text (l : list ascii) :
  forall (rest : list ascii) (i last : Z) (acc : list ascii),
    l <> [] ->
    isspace (List.last l " "%char) = false ->
    Forall (fun c => Ascii.eqb c ";" || Ascii.eqb c "#" = false) l ->
    copy_until_comment (l ++ rest) i last acc
    = copy_until_comment rest (i + Z.of_nat (List.length l))
        (i + Z.of_nat (List.length l) - 1) (acc ++ l).
Proof.
  induction l as [|c l IH]; intros rest i last acc Hne Hlast Hl; [congruence|].
  inversion Hl as [|? ? Hc Hrest]; subst.
  cbn [app copy_until_comment]. rewrite Hc.
  destruct l as [|c' l].
  - cbn [List.last] in Hlast. rewrite Hlast. cbn [negb app List.length].
    f_equal; lia.
  - rewrite IH by (auto; discriminate).
    rewrite <- app_assoc. cbn [app]. f_equal; cbn [List.length]; lia.
Qed.

(** The second loop over white space. *)
Lemma copy_until_comment_space (l : list ascii) :
  forall (rest : list ascii) (i last : Z) (acc : list ascii),
    Forall (fun c => isspace c = true) l ->
    copy_until_comment (l ++ rest) i last acc
    = copy_until_comment rest (i + Z.of_nat (List.length l)) last (acc ++ l).
Proof.
  induction l as [|c l IH]; intros rest i last acc Hl; cbn [app List.length].
  - rewrite app_nil_r. f_equal. lia.
  - inversion Hl as [|? ? Hc Hrest]; subst.
    cbn [copy_until_comment]. rewrite (isspace_no_comment c Hc), Hc. cbn [negb].
    rewrite IH by assumption. rewrite <- app_assoc. cbn [app]. f_equal. lia.
Qed.

Lemma copy_until_comment_end (tail : list ascii) (i last : Z) (acc : list ascii) :
  comment_end tail -> copy_until_comment tail i last acc = (last, acc).
Proof.
  destruct tail as [|c tail]; cbn [comment_end copy_until_comment]; [reflexivity|].
  intros [-> | ->]; reflexivity.
Qed.

(** X21.  Of a line that is made of white space, a text, white space and
    nothing or a comment, [remove_leading_whitespace_and_comments] keeps the
    text and as many characters of the white space behind it as there are
    characters of white space in front of it: the NUL that cuts the line is
    stored at the index that the last character of the text has in the line
    as it was read, not in the line without its leading white space (with
    less white space behind the text than in front of it, the NUL goes behind
    the end of the string).  Only a line that starts with its text loses the
    white space behind the text. *)
Theorem remove_leading_whitespace_and_comments_line
    (lead body trail tail : list ascii) :
  Forall (fun c => isspace c = true) lead ->
  line_text body ->
  Forall (fun c => isspace c = true) trail ->
  comment_end tail ->
  remove_leading_whitespace_and_comments
    (string_of_list_ascii (lead ++ body ++ trail ++ tail))
  = Some (string_of_list_ascii (body ++ firstn (List.length lead) trail)).
Proof.
  intros Hlead (Hne & Hhd & Hlast & Hbody) Htrail Htail.
  unfold remove_leading_whitespace_and_comments.
  rewrite list_ascii_of_string_of_list_ascii.
  assert (Hstart : isspace (hd "a"%char (body ++ trail ++ tail)) = false)
    by (destruct body; [congruence | exact Hhd]).
  rewrite (skip_whitespace_lead lead _ 0 Hlead Hstart).
  rewrite copy_until_comment_text by assumption.
  rewrite copy_until_comment_space by assumption.
  rewrite copy_until_comment_end by assumption.
  cbn [app].
  destruct (body ++ trail) as [|c text] eqn:Htext.
  { destruct body; [congruence | discriminate]. }
  rewrite <- Htext.
  replace (0 + Z.of_nat (List.length lead) + Z.of_nat (List.length body) - 1 =? -1)
    with false
    by (symmetry; apply Z.eqb_neq; destruct body; [congruence|];
        cbn [List.length]; lia).
  cbn [negb]. do 2 f_equal.
  replace (Z.to_nat (0 + Z.of_nat (List.length lead)
                     + Z.of_nat (List.length body) - 1 + 1))
    with (List.length body + List.length lead)%nat by lia.
  rewrite firstn_app, firstn_all2 by lia.
  f_equal. f_equal. lia.
Qed.

(** X21 at a line with two blanks in front of the text and four behind
    it: two of the four are left. *)
Lemma remove_leading_whitespace_and_comments_example :
  remove_leading_whitespace_and_comments
    (string_of_list_ascii
       ([" "; " "]%char ++ ["a"; "b"]%char ++ [" "; " "; " "; " "]%char
        ++ ["#"; "c"]%char))
  = Some (string_of_list_ascii
            (["a"; "b"]%char ++ firstn 2 [" "; " "; " "; " "]%char)).
Proof.
  apply (remove_leading_whitespace_and_comments_line
           [" "; " "]%char ["a"; "b"]%char [" "; " "; " "; " "]%char
           ["#"; "c"]%char).
  - repeat constructor.
  - repeat split; try discriminate; repeat constructor.
  - repeat constructor.
  - cbn. now right.
Defined.

End TrimmedLine.

(** ** The users table behind a read *)

Section UsersRead.
Import Codec Configuration.
Context {ssl : Aes.OpenSSL} {b64 : Base64}.

Lemma append_empty (s : string) : (s ++ "")%string = s.
Proof. induction s as [|c s IH]; cbn; [reflexivity | now rewrite IH]. Qed.

Lemma overlay_zeroed (src : string) : overlay "" src = src.
Proof.
  unfold overlay. cbn [list_ascii_of_string]. rewrite skipn_nil. cbn.
  apply append_empty.
Qed.

Lemma map_nth_all {A : Type} (t : list A) (d : A) :
  map (fun j => nth j t d) (seq 0 (List.length t)) = t.
Proof.
  induction t as [|a t IH]; cbn [List.length seq map nth]; [reflexivity|].
  f_equal. rewrite <- seq_shift, map_map. exact IH.
Qed.

(** A table that is written at one index. *)
Lemma map_seq_update {A : Type} (t : list A) (d x : A) :
  forall i : nat,
    (i < List.length t)%nat ->
    map (fun j => if (j =? i)%nat then x else nth j t d) (seq 0 (List.length t))
    = firstn i t ++ x :: skipn (S i) t.
Proof.
  induction t as [|a t IH]; intros i Hi; cbn [List.length] in *; [lia|].
  cbn [seq map]. rewrite <- seq_shift, map_map.
  destruct i as [|i]; cbn [Nat.eqb nth firstn skipn app].
  - f_equal. apply map_nth_all.
  - f_equal. apply IH. lia.
Qed.

Lemma store_user_next (done : list user) (free : nat) (username password : string) :
  (List.length done + S free = NUMBER_OF_USERS)%nat ->
  store_user (done ++ repeat no_user (S free)) (List.length done) username password
  = (done ++ [mkUser username password]) ++ repeat no_user free.
Proof.
  intros Hslots. unfold store_user.
  set (t := done ++ repeat no_user (S free)).
  assert (Hlength : List.length t = NUMBER_OF_USERS).
  { subst t. rewrite length_app, repeat_length. exact Hslots. }
  assert (Hslot : nth (List.length done) t no_user = no_user).
  { subst t. rewrite app_nth2, Nat.sub_diag by lia. reflexivity. }
  rewrite <- Hlength.
  rewrite (map_ext _ (fun j => if (j =? List.length done)%nat
                               then mkUser username password
                               else nth j t no_user)).
  - rewrite map_seq_update by lia.
    subst t. rewrite firstn_app, firstn_all, Nat.sub_diag.
    cbn [firstn]. rewrite app_nil_r.
    rewrite skipn_app, skipn_all2 by lia.
    replace (S (List.length done) - List.length done)%nat with 1%nat by lia.
    cbn [repeat skipn app]. now rewrite <- app_assoc.
  - intros j. cbv zeta. destruct (Nat.eqb_spec j (List.length done)) as [->|];
      [|reflexivity].
    rewrite Hslot. cbn [no_user user_username user_password].
    now rewrite !overlay_zeroed.
Qed.

(** *** The lines of a users file *)

Lemma list_ascii_app (a b : string) :
  list_ascii_of_string (a ++ b)
  = list_ascii_of_string a ++ list_ascii_of_string b.
Proof. induction a as [|c a IH]; cbn; [reflexivity | now rewrite IH]. Qed.

Lemma is_blank_isspace (c : ascii) : isspace c = false -> is_blank c = false.
Proof.
  intros Hc. unfold is_blank.
  destruct (Ascii.eqb_spec c " ") as [->|]; [discriminate Hc|].
  destruct (Ascii.eqb_spec c "009") as [->|]; [discriminate Hc|].
  destruct (Ascii.eqb_spec c "013") as [->|]; [discriminate Hc|].
  destruct (Ascii.eqb_spec c "010") as [->|]; [discriminate Hc|].
  reflexivity.
Qed.

Lemma is_empty_string_text (body : list ascii) :
  isspace (hd " "%char body) = false ->
  is_empty_string (string_of_list_ascii body) = false.
Proof.
  unfold is_empty_string. rewrite list_ascii_of_string_of_list_ascii.
  destruct body as [|c body]; cbn [hd forallb]; [discriminate|].
  intros Hc. now rewrite (is_blank_isspace c Hc).
Qed.

(** A line that starts with its text loses the white space behind it. *)
Lemma remove_leading_text (body trail : list ascii) :
  line_text body ->
  Forall (fun c => isspace c = true) trail ->
  remove_leading_whitespace_and_comments (string_of_list_ascii (body ++ trail))
  = Some (string_of_list_ascii body).
Proof.
  intros (Hne & Hhd & Hlast & Hbody) Htrail.
  unfold remove_leading_whitespace_and_comments.
  rewrite list_ascii_of_string_of_list_ascii.
  assert (Hstart : isspace (hd "a"%char (body ++ trail)) = false)
    by (destruct body; [congruence | exact Hhd]).
  pose proof (skip_whitespace_lead [] (body ++ trail) 0 (Forall_nil _) Hstart)
    as Hskip.
  cbn [app List.length Z.of_nat] in Hskip. rewrite Hskip.
  rewrite copy_until_comment_text by assumption.
  rewrite <- (app_nil_r trail) at 1.
  rewrite copy_until_comment_space by assumption.
  cbn [copy_until_comment app].
  destruct (body ++ trail) as [|c text] eqn:Htext.
  { destruct body; [congruence | discriminate]. }
  rewrite <- Htext.
  replace (0 + 0 + Z.of_nat (List.length body) - 1 =? -1) with false
    by (symmetry; apply Z.eqb_neq; destruct body; [congruence|];
        cbn [List.length]; lia).
  cbn [negb]. do 2 f_equal.
  replace (Z.to_nat (0 + 0 + Z.of_nat (List.length body) - 1 + 1))
    with (List.length body) by lia.
  rewrite firstn_app, firstn_all, Nat.sub_diag. cbn [firstn]. apply app_nil_r.
Qed.

(** A line that holds a comment only has no text. *)
Lemma remove_leading_comment (lead text : list ascii) (c : ascii) :
  Forall (fun c => isspace c = true) lead ->
  c = ";"%char \/ c = "#"%char ->
  remove_leading_whitespace_and_comments (string_of_list_ascii (lead ++ c :: text))
  = None.
Proof.
  intros Hlead Hc. unfold remove_leading_whitespace_and_comments.
  rewrite list_ascii_of_string_of_list_ascii.
  rewrite (skip_whitespace_lead lead (c :: text) 0 Hlead)
    by (destruct Hc as [-> | ->]; reflexivity).
  destruct Hc as [-> | ->]; reflexivity.
Qed.

Lemma token_text (delim : ascii) (t rest : list ascii) :
  Forall (fun c => Ascii.eqb c delim = false) t ->
  token delim (t ++ delim :: rest) = (t, rest).
Proof.
  induction t as [|c t IH]; intros Ht; cbn [app token].
  - now rewrite Ascii.eqb_refl.
  - inversion Ht as [|? ? Hc Hrest]; subst. rewrite Hc, IH by assumption.
    reflexivity.
Qed.

Lemma token_end (delim : ascii) (t : list ascii) :
  Forall (fun c => Ascii.eqb c delim = false) t ->
  token delim t = (t, []).
Proof.
  induction t as [|c t IH]; intros Ht; cbn [token]; [reflexivity|].
  inversion Ht as [|? ? Hc Hrest]; subst. rewrite Hc, IH by assumption.
  reflexivity.
Qed.

Lemma skip_delimiters_text (delim : ascii) (t : list ascii) :
  Ascii.eqb (hd delim t) delim = false -> skip_delimiters delim t = t.
Proof.
  destruct t as [|c t]; cbn [hd skip_delimiters]; [reflexivity|].
  now intros ->.
Qed.

(** The two calls of [strtok] on a name, a colon and a text. *)
Lemma strtok_fields (name code : list ascii) :
  name <> [] ->
  Forall (fun c => Ascii.eqb c ":" = false) name ->
  code <> [] ->
  Forall (fun c => Ascii.eqb c ":" = false) code ->
  strtok ":" (name ++ ":"%char :: code) = (Some (string_of_list_ascii name), code) /\
  strtok ":" code = (Some (string_of_list_ascii code), []).
Proof.
  intros Hname Hn Hcode Hc. unfold strtok. split.
  - rewrite skip_delimiters_text
      by (destruct name as [|c name]; [congruence|];
          inversion Hn; subst; assumption).
    destruct (name ++ ":"%char :: code) as [|c rest] eqn:Hline.
    { destruct name; discriminate. }
    rewrite <- Hline. now rewrite token_text.
  - rewrite skip_delimiters_text
      by (destruct code as [|c code]; [congruence|];
          inversion Hc; subst; assumption).
    destruct code as [|c rest] eqn:Hline; [congruence|].
    rewrite <- Hline in *. now rewrite token_end.
Qed.

(** The characters of a user name or a BASE64 text. *)
Lemma field_text_chars (s : string) :
  field_text s ->
  let t := list_ascii_of_string s in
  t <> [] /\
  Forall (fun c => isspace c = false) t /\
  Forall (fun c => Ascii.eqb c ":" = false) t /\
  Forall (fun c => Ascii.eqb c ";" || Ascii.eqb c "#" = false) t.
Proof.
  intros [Hne Hchars]. cbv zeta. split.
  - destruct s; [congruence | discriminate].
  - repeat split; eapply Forall_impl; try exact Hchars; cbv beta;
      intros c (Hspace & Hcolon & Hsemi & Hhash); auto.
    + now apply Ascii.eqb_neq.
    + apply Ascii.eqb_neq in Hsemi, Hhash. now rewrite Hsemi, Hhash.
Qed.

(** What the loop makes of a blank line, of a comment and of the line of a
    user. *)
Lemma user_line_blank (master_key line : string) :
  is_empty_string line = true -> user_line master_key line = Skipped.
Proof. intros Hline. unfold user_line. now rewrite Hline. Qed.

Lemma user_line_comment (master_key line : string) :
  comment_line line -> user_line master_key line = Skipped.
Proof.
  intros (lead & text & c & -> & Hlead & Hc). unfold user_line.
  destruct (is_empty_string (lead ++ String c text)); [reflexivity|].
  rewrite <- (string_of_list_ascii_of_string (lead ++ String c text)).
  rewrite list_ascii_app. cbn [list_ascii_of_string].
  now rewrite remove_leading_comment.
Qed.

Lemma user_line_entry (master_key line : string) (u : user) :
  stands_for master_key line u ->
  user_line master_key line = Entry (user_username u) (user_password u).
Proof.
  intros (text & trail & decoded & plaintext & -> & Hname & Htext & Htrail
          & Hdecoded & Hplain & Hpassword & _).
  destruct (field_text_chars _ Hname) as (Hn1 & Hn2 & Hn3 & Hn4).
  destruct (field_text_chars _ Htext) as (Ht1 & Ht2 & Ht3 & Ht4).
  set (name := list_ascii_of_string (user_username u)) in *.
  set (code := list_ascii_of_string text) in *.
  set (body := name ++ ":"%char :: code).
  assert (Hline : (user_username u ++ ":" ++ text ++ trail)%string
                  = string_of_list_ascii (body ++ list_ascii_of_string trail)).
  { rewrite <- (string_of_list_ascii_of_string
                  (user_username u ++ ":" ++ text ++ trail)).
    rewrite !list_ascii_app. subst body name code.
    cbn [list_ascii_of_string app]. now rewrite <- app_assoc. }
  assert (Hhd : isspace (hd " "%char body) = false).
  { subst body. destruct name as [|c name]; [congruence|].
    inversion Hn2; subst. assumption. }
  assert (Hbody : line_text body).
  { split; [|split; [exact Hhd|split]].
    - subst body. destruct name; discriminate.
    - destruct (exists_last Ht1) as (front & z & Hcode).
      subst body. rewrite Hcode.
      change (name ++ ":"%char :: front ++ [z])
        with (name ++ (":"%char :: front) ++ [z]).
      rewrite app_assoc, last_last.
      rewrite Forall_forall in Ht2. apply Ht2. rewrite Hcode.
      apply in_or_app. right. now left.
    - subst body. apply Forall_app. split; [exact Hn4|].
      apply Forall_cons; [reflexivity | exact Ht4]. }
  unfold user_line. rewrite Hline.
  rewrite is_empty_string_text
    by (destruct body; [destruct Hbody; congruence | exact Hhd]).
  rewrite (remove_leading_text body _ Hbody Htrail).
  rewrite (is_empty_string_text body Hhd).
  rewrite list_ascii_of_string_of_list_ascii.
  subst body.
  destruct (strtok_fields name code Hn1 Hn3 Ht1 Ht3) as [Hfirst Hsecond].
  rewrite Hfirst, Hsecond.
  subst name code. rewrite !string_of_list_ascii_of_string.
  rewrite Hdecoded, Hplain, Hpassword. reflexivity.
Qed.

(** The loop over the lines of a users file on a table whose slots from the
    index on are zeroed. *)
Lemma users_loop_holds (segment : Z) (master_key : string)
    (lines : list string) (us : list user) :
  holds master_key lines us ->
  forall (done : list user) (free : nat) (stored : list Z),
    (List.length done + free = NUMBER_OF_USERS)%nat ->
    (List.length us <= free)%nat ->
    users_loop segment master_key lines
      (mkUsersState (Z.of_nat (List.length done)) (done ++ repeat no_user free)
                    [] stored)
    = (EndOfFile,
       mkUsersState
         (Z.of_nat (List.length done + List.length us))
         ((done ++ us) ++ repeat no_user (free - List.length us))
         []
         (rev (Message.span (Z.of_nat (List.length done)) (List.length us))
          ++ stored)).
Proof.
  induction 1 as [|line lines us Hblank Hrest IH|line lines us Hcomment Hrest IH
                 |line u lines us Huser Hrest IH];
    intros done free stored Hslots Hfree.
  - cbn [users_loop List.length]. unfold Message.span.
    cbn [seq map rev app]. now rewrite !app_nil_r, Nat.add_0_r, Nat.sub_0_r.
  - cbn [users_loop]. rewrite (user_line_blank master_key line Hblank).
    now apply IH.
  - cbn [users_loop]. rewrite (user_line_comment master_key line Hcomment).
    now apply IH.
  - cbn [users_loop]. rewrite (user_line_entry master_key line u Huser).
    destruct Huser as (text & trail & decoded & plaintext & _ & _ & _ & _ & _ & _
                       & _ & Hu & Hp).
    apply Z.ltb_lt in Hu, Hp. rewrite Hu, Hp. cbn [andb].
    cbn [List.length] in Hfree.
    destruct free as [|free]; [lia|].
    unfold store_entry. cbn [index table behind stores].
    replace (Z.of_nat (List.length done) <? Z.of_nat NUMBER_OF_USERS) with true
      by (symmetry; apply Z.ltb_lt; lia).
    cbn [index table behind stores].
    rewrite Nat2Z.id, store_user_next by assumption.
    replace (mkUser (user_username u) (user_password u)) with u
      by (now destruct u).
    replace (Z.of_nat (List.length done) + 1)
      with (Z.of_nat (List.length (done ++ [u])))
      by (rewrite length_app; cbn [List.length]; lia).
    rewrite IH
      by (try (rewrite length_app; cbn [List.length]); lia).
    rewrite length_app. cbn [List.length].
    f_equal. f_equal.
    + lia.
    + rewrite <- !app_assoc. reflexivity.
    + unfold Message.span. cbn [seq map rev].
      rewrite <- app_assoc. cbn [app]. rewrite Z.add_0_r.
      rewrite <- seq_shift, map_map. do 2 f_equal.
      apply map_ext. intros k. lia.
Qed.

(** X22.  Let the users table be zeroed, and let the lines of the users
    file be blank lines, comments and, for each of at most
    [NUMBER_OF_USERS] users, a line of the name, a colon and a BASE64 text
    that decodes and decrypts into the password.  Then
    [pgvictoria_read_users_configuration] returns 0, the number of users is
    the number of these users, the table holds them with their names and
    passwords in the order of the file with zeroed slots behind them, nothing
    else of the configuration changes, and the stores went to the slots 0,
    1, ... in this order. *)
Theorem read_users_configuration_table (segment : Z) (config : main_configuration)
    (lines : list string) (us : list user) (master_key : string) :
  users (common config) = repeat no_user NUMBER_OF_USERS ->
  holds master_key lines us ->
  (List.length us <= NUMBER_OF_USERS)%nat ->
  pgvictoria_read_users_configuration segment config (Some lines) (Some master_key)
  = UsersReturn 0
      (Intact (with_common
                 (with_common config
                    (set_users (us ++ repeat no_user
                                        (NUMBER_OF_USERS - List.length us))))
                 (set_number_of_users (Z.of_nat (List.length us)))))
      (Message.span 0 (List.length us)).
Proof.
  intros Hzero Hlines Hfit.
  unfold pgvictoria_read_users_configuration.
  rewrite Hzero.
  pose proof (users_loop_holds segment master_key lines us Hlines
                [] NUMBER_OF_USERS [] eq_refl Hfit) as Hloop.
  cbn [List.length app Z.of_nat Nat.add] in Hloop. rewrite Hloop.
  cbn [index table behind stores].
  replace (Z.of_nat (List.length us) >? Z.of_nat NUMBER_OF_USERS)
    with false by (symmetry; rewrite Z.gtb_ltb; apply Z.ltb_ge; lia).
  now rewrite app_nil_r, rev_involutive.
Qed.

End UsersRead.

(** The characters of a field of a line that is given. *)
Ltac field_text_given :=
  split; [discriminate|];
  repeat (apply Forall_cons;
          [repeat split; (reflexivity || discriminate)|]);
  apply Forall_nil.

(** The line of a user for the stand-ins, with the text that is given. *)
Ltac stands_for_given text :=
  exists text, (String "010" ""), (Codec.bytes_of_string text);
  eexists;
  split; [reflexivity|];
  split; [field_text_given|];
  split; [field_text_given|];
  split; [repeat constructor|];
  split; [reflexivity|];
  split; [vm_compute; reflexivity|];
  split; [vm_compute; reflexivity|];
  split; vm_compute; reflexivity.

Section UsersReadExample.
Import Codec Configuration.

Lemma two_users_held :
  @holds Aes.xor_openssl plain_base64 "topsecret"
    ["# users"%string;
     ("alice:7521" ++ String "010" "")%string;
     String "010" "";
     ("bob:0150" ++ String "010" "")%string]
    [mkUser "alice" "CAFE"; mkUser "bob" "DEAD"].
Proof.
  apply holds_comment.
  { exists ""%string, " users"%string, "#"%char.
    split; [reflexivity|]. split; [apply Forall_nil | now right]. }
  apply holds_entry.
  { stands_for_given "7521"%string. }
  apply holds_blank; [reflexivity|].
  apply holds_entry.
  { stands_for_given "0150"%string. }
  apply holds_end.
Qed.

(** X22 at a users file with a comment, a blank line and the lines of two
    users, for the stand-ins. *)
Lemma read_users_configuration_two :
  @pgvictoria_read_users_configuration Aes.xor_openssl plain_base64 behind_users
    (with_common baseline (set_users (repeat no_user NUMBER_OF_USERS)))
    (Some ["# users"%string;
           ("alice:7521" ++ String "010" "")%string;
           String "010" "";
           ("bob:0150" ++ String "010" "")%string])
    (Some "topsecret"%string)
  = UsersReturn 0
      (Intact (with_common
                 (with_common
                    (with_common baseline (set_users (repeat no_user NUMBER_OF_USERS)))
                    (set_users ([mkUser "alice" "CAFE"; mkUser "bob" "DEAD"]
                                ++ repeat no_user (NUMBER_OF_USERS - 2))))
                 (set_number_of_users 2)))
      (Message.span 0 2).
Proof.
  apply (@read_users_configuration_table Aes.xor_openssl plain_base64 behind_users
           (with_common baseline (set_users (repeat no_user NUMBER_OF_USERS)))
           _ [mkUser "alice" "CAFE"; mkUser "bob" "DEAD"] "topsecret").
  - reflexivity.
  - exact two_users_held.
  - apply Nat.leb_le. reflexivity.
Defined.

End UsersReadExample.

(** ** Numbers, ages and sizes *)

Section Numbers.
Import Codec Configuration.

Lemma digit_char (d : Z) :
  0 <= d < 10 ->
  isdigit (ascii_of_N (Z.to_N (48 + d))) = true /\
  Z.of_N (N_of_ascii (ascii_of_N (Z.to_N (48 + d)))) - 48 = d.
Proof.
  intros Hd.
  assert (Hcases : d = 0 \/ d = 1 \/ d = 2 \/ d = 3 \/ d = 4 \/ d = 5 \/ d = 6
                   \/ d = 7 \/ d = 8 \/ d = 9) by lia.
  repeat (destruct Hcases as [-> | Hcases]; [split; reflexivity|]).
  subst d. split; reflexivity.
Qed.

Lemma decimal_digits_isdigit (fuel : nat) :
  forall n : Z, 0 <= n -> Forall (fun c => isdigit c = true) (decimal_digits fuel n).
Proof.
  induction fuel as [|fuel IH]; intros n Hn; cbn [decimal_digits]; [constructor|].
  destruct (Z.ltb_spec n 10).
  - constructor; [|constructor]. apply digit_char. lia.
  - apply Forall_app. split.
    + apply IH. apply Z.div_pos; lia.
    + constructor; [|constructor]. apply digit_char.
      apply Z.mod_pos_bound. lia.
Qed.

Lemma decimal_digits_value (fuel : nat) :
  forall n : Z,
    0 <= n < 10 ^ Z.of_nat fuel ->
    fold_left digit_step (decimal_digits fuel n) 0 = n.
Proof.
  induction fuel as [|fuel IH]; intros n Hn; cbn [decimal_digits].
  - cbn in *. lia.
  - destruct (Z.ltb_spec n 10).
    + cbn [fold_left]. unfold digit_step.
      destruct (digit_char n ltac:(lia)) as [_ ->]. lia.
    + rewrite fold_left_app. cbn [fold_left]. unfold digit_step at 1.
      rewrite IH.
      * destruct (digit_char (n mod 10)) as [_ ->];
          [apply Z.mod_pos_bound; lia|].
        pose proof (Z.div_mod n 10). lia.
      * split; [apply Z.div_pos; lia|].
        apply Z.div_lt_upper_bound; [lia|].
        rewrite Nat2Z.inj_succ, Z.pow_succ_r in Hn by lia. lia.
Qed.

Lemma decimal_fuel (n : Z) : 0 <= n -> n < 10 ^ Z.of_nat (S (Z.to_nat (Z.log2 n))).
Proof.
  intros Hn. rewrite Nat2Z.inj_succ, Z2Nat.id by apply Z.log2_nonneg.
  destruct (Z.eq_dec n 0) as [->|Hpos]; [cbn; lia|].
  destruct (Z.log2_spec n ltac:(lia)) as [_ Hupper].
  apply Z.lt_le_trans with (2 ^ Z.succ (Z.log2 n)); [exact Hupper|].
  apply Z.pow_le_mono_l. split; [lia|lia].
Qed.

Lemma decimal_digits_some (fuel : nat) (n : Z) :
  decimal_digits (S fuel) n <> [].
Proof.
  cbn [decimal_digits]. destruct (n <? 10); [discriminate|].
  intros H. apply app_eq_nil in H. destruct H as [_ H]. discriminate.
Qed.

Lemma strtol_digits_all (l : list ascii) :
  forall acc : Z,
    Forall (fun c => isdigit c = true) l ->
    strtol_digits acc l = (fold_left digit_step l acc, []).
Proof.
  induction l as [|c l IH]; intros acc Hl; cbn [strtol_digits fold_left];
    [reflexivity|].
  inversion Hl as [|? ? Hc Hrest]; subst. rewrite Hc. now apply IH.
Qed.

Lemma isdigit_code (c : ascii) :
  isdigit c = true -> (48 <= N_of_ascii c <= 57)%N.
Proof.
  unfold isdigit. intros H. apply andb_prop in H. destruct H as [H1 H2].
  apply N.leb_le in H1, H2. lia.
Qed.

Lemma isdigit_plain (c : ascii) :
  isdigit c = true ->
  isspace c = false /\ is_blank c = false /\ isalpha c = false /\
  Ascii.eqb c "-" = false /\ Ascii.eqb c "+" = false.
Proof.
  intros Hc. apply isdigit_code in Hc.
  assert (Hneq : forall x : ascii, (N_of_ascii x < 48)%N -> Ascii.eqb c x = false).
  { intros x Hx. destruct (Ascii.eqb_spec c x) as [->|]; [lia | reflexivity]. }
  repeat split.
  - unfold isspace. cbv zeta.
    destruct (N.eqb_spec (N_of_ascii c) 32); [lia|].
    destruct (N.leb_spec (N_of_ascii c) 13); [lia|].
    now rewrite andb_false_r.
  - unfold is_blank. rewrite !Hneq by (cbn; lia). reflexivity.
  - unfold isalpha. cbv zeta.
    destruct (N.leb_spec 65 (N_of_ascii c)); [lia|].
    destruct (N.leb_spec 97 (N_of_ascii c)); [lia|]. reflexivity.
  - apply Hneq. cbn. lia.
  - apply Hneq. cbn. lia.
Qed.

(** [as_int] on a text of digits. *)
Lemma as_int_digits (l : list ascii) :
  l <> [] ->
  Forall (fun c => isdigit c = true) l ->
  fold_left digit_step l 0 <= LONG_MAX ->
  0 <= fold_left digit_step l 0 ->
  as_int (string_of_list_ascii l) = Some (signed 32 (fold_left digit_step l 0)).
Proof.
  intros Hne Hl Hmax Hmin. unfold as_int, strtol.
  rewrite list_ascii_of_string_of_list_ascii.
  destruct l as [|c l]; [congruence|].
  inversion Hl as [|? ? Hc Hrest]; subst.
  destruct (isdigit_plain c Hc) as (Hspace & _ & _ & Hminus & Hplus).
  cbn [skip_whitespace snd]. rewrite Hspace. cbn [snd].
  rewrite Hminus, Hplus, Hc.
  rewrite (strtol_digits_all (c :: l) 0 Hl).
  replace (fold_left digit_step (c :: l) 0 >? LONG_MAX) with false
    by (symmetry; rewrite Z.gtb_ltb; apply Z.ltb_ge; lia).
  replace (fold_left digit_step (c :: l) 0 <? LONG_MIN) with false
    by (symmetry; apply Z.ltb_ge; unfold LONG_MIN; lia).
  reflexivity.
Qed.

(** X23.  [as_int] reads the decimal text of every number of the range of
    [long] and hands out its low 32 bits as an [int]: a number that does not
    fit an [int] is taken all the same, and comes out wrapped. *)
Theorem as_int_decimal (n : Z) :
  LONG_MIN <= n <= LONG_MAX ->
  as_int (decimal n) = Some (signed 32 n).
Proof.
  intros Hn. unfold decimal.
  destruct (Z.ltb_spec n 0) as [Hneg|Hpos].
  - remember (decimal_digits (S (Z.to_nat (Z.log2 (- n)))) (- n)) as l eqn:Hlist.
    assert (Hl : Forall (fun c => isdigit c = true) l)
      by (subst l; apply decimal_digits_isdigit; lia).
    assert (Hvalue : fold_left digit_step l 0 = - n)
      by (subst l; apply decimal_digits_value; split;
          [lia | apply decimal_fuel; lia]).
    unfold as_int, strtol. cbn [list_ascii_of_string].
    rewrite list_ascii_of_string_of_list_ascii.
    cbn [skip_whitespace snd]. change (isspace "-") with false. cbn [snd].
    change (Ascii.eqb "-" "-") with true. cbv iota.
    destruct l as [|c l'];
      [symmetry in Hlist; now apply decimal_digits_some in Hlist|].
    assert (Hc : isdigit c = true) by (inversion Hl; assumption). rewrite Hc.
    rewrite (strtol_digits_all (c :: l') 0 Hl), Hvalue, Z.opp_involutive.
    replace (n >? LONG_MAX) with false
      by (symmetry; rewrite Z.gtb_ltb; apply Z.ltb_ge; lia).
    replace (n <? LONG_MIN) with false by (symmetry; apply Z.ltb_ge; lia).
    reflexivity.
  - set (l := decimal_digits (S (Z.to_nat (Z.log2 n))) n).
    assert (Hvalue : fold_left digit_step l 0 = n)
      by (apply decimal_digits_value; split; [lia | apply decimal_fuel; lia]).
    rewrite as_int_digits.
    + now rewrite Hvalue.
    + apply decimal_digits_some.
    + apply decimal_digits_isdigit. lia.
    + lia.
    + lia.
Qed.

(** X23 at 2^32, which comes out as 0. *)
Lemma as_int_decimal_wraps : as_int (decimal 4294967296) = Some (signed 32 4294967296).
Proof.
  apply (as_int_decimal 4294967296). unfold LONG_MIN, LONG_MAX. lia.
Defined.

Lemma list_ascii_of_string_app (a b : string) :
  list_ascii_of_string (a ++ b) = list_ascii_of_string a ++ list_ascii_of_string b.
Proof. induction a as [|c a IH]; cbn; [reflexivity | now rewrite IH]. Qed.

Lemma seconds_scan_digits (l : list ascii) :
  forall (r value : list ascii) (multiplier : Z) (multiplier_set : bool),
    Forall (fun c => isdigit c = true) l ->
    seconds_scan (l ++ r) value multiplier multiplier_set
    = seconds_scan r (value ++ l) multiplier multiplier_set.
Proof.
  induction l as [|c l IH]; intros r value multiplier multiplier_set Hl;
    cbn [app seconds_scan].
  - now rewrite app_nil_r.
  - inversion Hl as [|? ? Hc Hrest]; subst. rewrite Hc.
    rewrite IH by assumption. now rewrite <- app_assoc.
Qed.

Lemma bytes_scan_digits (l : list ascii) :
  forall (r value : list ascii) (multiplier : Z) (multiplier_set : bool),
    Forall (fun c => isdigit c = true) l ->
    bytes_scan (l ++ r) value multiplier multiplier_set
    = bytes_scan r (value ++ l) multiplier multiplier_set.
Proof.
  induction l as [|c l IH]; intros r value multiplier multiplier_set Hl;
    cbn [app bytes_scan].
  - now rewrite app_nil_r.
  - inversion Hl as [|? ? Hc Hrest]; subst. rewrite Hc.
    rewrite IH by assumption. now rewrite <- app_assoc.
Qed.

(** The digits of a number that is not negative. *)
Lemma decimal_text (n : Z) :
  0 <= n ->
  exists l : list ascii,
    decimal n = string_of_list_ascii l /\
    l <> [] /\
    Forall (fun c => isdigit c = true) l /\
    fold_left digit_step l 0 = n.
Proof.
  intros Hn. exists (decimal_digits (S (Z.to_nat (Z.log2 n))) n).
  unfold decimal. replace (n <? 0) with false by (symmetry; apply Z.ltb_ge; lia).
  repeat split.
  - apply decimal_digits_some.
  - apply decimal_digits_isdigit. lia.
  - apply decimal_digits_value. split; [lia | apply decimal_fuel; lia].
Qed.

Lemma not_empty_digits (l : list ascii) (u : string) :
  l <> [] ->
  Forall (fun c => isdigit c = true) l ->
  is_empty_string (string_of_list_ascii l ++ u) = false.
Proof.
  intros Hne Hl. unfold is_empty_string.
  rewrite list_ascii_of_string_app, list_ascii_of_string_of_list_ascii.
  destruct l as [|c l]; [congruence|].
  inversion Hl as [|? ? Hc Hrest]; subst.
  destruct (isdigit_plain c Hc) as (_ & Hblank & _).
  cbn [app forallb]. now rewrite Hblank.
Qed.

(** X24.  [as_seconds] reads a number that is followed by nothing or by one
    of the letters s, m, h, d and w in either case as that many seconds,
    minutes, hours, days or weeks, when the number of seconds fits an
    [int]. *)
Theorem as_seconds_units (n : Z) (u : string) (multiplier default_age : Z) :
  In (u, multiplier) age_units ->
  0 <= n ->
  n * multiplier < 2 ^ 31 ->
  as_seconds (decimal n ++ u) default_age = (0, n * multiplier).
Proof.
  intros Hu Hn Hfit.
  destruct (decimal_text n Hn) as (l & -> & Hne & Hl & Hvalue).
  assert (Hmult : 1 <= multiplier).
  { unfold age_units in Hu. cbn [In] in Hu.
    repeat (destruct Hu as [[= <- <-] | Hu]; [lia|]). destruct Hu. }
  unfold as_seconds. rewrite not_empty_digits by assumption.
  rewrite list_ascii_of_string_app, list_ascii_of_string_of_list_ascii.
  rewrite seconds_scan_digits by assumption. cbn [app].
  assert (Hscan : seconds_scan (list_ascii_of_string u) l 1 false
                  = Some (l, multiplier)).
  { unfold age_units in Hu. cbn [In] in Hu.
    repeat (destruct Hu as [[= <- <-] | Hu]; [reflexivity|]). destruct Hu. }
  rewrite Hscan, as_int_digits, Hvalue by (auto; unfold LONG_MAX; nia).
  rewrite !signed_small by nia.
  replace (n >=? 0) with true by (symmetry; apply Z.geb_le; lia).
  reflexivity.
Qed.

Lemma as_seconds_units_example : as_seconds (decimal 5 ++ "m") 0 = (0, 5 * 60).
Proof.
  apply (as_seconds_units 5 "m" 60 0).
  - cbn. auto 10.
  - lia.
  - lia.
Defined.

(** X25.  [as_bytes] reads a number that is followed by nothing, by b, or by
    one of k, m and g with or without a b, in either case, as that many
    bytes, KiB, MiB or GiB, when the number of bytes fits an [int]. *)
Theorem as_bytes_units (n : Z) (u : string) (multiplier default_bytes : Z) :
  In (u, multiplier) size_units ->
  0 <= n ->
  n * multiplier < 2 ^ 31 ->
  as_bytes (decimal n ++ u) default_bytes = (0, n * multiplier).
Proof.
  intros Hu Hn Hfit.
  destruct (decimal_text n Hn) as (l & -> & Hne & Hl & Hvalue).
  assert (Hmult : 1 <= multiplier).
  { unfold size_units in Hu. cbn [In] in Hu.
    repeat (destruct Hu as [[= <- <-] | Hu]; [lia|]). destruct Hu. }
  unfold as_bytes. rewrite not_empty_digits by assumption.
  rewrite list_ascii_of_string_app, list_ascii_of_string_of_list_ascii.
  rewrite bytes_scan_digits by assumption. cbn [app].
  assert (Hscan : bytes_scan (list_ascii_of_string u) l 1 false
                  = Some (l, multiplier)).
  { unfold size_units in Hu. cbn [In] in Hu.
    repeat (destruct Hu as [[= <- <-] | Hu]; [reflexivity|]). destruct Hu. }
  rewrite Hscan, as_int_digits, Hvalue by (auto; unfold LONG_MAX; nia).
  rewrite !signed_small by nia.
  replace (n >=? 0) with true by (symmetry; apply Z.geb_le; lia).
  reflexivity.
Qed.

Lemma as_bytes_units_example : as_bytes (decimal 2 ++ "MB") 0 = (0, 2 * 1048576).
Proof.
  apply (as_bytes_units 2 "MB" 1048576 0).
  - cbn. auto 20.
  - lia.
  - lia.
Defined.

(** X26.  [as_seconds] takes the digits wherever they stand: digits behind
    the letter of the unit count as much as digits in front of it. *)
Theorem as_seconds_scattered_digits (front behind : list ascii) (u : string)
    (multiplier default_age : Z) :
  In (u, multiplier) age_units ->
  u <> ""%string ->
  Forall (fun c => isdigit c = true) front ->
  Forall (fun c => isdigit c = true) behind ->
  as_seconds (string_of_list_ascii front ++ u ++ string_of_list_ascii behind)
             default_age
  = as_seconds (string_of_list_ascii (front ++ behind) ++ u) default_age.
Proof.
  intros Hu Hsome Hfront Hbehind.
  assert (Hboth : Forall (fun c => isdigit c = true) (front ++ behind))
    by (apply Forall_app; auto).
  assert (Hblank : forall l, Forall (fun c => isdigit c = true) l ->
                             forallb is_blank l = true -> l = []).
  { intros [|c l] Hl Hb; [reflexivity|].
    inversion Hl as [|? ? Hc _]; subst.
    destruct (isdigit_plain c Hc) as (_ & Hnb & _).
    cbn [forallb] in Hb. rewrite Hnb in Hb. discriminate. }
  unfold as_seconds, is_empty_string.
  rewrite !list_ascii_of_string_app, !list_ascii_of_string_of_list_ascii.
  rewrite !forallb_app.
  assert (Hletter : forallb is_blank (list_ascii_of_string u) = false).
  { unfold age_units in Hu. cbn [In] in Hu.
    repeat (destruct Hu as [[= <- <-] | Hu]; [try congruence; reflexivity|]).
    destruct Hu. }
  rewrite Hletter. cbn [andb]. rewrite !andb_false_r.
  rewrite (seconds_scan_digits front) by assumption.
  rewrite (seconds_scan_digits (front ++ behind)) by assumption.
  cbn [app].
  assert (Hunit : forall value r,
             seconds_scan (list_ascii_of_string u ++ r) value 1 false
             = seconds_scan r value multiplier true).
  { intros value r. unfold age_units in Hu. cbn [In] in Hu.
    destruct Hu as [[= <- <-] | Hu]; [congruence|].
    repeat (destruct Hu as [[= <- <-] | Hu]; [reflexivity|]). destruct Hu. }
  assert (Hdigits : forall value r,
             Forall (fun c => isdigit c = true) r ->
             seconds_scan r value multiplier true = Some (value ++ r, multiplier)).
  { intros value r Hr. rewrite <- (app_nil_r r) at 1.
    rewrite seconds_scan_digits by assumption. reflexivity. }
  rewrite Hunit, Hdigits by assumption.
  rewrite <- (app_nil_r (list_ascii_of_string u)).
  rewrite Hunit, Hdigits by constructor. now rewrite app_nil_r.
Qed.

Lemma as_seconds_scattered_digits_example :
  as_seconds (string_of_list_ascii ["1"%char] ++ "m"
              ++ string_of_list_ascii ["0"%char]) 7
  = as_seconds (string_of_list_ascii (["1"%char] ++ ["0"%char]) ++ "m") 7.
Proof.
  apply (as_seconds_scattered_digits ["1"%char] ["0"%char] "m" 60 7).
  - cbn. auto 10.
  - discriminate.
  - repeat constructor.
  - repeat constructor.
Defined.

End Numbers.

(** ** The fixed messages *)

Section FixedMessages.
Import Codec Message Wire.

(** [pgvictoria_write_message] over either transport. *)
Lemma write_message_on_the_wire (t : transport) (msg : message) :
  length msg = Z.of_nat (List.length (data msg)) ->
  length msg < 2 ^ 31 ->
  transport_within_offer t (length msg) ->
  on_the_wire (pgvictoria_write_message t msg) (data msg).
Proof.
  intros Hlen Hint Hoffer. destruct t as [script|script];
    cbn [pgvictoria_write_message transport_within_offer] in *.
  - unfold write_message.
    pose proof (write_loop_wire script msg 0 Hlen Hint) as Hwire.
    cbn [Z.of_nat firstn] in Hwire. rewrite Z.sub_0_r in Hwire.
    specialize (Hwire ltac:(lia) Hoffer). unfold on_the_wire.
    destruct (write_loop script msg 0 0 (length msg) []) as [[| |] wire|wire];
      auto; destruct Hwire as (rest & _ & Hrest); eauto.
  - unfold ssl_write_message.
    pose proof (ssl_write_loop_wire script msg 0 false Hlen Hint) as Hwire.
    cbn [Z.of_nat firstn] in Hwire. rewrite Z.sub_0_r in Hwire.
    specialize (Hwire ltac:(lia) ltac:(reflexivity) Hoffer). unfold on_the_wire.
    destruct (ssl_write_loop script msg false 0 0 (length msg) []) as [[| |] wire|wire];
      auto; destruct Hwire as (rest & Hrest & _); eauto.
Qed.

(** X27.  The messages that [pgvictoria_write_terminate],
    [pgvictoria_write_auth_success], [pgvictoria_write_auth_scram256] and
    [pgvictoria_write_connection_refused] hand to the transport are single
    frames: Terminate without payload, AuthenticationOk, AuthenticationSASL
    with the one mechanism SCRAM-SHA-256 and the end of the list, and an
    ErrorResponse with the fields S, V, C and M and no NUL behind the last
    field.  [pgvictoria_write_empty], [pgvictoria_write_notice] and
    [pgvictoria_write_tls] hand over the one byte 0, N and S, and
    [pgvictoria_write_connection_refused_old] the letter E and a text.  Over
    a transport that takes no more than it is offered, the wire holds the
    message when the call returns OK and a part of it from the start on
    otherwise. *)
Theorem fixed_messages_frames (t : transport) :
  Forall (fun '(call, msg) =>
            call = pgvictoria_write_message t msg /\
            length msg = Z.of_nat (List.length (data msg)) /\
            (transport_within_offer t (length msg) -> on_the_wire call (data msg)))
    [ (pgvictoria_write_terminate t, message_of_frame (mkFrame (chr "X") []));
      (pgvictoria_write_auth_success t,
       message_of_frame (mkFrame (chr "R") (int32_bytes 0)));
      (pgvictoria_write_auth_scram256 t,
       message_of_frame
         (mkFrame (chr "R")
                  (int32_bytes 10 ++ bytes_of_string "SCRAM-SHA-256" ++ [0; 0])));
      (pgvictoria_write_connection_refused t,
       message_of_frame
         (mkFrame (chr "E")
                  (error_field "S" "FATAL" ++ error_field "V" "FATAL"
                   ++ error_field "C" "53300"
                   ++ error_field "M" "connection refused")));
      (pgvictoria_write_empty t, mkMessage 0 1 [0]);
      (pgvictoria_write_notice t, mkMessage (chr "N") 1 [chr "N"]);
      (pgvictoria_write_tls t, mkMessage (chr "S") 1 [chr "S"]);
      (pgvictoria_write_connection_refused_old t,
       mkMessage (chr "E") 20
                 (chr "E" :: bytes_of_string "connection refused" ++ [0])) ].
Proof.
  assert (Hall : forall call msg,
             call = pgvictoria_write_message t msg ->
             length msg = Z.of_nat (List.length (data msg)) ->
             length msg < 2 ^ 31 ->
             call = pgvictoria_write_message t msg /\
             length msg = Z.of_nat (List.length (data msg)) /\
             (transport_within_offer t (length msg) -> on_the_wire call (data msg))).
  { intros call msg -> Hlen Hint. repeat split; auto.
    intros Hoffer. now apply write_message_on_the_wire. }
  repeat (apply Forall_cons;
          [apply Hall; [destruct t; reflexivity | reflexivity | reflexivity]|]).
  apply Forall_nil.
Qed.

End FixedMessages.

(** ** The PID file *)

Section PidFile.
Import Codec Configuration.

Lemma length_positive (s : string) : (0 <? String.length s)%nat = true <-> s <> ""%string.
Proof.
  destruct s; cbn; split; intros H; try discriminate; try congruence; auto.
Qed.

Lemma snprintf_some (size : nat) (text : string) :
  (2 <= size)%nat -> text <> ""%string -> snprintf size text <> ""%string.
Proof.
  intros Hsize Htext. unfold snprintf.
  destruct text as [|c text]; [congruence|].
  destruct size as [|[|size]]; try lia. cbn. discriminate.
Qed.

Lemma append_some (a b : string) : b <> ""%string -> (a ++ b)%string <> ""%string.
Proof. destruct a; cbn; [auto | discriminate]. Qed.

(** [create_pidfile] never goes on without a PID file. *)
Lemma default_pidfile_named (config : main_configuration) :
  pidfile (default_pidfile config) <> ""%string.
Proof.
  unfold default_pidfile.
  destruct (String.length (pidfile config) =? 0)%nat eqn:Hnone.
  - destruct (negb (pgvictoria_ends_with (unix_socket_dir config) "/"));
      cbn [with_pidfile pidfile];
      (apply snprintf_some; [unfold MAX_PATH; lia|]);
      apply append_some; discriminate.
  - now apply length_not_zero in Hnone.
Qed.

Lemma default_pidfile_again (config : main_configuration) :
  default_pidfile (default_pidfile config) = default_pidfile config.
Proof.
  pose proof (default_pidfile_named config) as Hnamed.
  apply length_not_zero in Hnamed.
  unfold default_pidfile at 1. now rewrite Hnamed.
Qed.

(** X28.  [create_pidfile] always works with a PID file: a configuration
    without one gets a default name first, so the branch without a PID file
    is never taken.  When the file is not there and can be created and
    written, the call returns 0 and the file holds the process id and a
    newline; a second call then returns 1 and changes nothing, and
    [remove_pidfile] leaves the files as they were before the first call. *)
Theorem create_remove_pidfile (can_create : string -> bool) (pid : Z)
    (config : main_configuration) (fs : Aes.filesystem) :
  let named := default_pidfile config in
  let name := pidfile named in
  fs name = None ->
  can_create name = true ->
  let r := create_pidfile can_create true pid config fs in
  name <> ""%string /\
  r = (0, named,
       Aes.fs_write (Aes.fs_write fs name [])
         name (bytes_of_string (snprintf 64 (decimal (wrap 32 pid) ++ String "010" "")))) /\
  (forall (can_create' : string -> bool) (write_ok : bool) (pid' : Z),
      create_pidfile can_create' write_ok pid' named (snd r) = (1, named, snd r)) /\
  (forall p : string, remove_pidfile named (snd r) p = fs p).
Proof.
  cbv zeta. intros Habsent Hcreate.
  pose proof (default_pidfile_named config) as Hnamed.
  assert (Hlen : (0 <? String.length (pidfile (default_pidfile config)))%nat = true)
    by now apply length_positive.
  split; [exact Hnamed|].
  assert (Hrun : create_pidfile can_create true pid config fs
                 = (0, default_pidfile config,
                    Aes.fs_write
                      (Aes.fs_write fs (pidfile (default_pidfile config)) [])
                      (pidfile (default_pidfile config))
                      (bytes_of_string
                         (snprintf 64 (decimal (wrap 32 pid) ++ String "010" ""))))).
  { unfold create_pidfile. rewrite Hlen. unfold accessible.
    now rewrite Habsent, Hcreate. }
  rewrite Hrun. cbn [snd]. split; [reflexivity|]. split.
  - intros can_create' write_ok pid'. unfold create_pidfile.
    rewrite default_pidfile_again, Hlen. unfold accessible, Aes.fs_write.
    now rewrite String.eqb_refl.
  - intros p. unfold remove_pidfile. rewrite Hlen.
    unfold accessible, Aes.fs_write, Aes.fs_remove.
    rewrite String.eqb_refl. cbn [andb].
    destruct (String.eqb_spec p (pidfile (default_pidfile config))) as [->|Hp];
      [now rewrite Habsent | reflexivity].
Qed.

(** X28 at the configuration without a PID file, socket directory [/tmp/]
    and host [*]: the PID file is [/tmp/pgvictoria.all.pid]. *)
Lemma create_remove_pidfile_default :
  let config := with_pidfile baseline "" in
  let fs : Aes.filesystem := fun _ => None in
  let r := create_pidfile (fun _ => true) true 4242 config fs in
  pidfile (default_pidfile config) = "/tmp/pgvictoria.all.pid"%string /\
  r = (0, default_pidfile config,
       Aes.fs_write (Aes.fs_write fs "/tmp/pgvictoria.all.pid" [])
         "/tmp/pgvictoria.all.pid" [52; 50; 52; 50; 10]) /\
  (forall (can_create' : string -> bool) (write_ok : bool) (pid' : Z),
      create_pidfile can_create' write_ok pid' (default_pidfile config) (snd r)
      = (1, default_pidfile config, snd r)) /\
  (forall p : string, remove_pidfile (default_pidfile config) (snd r) p = fs p).
Proof.
  split; [reflexivity|].
  apply (create_remove_pidfile (fun _ => true) 4242 (with_pidfile baseline "")
           (fun _ => None)); reflexivity.
Defined.

End PidFile.

(** ** Reading from the socket *)

Section ReadMessage.
Import Codec Message Wire.

Lemma read_message_retries (k : nat) (rest : list read_call) :
  forall errno_again : bool,
    (0 < k)%nat ->
    read_message (repeat (ReadFailed true) k ++ rest) true errno_again
    = read_message rest true false.
Proof.
  induction k as [|k IH]; intros errno_again Hk; [lia|].
  cbn [repeat app read_message andb].
  destruct k as [|k]; [reflexivity|]. apply IH. lia.
Qed.

(** X29.  [pgvictoria_read_block_message] on a socket goes through the
    reads that fail with [EAGAIN] or [EWOULDBLOCK] and returns with the first
    other result: OK and a message of the bytes that arrived, whose kind is
    their first byte, ZERO at the end of the stream, ERROR for any other
    failure.  The end of the stream is looked at again instead when it is the
    first result and [errno] still holds [EAGAIN] from before the call. *)
Theorem read_block_message_first (k : nat) (r : read_call) (rest : list read_call)
    (errno_again : bool) :
  (k = 0%nat -> errno_again = false) ->
  pgvictoria_read_block_message (repeat (ReadFailed true) k ++ r :: rest) errno_again
  = match r with
    | Got [] => Some (MESSAGE_STATUS_ZERO, None)
    | Got (b :: bytes) =>
        Some (MESSAGE_STATUS_OK,
              Some (mkMessage (signed 8 b) (Z.of_nat (List.length (b :: bytes)))
                              (b :: bytes)))
    | ReadFailed false => Some (MESSAGE_STATUS_ERROR, None)
    | ReadFailed true => pgvictoria_read_block_message rest false
    end /\
  pgvictoria_read_block_message (Got [] :: r :: rest) true
  = pgvictoria_read_block_message (r :: rest) false.
Proof.
  intros Herrno. unfold pgvictoria_read_block_message. split; [|reflexivity].
  assert (Hfirst : read_message (repeat (ReadFailed true) k ++ r :: rest) true
                                errno_again
                   = read_message (r :: rest) true false).
  { destruct k as [|k].
    - rewrite Herrno by reflexivity. reflexivity.
    - apply read_message_retries. lia. }
  rewrite Hfirst. destruct r as [[|b bytes]|[|]]; cbn [read_message andb].
  - reflexivity.
  - replace (Z.of_nat (List.length (b :: bytes)) >? 0) with true
      by (symmetry; apply Z.gtb_lt; cbn [List.length]; lia).
    reflexivity.
  - reflexivity.
  - reflexivity.
Qed.

(** X29 at two reads that would block and a ReadyForQuery frame. *)
Lemma read_block_message_first_example :
  pgvictoria_read_block_message
    (repeat (ReadFailed true) 2 ++ Got [90; 0; 0; 0; 5; 73] :: []) true
  = Some (MESSAGE_STATUS_OK,
          Some (mkMessage (signed 8 90) (Z.of_nat (List.length [90; 0; 0; 0; 5; 73]))
                          [90; 0; 0; 0; 5; 73])) /\
  pgvictoria_read_block_message (Got [] :: Got [90; 0; 0; 0; 5; 73] :: []) true
  = pgvictoria_read_block_message (Got [90; 0; 0; 0; 5; 73] :: []) false.
Proof.
  apply (read_block_message_first 2 (Got [90; 0; 0; 0; 5; 73]) [] true).
  discriminate.
Defined.

End ReadMessage.

(** ** A users file with a line that fails *)

Section UsersFailure.
Import Codec Configuration.
Context {ssl : Aes.OpenSSL} {b64 : Base64}.

Lemma users_loop_app (segment : Z) (master_key : string)
    (front rest : list string) :
  forall st : users_state,
    users_loop segment master_key (front ++ rest) st
    = match fst (users_loop segment master_key front st) with
      | EndOfFile =>
          users_loop segment master_key rest
                     (snd (users_loop segment master_key front st))
      | _ => users_loop segment master_key front st
      end.
Proof.
  induction front as [|line front IH]; intros st; cbn [app users_loop fst snd].
  - reflexivity.
  - destruct (user_line master_key line) as [| |username password];
      [apply IH | reflexivity |].
    destruct ((Z.of_nat (String.length username) <? MAX_USERNAME_LENGTH)
              && (Z.of_nat (String.length password) <? MAX_PASSWORD_LENGTH));
      [|apply IH].
    destruct (store_entry segment st username password); [apply IH | reflexivity].
Qed.

(** X30.  When a line of the users file fails behind blank lines, comments
    and the lines of at most [NUMBER_OF_USERS] users,
    [pgvictoria_read_users_configuration] returns 1 and leaves the number of
    users as it was, and yet the users of the lines in front of the failing
    line are in the table: on a zeroed table, they fill the first slots with
    their names and passwords in the order of the file. *)
Theorem read_users_configuration_failure (segment : Z) (config : main_configuration)
    (front rest : list string) (us : list user) (bad : string)
    (master_key : string) :
  users (common config) = repeat no_user NUMBER_OF_USERS ->
  holds master_key front us ->
  (List.length us <= NUMBER_OF_USERS)%nat ->
  user_line master_key bad = Failed ->
  pgvictoria_read_users_configuration segment config
    (Some (front ++ bad :: rest)) (Some master_key)
  = UsersReturn 1
      (Intact (with_common config
                 (set_users (us ++ repeat no_user
                                     (NUMBER_OF_USERS - List.length us)))))
      (Message.span 0 (List.length us)).
Proof.
  intros Hzero Hfront Hfit Hbad.
  unfold pgvictoria_read_users_configuration.
  rewrite Hzero, users_loop_app.
  pose proof (users_loop_holds segment master_key front us Hfront
                [] NUMBER_OF_USERS [] eq_refl Hfit) as Hloop.
  cbn [List.length app Z.of_nat Nat.add] in Hloop. rewrite Hloop.
  cbn [fst snd users_loop]. rewrite Hbad.
  cbn [index table behind stores].
  now rewrite app_nil_r, rev_involutive.
Qed.

End UsersFailure.

Section UsersFailureExample.
Import Codec Configuration.

(** X30 at a users file whose second line has no password. *)
Lemma read_users_configuration_failure_example :
  @pgvictoria_read_users_configuration Aes.xor_openssl plain_base64 behind_users
    (with_common baseline (set_users (repeat no_user NUMBER_OF_USERS)))
    (Some ([("alice:7521" ++ String "010" "")%string]
           ++ ("bob" ++ String "010" "")%string
           :: [("carol:0150" ++ String "010" "")%string]))
    (Some "topsecret"%string)
  = UsersReturn 1
      (Intact (with_common
                 (with_common baseline (set_users (repeat no_user NUMBER_OF_USERS)))
                 (set_users ([mkUser "alice" "CAFE"]
                             ++ repeat no_user (NUMBER_OF_USERS - 1)))))
      (Message.span 0 1).
Proof.
  apply (@read_users_configuration_failure Aes.xor_openssl plain_base64 behind_users
           (with_common baseline (set_users (repeat no_user NUMBER_OF_USERS)))
           [("alice:7521" ++ String "010" "")%string]
           [("carol:0150" ++ String "010" "")%string]
           [mkUser "alice" "CAFE"]
           ("bob" ++ String "010" "")%string "topsecret").
  - reflexivity.
  - apply holds_entry; [|apply holds_end].
    stands_for_given "7521"%string.
  - apply Nat.leb_le. reflexivity.
  - vm_compute. reflexivity.
Defined.

End UsersFailureExample.
